(** * Verification of playbooks/library/cloudera/cdh.py

    A shallow embedding of the Cloudera cluster orchestration module
    (retry decorator, Parcels, Service and its subclasses,
    ClouderaManager) and the properties of its specification.

    The control plane (the [cm_api] client) is an external collaborator.
    It is modelled as an arbitrary oracle [remote : Call -> W -> res Reply * W]
    over an arbitrary world [W]; the embedding records every call together
    with its outcome in a trace, so the theorems hold for every behaviour
    of the control plane. *)

From stdpp Require Import base gmap strings list pretty.
From Stdlib Require Import ZArith Lia.

Open Scope string_scope.
Open Scope Z_scope.
Open Scope list_scope.

(** ** Python exceptions *)

Inductive exn : Type :=
| ApiException (msg : string)     (* cm_api.api_client.ApiException *)
| PyException (msg : string)      (* raise Exception(msg) *)
| KeyError (key : string)         (* d[key] on a missing key *)
| IndexError                      (* l[0] on an empty list *)
| TypeError                       (* an operation on None / a value of the wrong shape *)
| ValueError                      (* time.sleep on a negative length *)
| AttributeError (name : string)  (* getattr on a missing attribute *)
| NameError (name : string)       (* an unbound global *)
| SystemExit (code : Z)           (* sys.exit(code) *)
| OutOfFuel.                      (* not a Python exception: the loop bound of the model ran out *)

Inductive res (A : Type) : Type :=
| Ret (a : A)
| Raise (e : exn).
Arguments Ret {A} a.
Arguments Raise {A} e.

Definition is_api_exception {A} (r : res A) : bool :=
  match r with
  | Raise (ApiException _) => true
  | _ => false
  end.

(** ** Module constants *)

Definition CDH : string := "CDH".
Definition REMOTE_PARCEL_REPO_URLS : string := "REMOTE_PARCEL_REPO_URLS".
Definition BASE_SERVICES : list string := ["Zookeeper"; "Hdfs"; "Yarn"].
Definition ADDITIONAL_SERVICES : list string :=
  ["Spark_On_Yarn"; "Hbase"; "Hive"; "Impala"; "Flume"; "Oozie"; "Sqoop"].

(** ** Values exchanged with the control plane *)

Inductive cfgval : Type :=
| VStr (s : string)
| VInt (z : Z).

(** A configuration payload (a Python dict of settings). *)
Abbreviation Config := (gmap string cfgval).

Record ParcelState : Type := {
  progress : Z;
  totalProgress : Z;
  errors : list string
}.

Record ApiParcel : Type := {
  stage : string;
  state : ParcelState
}.

Record ApiConfig : Type := {
  value : option string;
  default : option string
}.

Record ApiCommand : Type := {
  success : option bool;
  resultMessage : string
}.

Record ApiService : Type := {
  serviceState : string
}.

(** ** The control-plane interface

    Objects returned by the client are identified by what names them:
    a cluster by its name, a service by its cluster and name (or as the
    management service), a role or role-config-group by its name, and a
    command by the call that issued it. *)

Inductive SvcRef : Type :=
| ClusterSvc (cluster name : string)   (* cluster.get_service / create_service *)
| MgmtSvc.                             (* manager.get_service / create_mgmt_service *)

Inductive Call : Type :=
(* ApiResource *)
| ApiGetCluster (name : string)
| ApiCreateCluster (name version fullVersion : string)
| ApiGetHost (hostId : string)
(* ApiCluster *)
| ClusterListHosts (cluster : string)
| ClusterAddHosts (cluster : string) (hosts : list string)
| ClusterGetParcel (cluster product version : string)
| ClusterGetService (cluster name : string)
| ClusterCreateService (cluster name type : string)
| ClusterStop (cluster : string)
| ClusterStart (cluster : string)
| ClusterDeployClientConfig (cluster : string)
(* ApiParcel *)
| ParcelStartDownload (cluster product version : string)
| ParcelStartDistribution (cluster product version : string)
| ParcelActivate (cluster product version : string)
(* ClouderaManager *)
| ManagerGetConfig (view : string)
| ManagerUpdateConfig (cfg : Config)
| ManagerGetService
| ManagerCreateMgmtService
| ManagerInspectHosts
(* ApiService *)
| ServiceUpdateConfig (svc : SvcRef) (cfg : Config)
| ServiceGetRoleConfigGroup (svc : SvcRef) (name : string)
| RoleConfigGroupUpdateConfig (svc : SvcRef) (name : string) (cfg : Config)
| ServiceGetRole (svc : SvcRef) (name : string)
| ServiceCreateRole (svc : SvcRef) (name type host : string)
| RoleUpdateConfig (svc : SvcRef) (name : string) (cfg : Config)
| ServiceGetRolesByType (svc : SvcRef) (type : string)
| ServiceStart (svc : SvcRef)
| ServiceCommand (svc : SvcRef) (method : string) (args : list string)
(* ApiCommand: the [index]-th command issued by [origin] *)
| CommandWait (origin : Call) (index : nat) (timeout : option Z)
| CommandFetch (origin : Call) (index : nat).

Inductive Reply : Type :=
| RObject                              (* an object none of whose attributes is read *)
| RService (s : ApiService)
| RHostRefs (hostIds : list string)
| RHost (hostname : string)
| RParcel (p : ApiParcel)
| RConfig (c : gmap string ApiConfig)
| RRoles (names : list string)
| RCommand (c : ApiCommand)
| RCommands (cs : list ApiCommand).

(** What [fail] reports: a message or a parcel's error list. *)
Inductive Msg : Type :=
| MsgStr (s : string)
| MsgErrors (l : list string).

(** Methods of the service deployment protocol, for the call-order trace. *)
Inductive Method : Type := MDeploy | MPreStart | MPostStart.

Inductive Event : Type :=
| Remote (c : Call) (r : res Reply)    (* a control-plane call and its outcome *)
| Sleep (seconds : Z)                  (* time.sleep(seconds) *)
| Enter (name : string) (m : Method)   (* a Service method is entered *)
| FailJson (msg : Msg)                 (* module.fail_json(msg=msg) *)
| LogError (msg : Msg).                (* LOG.error(msg) *)

(** ** The monad of the embedding: world state, exceptions, call trace *)

Definition M (W A : Type) : Type := W -> res A * W * list Event.

Definition ret {W A} (a : A) : M W A := fun w => (Ret a, w, []).

Definition bind {W A B} (m : M W A) (k : A -> M W B) : M W B :=
  fun w =>
    match m w with
    | (Ret a, w1, t1) => let '(r, w2, t2) := k a w1 in (r, w2, t1 ++ t2)
    | (Raise e, w1, t1) => (Raise e, w1, t1)
    end.

Definition raise {W A} (e : exn) : M W A := fun w => (Raise e, w, []).

Definition emit {W} (e : Event) : M W unit := fun w => (Ret tt, w, [e]).

(** [try: m except ApiException as msg: handler msg] *)
Definition try_except_api {W A} (m : M W A) (handler : string -> M W A) : M W A :=
  fun w =>
    match m w with
    | (Raise (ApiException msg), w1, t1) =>
        let '(r, w2, t2) := handler msg w1 in (r, w2, t1 ++ t2)
    | other => other
    end.

Notation "x <- m ;; k" := (bind m (fun x => k))
  (at level 100, m at next level, right associativity).
Notation "m ;;; k" := (bind m (fun _ => k))
  (at level 100, right associativity).

(** time.sleep raises ValueError on a negative length; the module only
    passes the non-negative delays 5 and 30. *)
Definition sleep {W} (seconds : Z) : M W unit :=
  if seconds <? 0 then raise ValueError else emit (Sleep seconds).

(** for x in l: body x *)
Fixpoint for_each {W A} (l : list A) (body : A -> M W unit) : M W unit :=
  match l with
  | [] => ret tt
  | x :: l' => body x ;;; for_each l' body
  end.

(** ** retry *)

Section Retry.
Context {W A : Type} (attempts delay : Z) (func : M W A).

(** The [while attempt_counter <= attempts] loop of [retry_loop]; the
    result is [None] when the loop falls through. *)
Fixpoint retry_while (fuel : nat) (attempt_counter : Z) : M W (option A) :=
  if attempt_counter <=? attempts then
    match fuel with
    | O => raise OutOfFuel
    | S fuel' =>
        try_except_api (a <- func ;; ret (Some a))
          (fun apie =>
             if attempt_counter =? attempts then raise (ApiException apie)
             else sleep delay ;;; retry_while fuel' (attempt_counter + 1))
    end
  else ret None.

Definition retry_loop : M W (option A) := retry_while (Z.to_nat attempts) 1.
End Retry.

Definition retry {W A} (attempts delay : Z) (func : M W A) : M W (option A) :=
  retry_loop attempts delay func.

(** ** fail

    [module.fail_json] exits the process, as [sys.exit(1)] does. The
    report of [fail] is kept in the trace; the other uses of the logger
    are not modelled. *)

Definition fail {W A} (module : bool) (msg : Msg) : M W A :=
  (if module then emit (FailJson msg) else emit (LogError msg)) ;;;
  raise (SystemExit 1).

(** ** The cluster description (cluster.yaml) *)

(** A role entry of the description. A key is either present with a
    value or absent: a key present with the value None is not told apart
    from an absent one. *)
Record RoleSpec : Type := {
  role_group : option string;          (* role.get('group') *)
  role_hosts : option (list string);   (* role.get('hosts') *)
  role_config : option Config          (* role.get('config') *)
}.

Record ServiceConfig : Type := {
  service_config : option Config;      (* config.get('config') *)
  service_roles : option (list RoleSpec)   (* config.get('roles') *)
}.

Record ClusterSpec : Type := {
  cluster_name : string;
  cluster_version : string;
  cluster_fullVersion : string;
  cluster_hosts : list string
}.

Record ParcelSpec : Type := {
  parcel_version : string;
  parcel_repo : option string
}.

Record ConfigDoc : Type := {
  config_cluster : ClusterSpec;
  config_parcel : ParcelSpec;
  config_services : gmap string ServiceConfig
}.

(** Python truthiness of the values read from the description. *)
Definition truthy_str (o : option string) : bool :=
  match o with
  | Some s => negb (String.eqb s "")
  | None => false
  end.

Definition truthy_list {A} (o : option (list A)) : bool :=
  match o with
  | Some (_ :: _) => true
  | _ => false
  end.

(** A dict is falsy exactly when it has no key. *)
Definition truthy_service_config (o : option ServiceConfig) : bool :=
  match o with
  | Some c =>
      match service_config c, service_roles c with
      | None, None => false
      | _, _ => true
      end
  | None => false
  end.

(** d.get('config', {}) *)
Definition get_config_or_empty (o : option Config) : Config :=
  match o with
  | Some c => c
  | None => ∅
  end.

(** str.upper on ASCII letters *)
Definition upper_ascii (c : Ascii.ascii) : Ascii.ascii :=
  let n := Ascii.N_of_ascii c in
  if ((97 <=? n) && (n <=? 122))%N then Ascii.ascii_of_N (n - 32)%N else c.

Fixpoint upper (s : string) : string :=
  match s with
  | EmptyString => EmptyString
  | String c s' => String (upper_ascii c) (upper s')
  end.

(** '{}-{}-{}'.format(name, group, role_id) *)
Definition role_name_of (name group : string) (role_id : Z) : string :=
  name +:+ "-" +:+ group +:+ "-" +:+ pretty role_id.

(** '{}-{}-BASE'.format(name, group) *)
Definition base_group_name (name group : string) : string :=
  name +:+ "-" +:+ group +:+ "-BASE".

(** ','.join([a, b]) *)
Definition join_comma (a b : string) : string := a +:+ "," +:+ b.

(** The Service subclasses of the module. *)
Inductive Kind : Type :=
| Zookeeper | Hdfs | Yarn | Spark_On_Yarn | Hbase | Hive | Impala | Flume | Oozie | Sqoop.

Definition class_name (k : Kind) : string :=
  match k with
  | Zookeeper => "Zookeeper" | Hdfs => "Hdfs" | Yarn => "Yarn"
  | Spark_On_Yarn => "Spark_On_Yarn" | Hbase => "Hbase" | Hive => "Hive"
  | Impala => "Impala" | Flume => "Flume" | Oozie => "Oozie" | Sqoop => "Sqoop"
  end.

Definition all_kinds : list Kind :=
  [Zookeeper; Hdfs; Yarn; Spark_On_Yarn; Hbase; Hive; Impala; Flume; Oozie; Sqoop].

(** getattr(sys.modules[__name__], service), restricted to the Service
    subclasses: it is what the code does for the names of BASE_SERVICES
    and ADDITIONAL_SERVICES; the other attributes of the module (Service
    itself, Parcels, fail, ...) are not resolved here. *)
Definition service_class (service : string) : option Kind :=
  find (fun k => String.eqb (class_name k) service) all_kinds.

(** The immutable fields of a Service instance; the cached [_service]
    is the local state of its methods. *)
Record Service : Type := {
  svc_kind : Kind;
  svc_cluster : option string;         (* self.cluster, None before create_cluster *)
  svc_config : ServiceConfig;
  svc_type : string
}.

(** Service.name: the class name, upper-cased. *)
Definition name (self : Service) : string := upper (class_name (svc_kind self)).

(** Service.__init__(cluster, config, type=None) *)
Definition new_service (k : Kind) (cluster : option string) (config : ServiceConfig)
    (type : option string) : Service :=
  {| svc_kind := k; svc_cluster := cluster; svc_config := config;
     svc_type := match type with
                 | Some t => if truthy_str type then t else upper (class_name k)
                 | None => upper (class_name k)
                 end |}.

Record Parcels : Type := {
  p_module : bool;            (* whether an AnsibleModule is present *)
  p_cluster : string;
  p_version : string;
  p_repo : option string
}.

Record ClouderaManager : Type := {
  cm_config : ConfigDoc;
  cm_module : bool
}.

(** ** The program *)

Section Program.
Context {W : Type} (remote : Call -> W -> res Reply * W).

(** The state of a computation is the remote world together with the
    mutable attributes [L] of the Python object whose method runs. *)

Definition call {L} (c : Call) : M (W * L) Reply :=
  fun '(w, l) => let '(r, w') := remote c w in (r, (w', l), [Remote c r]).

Definition get_local {L} : M (W * L) L :=
  fun '(w, l) => (Ret l, (w, l), []).

Definition set_local {L} (l : L) : M (W * L) unit :=
  fun '(w, _) => (Ret tt, (w, l), []).

(** Run a method of another object, whose attributes are [l'], and
    hand back the attributes it ends with. *)
Definition zoom {L L' A} (l' : L') (m : M (W * L') A) : M (W * L) (A * L') :=
  fun '(w, l) =>
    match m (w, l') with
    | (Ret a, (w1, l1), t) => (Ret (a, l1), (w1, l), t)
    | (Raise e, (w1, _), t) => (Raise e, (w1, l), t)
    end.

(** Reading the attributes of a returned object; a reply of another
    shape than the method returns ends in TypeError. *)
Definition as_parcel {S} (r : Reply) : M S ApiParcel :=
  match r with RParcel p => ret p | _ => raise TypeError end.
Definition as_service {S} (r : Reply) : M S ApiService :=
  match r with RService s => ret s | _ => raise TypeError end.
Definition as_host_refs {S} (r : Reply) : M S (list string) :=
  match r with RHostRefs l => ret l | _ => raise TypeError end.
Definition as_host {S} (r : Reply) : M S string :=
  match r with RHost h => ret h | _ => raise TypeError end.
Definition as_config {S} (r : Reply) : M S (gmap string ApiConfig) :=
  match r with RConfig c => ret c | _ => raise TypeError end.
Definition as_roles {S} (r : Reply) : M S (list string) :=
  match r with RRoles l => ret l | _ => raise TypeError end.
Definition as_command {S} (r : Reply) : M S ApiCommand :=
  match r with RCommand c => ret c | _ => raise TypeError end.
Definition as_commands {S} (r : Reply) : M S (list ApiCommand) :=
  match r with RCommands l => ret l | _ => raise TypeError end.

(** d[key] *)
Definition item {S A} (key : string) (o : option A) : M S A :=
  match o with Some a => ret a | None => raise (KeyError key) end.

(** [f(x) for x in l] *)
Fixpoint map_m {S A B} (f : A -> M S B) (l : list A) : M S (list B) :=
  match l with
  | [] => ret []
  | x :: l' => y <- f x ;; ys <- map_m f l' ;; ret (y :: ys)
  end.

(** *** Parcels *)

Section ParcelsMethods.
Context {L : Type}.

Definition parcel (self : Parcels) : M (W * L) ApiParcel :=
  r <- call (ClusterGetParcel (p_cluster self) CDH (p_version self)) ;;
  as_parcel r.

Definition check_error (self : Parcels) (parcel : ApiParcel) : M (W * L) unit :=
  match errors (state parcel) with
  | [] => ret tt
  | _ :: _ => fail (p_module self) (MsgErrors (errors (state parcel)))
  end.

(** The inner function of [validate], decorated with [@retry()]:
    the defaults, 3 attempts and 5 seconds. *)
Definition wait_parcel (self : Parcels) : M (W * L) (option ApiParcel) :=
  retry 3 5 (parcel self).

Definition validate (self : Parcels) : M (W * L) unit :=
  try_except_api
    (r <- call (ClusterGetParcel (p_cluster self) CDH (p_version self)) ;;
     p <- as_parcel r ;;
     check_error self p)
    (fun _ =>
       match p_repo self with
       | None =>
           raise (PyException
             "None of the existing repos contain the requested parcel version. Please specify a parcel repo.")
       | Some repo =>
           r <- call (ManagerGetConfig "full") ;;
           cm_config <- as_config r ;;
           repo_config <- item REMOTE_PARCEL_REPO_URLS
                            (cm_config !! REMOTE_PARCEL_REPO_URLS) ;;
           match (if truthy_str (value repo_config) then value repo_config
                  else default repo_config) with
           | None => raise TypeError
           | Some urls =>
               call (ManagerUpdateConfig
                       {[ REMOTE_PARCEL_REPO_URLS := VStr (join_comma urls repo) ]}) ;;;
               o <- wait_parcel self ;;
               match o with
               | Some p => check_error self p
               | None => raise (AttributeError "state")
               end
           end
       end).

(** The body of [check_state], before decoration. *)
Definition check_state_body (self : Parcels) (states : list string) : M (W * L) unit :=
  p <- parcel self ;;
  check_error self p ;;;
  if bool_decide (stage p ∈ states) then ret tt
  else
    match states with
    | [] => raise IndexError
    | s0 :: _ =>
        raise (ApiException ("Waiting on parcel to get to state " +:+ s0))
    end.

(** [@retry(attempts=20, delay=30)] *)
Definition check_state (self : Parcels) (states : list string)
    : M (W * L) (option unit) :=
  retry 20 30 (check_state_body self states).

Definition download (self : Parcels) : M (W * L) unit :=
  parcel self ;;;
  call (ParcelStartDownload (p_cluster self) CDH (p_version self)) ;;;
  check_state self ["DOWNLOADED"; "DISTRIBUTED"; "ACTIVATED"; "INUSE"] ;;;
  ret tt.

Definition distribute (self : Parcels) : M (W * L) unit :=
  parcel self ;;;
  call (ParcelStartDistribution (p_cluster self) CDH (p_version self)) ;;;
  check_state self ["DISTRIBUTED"; "ACTIVATED"; "INUSE"] ;;;
  ret tt.

Definition activate (self : Parcels) : M (W * L) unit :=
  parcel self ;;;
  call (ParcelActivate (p_cluster self) CDH (p_version self)) ;;;
  check_state self ["ACTIVATED"; "INUSE"] ;;;
  ret tt.

(** Parcels.__init__ *)
Definition new_parcels (module : bool) (cluster version : string)
    (repo : option string) : M (W * L) Parcels :=
  let self := {| p_module := module; p_cluster := cluster;
                 p_version := version; p_repo := repo |} in
  validate self ;;; ret self.
End ParcelsMethods.

(** *** Service *)

(** The local state of a Service instance is its [_service] attribute:
    the service object once fetched or created. *)
Abbreviation ServiceCache := (option (SvcRef * ApiService)).

(** self.cluster.<method>: fails on None. *)
Definition the_cluster {S} (cluster : option string) (method : string) : M S string :=
  match cluster with
  | Some c => ret c
  | None => raise (AttributeError method)
  end.

(** The [service] property: fetch the service entity, create it when
    the lookup raises ApiException, and cache it. *)
Definition service (self : Service) : M (W * ServiceCache) (SvcRef * ApiService) :=
  cached <- get_local ;;
  match cached with
  | Some s => ret s
  | None =>
      s <- try_except_api
             (c <- the_cluster (svc_cluster self) "get_service" ;;
              r <- call (ClusterGetService c (name self)) ;;
              a <- as_service r ;;
              ret (ClusterSvc c (name self), a))
             (fun _ =>
                c <- the_cluster (svc_cluster self) "create_service" ;;
                r <- call (ClusterCreateService c (name self) (svc_type self)) ;;
                a <- as_service r ;;
                ret (ClusterSvc c (name self), a)) ;;
      set_local (Some s) ;;;
      ret s
  end.

Definition started (self : Service) : M (W * ServiceCache) bool :=
  s <- service self ;;
  ret (String.eqb (serviceState s.2) "STARTED").

(** Service.create_roles: the loop over role['hosts'], with the
    running [role_id]. *)
Fixpoint Service_create_roles_loop (self : Service) (group : string)
    (hosts : list string) (role_id : Z) : M (W * ServiceCache) unit :=
  match hosts with
  | [] => ret tt
  | host :: hosts' =>
      let role_id := role_id + 1 in
      let role_name := role_name_of (name self) group role_id in
      try_except_api
        (s <- service self ;;
         call (ServiceGetRole s.1 role_name) ;;;
         ret tt)
        (fun _ =>
           s <- service self ;;
           call (ServiceCreateRole s.1 role_name group host) ;;;
           ret tt) ;;;
      Service_create_roles_loop self group hosts' role_id
  end.

Definition Service_create_roles (self : Service) (role : RoleSpec) (group : string)
    : M (W * ServiceCache) unit :=
  hosts <- item "hosts" (role_hosts role) ;;
  Service_create_roles_loop self group hosts 0.

(** Zookeeper.create_roles: as above, then the role's serverId. *)
Fixpoint Zookeeper_create_roles_loop (self : Service) (group : string)
    (hosts : list string) (role_id : Z) : M (W * ServiceCache) unit :=
  match hosts with
  | [] => ret tt
  | host :: hosts' =>
      let role_id := role_id + 1 in
      let role_name := role_name_of (name self) group role_id in
      role <- try_except_api
                (s <- service self ;;
                 call (ServiceGetRole s.1 role_name) ;;;
                 ret s.1)
                (fun _ =>
                   s <- service self ;;
                   call (ServiceCreateRole s.1 role_name group host) ;;;
                   ret s.1) ;;
      call (RoleUpdateConfig role role_name {[ "serverId" := VInt role_id ]}) ;;;
      Zookeeper_create_roles_loop self group hosts' role_id
  end.

Definition Zookeeper_create_roles (self : Service) (role : RoleSpec) (group : string)
    : M (W * ServiceCache) unit :=
  hosts <- item "hosts" (role_hosts role) ;;
  Zookeeper_create_roles_loop self group hosts 0.

(** Method resolution: Zookeeper overrides create_roles. *)
Definition create_roles (self : Service) (role : RoleSpec) (group : string)
    : M (W * ServiceCache) unit :=
  match svc_kind self with
  | Zookeeper => Zookeeper_create_roles self role group
  | _ => Service_create_roles self role group
  end.

(** The body of the [for role in self.config['roles']] loop of deploy. *)
Definition deploy_role (self : Service) (role : RoleSpec) : M (W * ServiceCache) unit :=
  if negb (truthy_str (role_group role)) && truthy_list (role_hosts role) then
    raise (PyException
             ("[" +:+ name self +:+ "] group and hosts should be specified per role"))
  else
    group <- item "group" (role_group role) ;;
    s <- service self ;;
    call (ServiceGetRoleConfigGroup s.1 (base_group_name (name self) group)) ;;;
    call (RoleConfigGroupUpdateConfig s.1 (base_group_name (name self) group)
            (get_config_or_empty (role_config role))) ;;;
    create_roles self role group.

(** Service.deploy. The entry into the method (where the source logs
    "Deploying service") is marked in the trace. *)
Definition deploy (self : Service) : M (W * ServiceCache) unit :=
  emit (Enter (name self) MDeploy) ;;;
  is_started <- started self ;;
  if is_started then ret tt
  else
    s <- service self ;;
    call (ServiceUpdateConfig s.1
            (get_config_or_empty (service_config (svc_config self)))) ;;;
    if negb (truthy_list (service_roles (svc_config self))) then
      raise (PyException
               ("[" +:+ name self +:+ "] Atleast one role should be specified per service"))
    else
      roles <- item "roles" (service_roles (svc_config self)) ;;
      for_each roles (deploy_role self).

(** Issue a command of the service and wait for it:
    [cmd = self.service.<method>(args); cmd.wait(timeout).success].
    A failed command is only logged. *)
Definition run_command (self : Service) (method : string) (args : list string)
    (timeout : Z) : M (W * ServiceCache) unit :=
  s <- service self ;;
  call (ServiceCommand s.1 method args) ;;;
  r <- call (CommandWait (ServiceCommand s.1 method args) 0 (Some timeout)) ;;
  as_command r ;;;
  ret tt.

(** [for cmd in cmds: cmd.wait(timeout).success], with the position
    of [cmd] among the commands of [origin]. *)
Fixpoint wait_commands (origin : Call) (cmds : list ApiCommand) (index : nat)
    (timeout : Z) : M (W * ServiceCache) unit :=
  match cmds with
  | [] => ret tt
  | _ :: cmds' =>
      r <- call (CommandWait origin index (Some timeout)) ;;
      as_command r ;;;
      wait_commands origin cmds' (S index) timeout
  end.

(** pre_start and post_start, as resolved for the kind of the service;
    the defaults of Service do nothing. *)
Definition pre_start_body (self : Service) : M (W * ServiceCache) unit :=
  match svc_kind self with
  | Zookeeper =>
      s <- service self ;;
      call (ServiceCommand s.1 "init_zookeeper" []) ;;;
      ret tt
  | Hdfs =>
      s <- service self ;;
      let format := ServiceCommand s.1 "format_hdfs" [name self +:+ "-NAMENODE-1"] in
      r <- call format ;;
      cmds <- as_commands r ;;
      wait_commands format cmds 0 60
  | Spark_On_Yarn =>
      run_command self "_cmd" ["CreateSparkUserDirCommand"; "7"] 60 ;;;
      run_command self "_cmd" ["CreateSparkHistoryDirCommand"; "7"] 60 ;;;
      run_command self "_cmd" ["SparkUploadJarServiceCommand"; "7"] 60
  | Hbase => run_command self "create_hbase_root" [] 60
  | Hive => run_command self "create_hive_warehouse" [] 60
  | Impala => run_command self "create_impala_user_dir" [] 60
  | Oozie =>
      run_command self "create_oozie_db" [] 300 ;;;
      run_command self "install_oozie_sharelib" [] 300
  | Sqoop =>
      run_command self "create_sqoop_user_dir" [] 300 ;;;
      run_command self "create_sqoop_database_tables" [] 300
  | Yarn | Flume => ret tt
  end.

Definition post_start_body (self : Service) : M (W * ServiceCache) unit :=
  match svc_kind self with
  | Hdfs =>
      s <- service self ;;
      call (ServiceCommand s.1 "create_hdfs_tmp" []) ;;;
      ret tt
  | Hive =>
      run_command self "create_hive_metastore_database" [] 60 ;;;
      run_command self "create_hive_metastore_tables" [] 60
  | _ => ret tt
  end.

(** The hooks with their entry marked in the trace. *)
Definition pre_start (self : Service) : M (W * ServiceCache) unit :=
  emit (Enter (name self) MPreStart) ;;; pre_start_body self.

Definition post_start (self : Service) : M (W * ServiceCache) unit :=
  emit (Enter (name self) MPostStart) ;;; post_start_body self.

(** *** ClouderaManager

    The local state of a ClouderaManager is its [cluster] attribute,
    None until create_cluster has run. *)
Abbreviation ClusterAttr := (option string).

Definition create_cluster (self : ClouderaManager) : M (W * ClusterAttr) unit :=
  let cluster_config := config_cluster (cm_config self) in
  try_except_api
    (call (ApiGetCluster (cluster_name cluster_config)) ;;;
     set_local (Some (cluster_name cluster_config)))
    (fun _ =>
       call (ApiCreateCluster (cluster_name cluster_config)
               (cluster_version cluster_config)
               (cluster_fullVersion cluster_config)) ;;;
       set_local (Some (cluster_name cluster_config))) ;;;
  cluster <- get_local ;;
  c <- the_cluster cluster "list_hosts" ;;
  r <- call (ClusterListHosts c) ;;
  refs <- as_host_refs r ;;
  enrolled <- map_m (fun hostId => r <- call (ApiGetHost hostId) ;; as_host r) refs ;;
  let hosts := filter (fun host => host ∉ enrolled) (cluster_hosts cluster_config) in
  call (ClusterAddHosts c hosts) ;;;
  ret tt.

(** The body of [wait_inspect_hosts], before decoration. *)
Definition wait_inspect_hosts_body (self : ClouderaManager) (cmd : Call)
    : M (W * ClusterAttr) unit :=
  r <- call (CommandFetch cmd 0) ;;
  c <- as_command r ;;
  match success c with
  | None => raise (ApiException "Waiting on command to finish")
  | Some false => fail (cm_module self) (MsgStr "Host inspection failed")
  | Some true => ret tt
  end.

(** [@retry(attempts=20, delay=5)] *)
Definition wait_inspect_hosts (self : ClouderaManager) (cmd : Call)
    : M (W * ClusterAttr) (option unit) :=
  retry 20 5 (wait_inspect_hosts_body self cmd).

(** config['services']['MGMT']['roles'], read from the module-level
    [config] (unbound when the module is not run as a script). *)
Definition mgmt_roles {S} (config : option ConfigDoc) : M S (list RoleSpec) :=
  match config with
  | None => raise (NameError "config")
  | Some config =>
      mgmt <- item "MGMT" (config_services config !! "MGMT") ;;
      item "roles" (service_roles mgmt)
  end.

Definition deploy_mgmt_services (config : option ConfigDoc) (self : ClouderaManager)
    : M (W * ClusterAttr) unit :=
  go_on <- try_except_api
             (r <- call ManagerGetService ;;
              mgmt <- as_service r ;;
              ret (negb (String.eqb (serviceState mgmt) "STARTED")))
             (fun _ => call ManagerCreateMgmtService ;;; ret true) ;;
  if negb go_on then ret tt
  else
    roles <- mgmt_roles config ;;
    for_each roles
      (fun role =>
         group <- item "group" (role_group role) ;;
         r <- call (ServiceGetRolesByType MgmtSvc group) ;;
         existing <- as_roles r ;;
         if negb (0 <? Z.of_nat (length existing)) then
           hosts <- item "hosts" (role_hosts role) ;;
           match hosts with
           | [] => raise IndexError
           | host :: _ =>
               call (ServiceCreateRole MgmtSvc (group +:+ "-1") group host) ;;;
               ret tt
           end
         else ret tt) ;;;
    roles <- mgmt_roles config ;;
    for_each roles
      (fun role =>
         group <- item "group" (role_group role) ;;
         call (ServiceGetRoleConfigGroup MgmtSvc ("mgmt-" +:+ group +:+ "-BASE")) ;;;
         call (RoleConfigGroupUpdateConfig MgmtSvc ("mgmt-" +:+ group +:+ "-BASE")
                 (get_config_or_empty (role_config role))) ;;;
         ret tt) ;;;
    call (ServiceStart MgmtSvc) ;;;
    call (CommandWait (ServiceStart MgmtSvc) 0 None) ;;;
    r <- call ManagerGetService ;;
    mgmt <- as_service r ;;
    if String.eqb (serviceState mgmt) "STARTED" then ret tt
    else fail (cm_module self)
           (MsgStr "[MGMT] Cloudera Management services didn't start up properly").

(** The first loop of service_orchestrate: deploy and pre-start each
    configured service, appending it to [service_classes]. *)
Fixpoint orchestrate_deploy (self : ClouderaManager) (services : list string)
    (service_classes : list (Service * ServiceCache))
    : M (W * ClusterAttr) (list (Service * ServiceCache)) :=
  match services with
  | [] => ret service_classes
  | service :: services' =>
      let service_config := config_services (cm_config self) !! upper service in
      if truthy_service_config service_config then
        conf <- item (upper service) service_config ;;
        kind <- match service_class service with
                | Some k => ret k
                | None => raise (AttributeError service)
                end ;;
        cluster <- get_local ;;
        let svc := new_service kind cluster conf None in
        done <- zoom None (deploy svc ;;; pre_start svc) ;;
        orchestrate_deploy self services' (service_classes ++ [(svc, done.2)])
      else orchestrate_deploy self services' service_classes
  end.

Definition service_orchestrate (self : ClouderaManager) (services : list string)
    (stop : bool) : M (W * ClusterAttr) unit :=
  service_classes <- orchestrate_deploy self services [] ;;
  cluster <- get_local ;;
  (if stop then
     c <- the_cluster cluster "stop" ;;
     call (ClusterStop c) ;;;
     call (CommandWait (ClusterStop c) 0 None) ;;;
     ret tt
   else ret tt) ;;;
  c <- the_cluster cluster "start" ;;
  call (ClusterStart c) ;;;
  call (CommandWait (ClusterStart c) 0 None) ;;;
  for_each service_classes
    (fun svc => zoom svc.2 (post_start svc.1) ;;; ret tt).

Definition setup (config : option ConfigDoc) (self : ClouderaManager)
    : M (W * ClusterAttr) unit :=
  create_cluster self ;;;
  cluster <- get_local ;;
  c <- the_cluster cluster "get_parcel" ;;
  parcel <- new_parcels (cm_module self) c
              (parcel_version (config_parcel (cm_config self)))
              (parcel_repo (config_parcel (cm_config self))) ;;
  download parcel ;;;
  distribute parcel ;;;
  activate parcel ;;;
  call ManagerInspectHosts ;;;
  wait_inspect_hosts self ManagerInspectHosts ;;;
  deploy_mgmt_services config self ;;;
  service_orchestrate self BASE_SERVICES true ;;;
  service_orchestrate self ADDITIONAL_SERVICES false ;;;
  cluster <- get_local ;;
  c <- the_cluster cluster "deploy_client_config" ;;
  call (ClusterDeployClientConfig c) ;;;
  ret tt.
End Program.

(** ** Specification vocabulary *)

(** [n] consecutive attempts of [func] that each raise ApiException and
    are each followed by a sleep of [delay] seconds, from state [s] to
    state [s'], with the events they leave. *)
Inductive failed_attempts {St A} (delay : Z) (func : M St A)
    : nat -> St -> St -> list Event -> Prop :=
| failed_O s : failed_attempts delay func O s s []
| failed_S n s s1 s2 msg t1 t2 :
    func s = (Raise (ApiException msg), s1, t1) ->
    failed_attempts delay func n s1 s2 t2 ->
    failed_attempts delay func (S n) s s2 (t1 ++ Sleep delay :: t2).

(** What the decorated function hands back for the outcome of the
    attempt that ended the loop. *)
Definition verbatim {A} (r : res A) : res (option A) :=
  match r with
  | Ret a => Ret (Some a)
  | Raise e => Raise e
  end.

(** The call that fetches the status of the parcel of [self]. *)
Definition fetch_of (self : Parcels) : Call :=
  ClusterGetParcel (p_cluster self) CDH (p_version self).

(** The calls that start a phase of the parcel lifecycle. *)
Definition is_parcel_trigger (c : Call) : bool :=
  match c with
  | ParcelStartDownload _ _ _ | ParcelStartDistribution _ _ _ | ParcelActivate _ _ _ => true
  | _ => false
  end.

(** What [fail] leaves in the trace. *)
Definition report_of (module : bool) (msg : Msg) : Event :=
  if module then FailJson msg else LogError msg.

(** A control plane whose parcel stays as [p]; every other call returns
    a plain object. *)
Definition steady (p : ApiParcel) (c : Call) (w : unit) : res Reply * unit :=
  match c with
  | ClusterGetParcel _ _ _ => (Ret (RParcel p), tt)
  | _ => (Ret RObject, tt)
  end.

(** ** A scripted control plane for concrete runs

    The world is the list of outcomes still to be handed out, one per
    call in the order the calls arrive; once it is used up every call
    returns a plain object. *)

Definition scripted (c : Call) (w : list (res Reply)) : res Reply * list (res Reply) :=
  match w with
  | [] => (Ret RObject, [])
  | r :: w' => (r, w')
  end.

(** Run a computation against a script, from the local state [l]. *)
Definition run_scripted {L A} (m : (Call -> list (res Reply) -> res Reply * list (res Reply))
                                   -> M (list (res Reply) * L) A)
    (script : list (res Reply)) (l : L) : res A * list Event :=
  let '(r, _, t) := m scripted (script, l) in (r, t).

(** [validate] as the specification words it: the re-poll bounded by 20
    attempts, 30 seconds apart. Used only to compare with [validate]. *)
Definition validate_as_specified {W L} (remote : Call -> W -> res Reply * W)
    (self : Parcels) : M (W * L) unit :=
  try_except_api
    (r <- call remote (ClusterGetParcel (p_cluster self) CDH (p_version self)) ;;
     p <- as_parcel r ;;
     check_error self p)
    (fun _ =>
       match p_repo self with
       | None =>
           raise (PyException
             "None of the existing repos contain the requested parcel version. Please specify a parcel repo.")
       | Some repo =>
           r <- call remote (ManagerGetConfig "full") ;;
           cm_config <- as_config r ;;
           repo_config <- item REMOTE_PARCEL_REPO_URLS
                            (cm_config !! REMOTE_PARCEL_REPO_URLS) ;;
           match (if truthy_str (value repo_config) then value repo_config
                  else default repo_config) with
           | None => raise TypeError
           | Some urls =>
               call remote (ManagerUpdateConfig
                              {[ REMOTE_PARCEL_REPO_URLS := VStr (join_comma urls repo) ]}) ;;;
               o <- retry 20 30 (parcel remote self) ;;
               match o with
               | Some p => check_error self p
               | None => raise (AttributeError "state")
               end
           end
       end).

(** Projections of a trace. *)
Definition sleeps (t : list Event) : list Z :=
  omap (fun e => match e with Sleep d => Some d | _ => None end) t.

Definition calls (t : list Event) : list Call :=
  omap (fun e => match e with Remote c _ => Some c | _ => None end) t.

(** The role lookups of a trace, each with whether it raised
    ApiException, and the role creations attempted. *)
Definition lookups (t : list Event) : list (string * bool) :=
  omap (fun e => match e with
                 | Remote (ServiceGetRole _ n) r => Some (n, is_api_exception r)
                 | _ => None
                 end) t.

Definition creations (t : list Event) : list (string * string * string) :=
  omap (fun e => match e with
                 | Remote (ServiceCreateRole _ n type host) _ => Some (n, type, host)
                 | _ => None
                 end) t.

(** The creation that follows a lookup of the role for [host], if any. *)
Definition creation_after (group : string) (lh : string * bool * string)
    : option (string * string * string) :=
  if lh.1.2 then Some (lh.1.1, group, lh.2) else None.

(** Calls on roles and role-config-groups. *)
Definition is_role_call (c : Call) : bool :=
  match c with
  | ServiceGetRoleConfigGroup _ _ | RoleConfigGroupUpdateConfig _ _ _
  | ServiceGetRole _ _ | ServiceCreateRole _ _ _ _ | RoleUpdateConfig _ _ _
  | ServiceGetRolesByType _ _ => true
  | _ => false
  end.

(** Calls that change the control plane (as against lookups and waits). *)
Definition is_mutation (c : Call) : bool :=
  match c with
  | ApiCreateCluster _ _ _ | ClusterAddHosts _ _ | ClusterCreateService _ _ _
  | ClusterStop _ | ClusterStart _ | ClusterDeployClientConfig _
  | ParcelStartDownload _ _ _ | ParcelStartDistribution _ _ _ | ParcelActivate _ _ _
  | ManagerUpdateConfig _ | ManagerCreateMgmtService | ManagerInspectHosts
  | ServiceUpdateConfig _ _ | RoleConfigGroupUpdateConfig _ _ _
  | ServiceCreateRole _ _ _ _ | RoleUpdateConfig _ _ _ | ServiceStart _
  | ServiceCommand _ _ _ => true
  | _ => false
  end.

(** The host names the control plane reported as enrolled, the
    clusters created and the enrollments requested in a trace. *)
Definition enrolled_in (t : list Event) : list string :=
  omap (fun e => match e with
                 | Remote (ApiGetHost _) (Ret (RHost h)) => Some h
                 | _ => None
                 end) t.

Definition cluster_creations (t : list Event) : list (string * string * string) :=
  omap (fun e => match e with
                 | Remote (ApiCreateCluster n v fv) _ => Some (n, v, fv)
                 | _ => None
                 end) t.

Definition added_hosts (t : list Event) : list (string * list string) :=
  omap (fun e => match e with
                 | Remote (ClusterAddHosts c hs) _ => Some (c, hs)
                 | _ => None
                 end) t.

(** The call-order alphabet of the orchestration: entries into the
    methods of the services, and the stop and start of the cluster with
    the waits on them. *)
Inductive Phase : Type :=
| PDeploy (service : string)
| PPreStart (service : string)
| PPostStart (service : string)
| PStop
| PStopWaited
| PStart
| PStartWaited.

Definition phase_of (e : Event) : option Phase :=
  match e with
  | Enter n MDeploy => Some (PDeploy n)
  | Enter n MPreStart => Some (PPreStart n)
  | Enter n MPostStart => Some (PPostStart n)
  | Remote (ClusterStop _) _ => Some PStop
  | Remote (ClusterStart _) _ => Some PStart
  | Remote (CommandWait (ClusterStop _) _ _) _ => Some PStopWaited
  | Remote (CommandWait (ClusterStart _) _ _) _ => Some PStartWaited
  | _ => None
  end.

Definition phases (t : list Event) : list Phase := omap phase_of t.

(** The requested services that the description configures. *)
Definition configured (self : ClouderaManager) (services : list string) : list string :=
  filter (fun service =>
            truthy_service_config (config_services (cm_config self) !! upper service) = true)
    services.

(** The order of calls of one orchestration. *)
Definition expected_phases (self : ClouderaManager) (services : list string)
    (stop : bool) : list Phase :=
  flat_map (fun service => [PDeploy (upper service); PPreStart (upper service)])
    (configured self services)
  ++ (if stop then [PStop; PStopWaited] else [])
  ++ [PStart; PStartWaited]
  ++ map (fun service => PPostStart (upper service)) (configured self services).

(** A computation none of whose events belongs to the call-order
    alphabet, and one whose events of that alphabet are [E], cut short
    when it raises, and whose result satisfies [Q]. *)
Definition quiet {St A} (m : M St A) : Prop :=
  forall s, phases (m s).2 = [].

Definition ordered {St A} (E : list Phase) (Q : A -> Prop) (m : M St A) : Prop :=
  forall s,
    phases (m s).2 `prefix_of` E /\
    (forall a, (m s).1.1 = Ret a -> phases (m s).2 = E /\ Q a).

(** What a management role of the description asks for: the role named
    [group-1], of type [group], on the first host of the role. *)
Definition mgmt_role_of (role : RoleSpec) : option (string * string * string) :=
  match role_group role, role_hosts role with
  | Some group, Some (host :: _) => Some (group +:+ "-1", group, host)
  | _, _ => None
  end.

(** An event that, if it creates a role or configures a role-config-group,
    does so on the management service and for one of [roles]. *)
Definition from_mgmt_roles (roles : list RoleSpec) (e : Event) : Prop :=
  match e with
  | Remote (ServiceCreateRole svc n type host) _ =>
      svc = MgmtSvc /\
      exists role, role ∈ roles /\ mgmt_role_of role = Some (n, type, host)
  | Remote (RoleConfigGroupUpdateConfig svc n cfg) _ =>
      svc = MgmtSvc /\
      exists role group,
        role ∈ roles /\ role_group role = Some group /\
        n = "mgmt-" +:+ group +:+ "-BASE" /\
        cfg = get_config_or_empty (role_config role)
  | _ => True
  end.

(** A computation all of whose events satisfy [P] and whose result
    satisfies [Q]. *)
Definition obeys {St A} (P : Event -> Prop) (Q : A -> Prop) (m : M St A) : Prop :=
  forall s, Forall P (m s).2 /\ (forall a, (m s).1.1 = Ret a -> Q a).

(** The service entity a call is addressed to: the one it looks up or
    creates, the one whose method it is, or the one whose command it
    waits for. *)
Fixpoint service_of (c : Call) : option SvcRef :=
  match c with
  | ClusterGetService cluster n | ClusterCreateService cluster n _ =>
      Some (ClusterSvc cluster n)
  | ServiceUpdateConfig svc _ | ServiceGetRoleConfigGroup svc _
  | RoleConfigGroupUpdateConfig svc _ _ | ServiceGetRole svc _
  | ServiceCreateRole svc _ _ _ | RoleUpdateConfig svc _ _
  | ServiceGetRolesByType svc _ | ServiceStart svc | ServiceCommand svc _ _ => Some svc
  | CommandWait origin _ _ | CommandFetch origin _ => service_of origin
  | _ => None
  end.

(** An event that, if it is a call, is addressed to [svc]. *)
Definition addressed_to (svc : SvcRef) (e : Event) : Prop :=
  match e with
  | Remote c _ => service_of c = Some svc
  | _ => True
  end.

(** The cluster a call names, if it names one. *)
Fixpoint cluster_of (c : Call) : option string :=
  match c with
  | ApiGetCluster n | ApiCreateCluster n _ _ => Some n
  | ClusterListHosts cluster | ClusterAddHosts cluster _
  | ClusterGetParcel cluster _ _ | ClusterGetService cluster _
  | ClusterCreateService cluster _ _ | ClusterStop cluster | ClusterStart cluster
  | ClusterDeployClientConfig cluster
  | ParcelStartDownload cluster _ _ | ParcelStartDistribution cluster _ _
  | ParcelActivate cluster _ _ => Some cluster
  | ServiceUpdateConfig svc _ | ServiceGetRoleConfigGroup svc _
  | RoleConfigGroupUpdateConfig svc _ _ | ServiceGetRole svc _
  | ServiceCreateRole svc _ _ _ | RoleUpdateConfig svc _ _
  | ServiceGetRolesByType svc _ | ServiceStart svc | ServiceCommand svc _ _ =>
      match svc with
      | ClusterSvc cluster _ => Some cluster
      | MgmtSvc => None
      end
  | CommandWait origin _ _ | CommandFetch origin _ => cluster_of origin
  | _ => None
  end.

(** An event that, if it is a call that names a cluster, names [cluster]. *)
Definition in_cluster (cluster : string) (e : Event) : Prop :=
  match e with
  | Remote c _ =>
      match cluster_of c with
      | Some n => n = cluster
      | None => True
      end
  | _ => True
  end.

(** A computation that, from a state satisfying [Inv], ends in a state
    satisfying [Inv], leaves only events satisfying [P], and returns only
    results satisfying [Q]. *)
Definition keeps {St A} (Inv : St -> Prop) (P : Event -> Prop) (Q : A -> Prop)
    (m : M St A) : Prop :=
  forall s, Inv s ->
    Inv (m s).1.2 /\ Forall P (m s).2 /\ (forall a, (m s).1.1 = Ret a -> Q a).

(** The cached service object of a Service instance, if any, is [svc]. *)
Definition caches (svc : SvcRef) (s : option (SvcRef * ApiService)) : Prop :=
  match s with
  | Some x => x.1 = svc
  | None => True
  end.

(** A run that, if it returns, has ended with an event satisfying [E]. *)
Definition ends_with {St A} (E : Event -> Prop) (out : res A * St * list Event) : Prop :=
  forall a, out.1.1 = Ret a -> exists t0 e, out.2 = t0 ++ [e] /\ E e.

(** The call [c], having returned. *)
Definition returned (c : Call) (e : Event) : Prop :=
  exists r, e = Remote c (Ret r).

(** A fetch of the parcel of [self] that showed it without errors and in
    one of the stages [states]. *)
Definition parcel_seen (self : Parcels) (states : list string) (e : Event) : Prop :=
  exists p, e = Remote (fetch_of self) (Ret (RParcel p)) /\
            errors (state p) = [] /\ stage p ∈ states.

(** A lookup of the management service that showed it STARTED. *)
Definition reported_started (e : Event) : Prop :=
  exists a, e = Remote ManagerGetService (Ret (RService a)) /\
            serviceState a = "STARTED".

(** An event that, if it is a call, is a command of the service [svc]
    or a wait for one. *)
Definition command_on (svc : SvcRef) (e : Event) : Prop :=
  match e with
  | Remote (ServiceCommand svc' _ _) _
  | Remote (CommandWait (ServiceCommand svc' _ _) _ _) _ => svc' = svc
  | Remote _ _ => False
  | _ => True
  end.

(** The per-role configuration updates of a trace: the role and the
    settings sent. *)
Definition role_updates (t : list Event) : list (string * gmap string cfgval) :=
  omap (fun e => match e with
                 | Remote (RoleUpdateConfig _ n cfg) _ => Some (n, cfg)
                 | _ => None
                 end) t.

(** The setting Zookeeper.create_roles sends for the role of ordinal [i]. *)
Definition server_id_of (name group : string) (i : nat) : string * gmap string cfgval :=
  (role_name_of name group (Z.of_nat i), {[ "serverId" := VInt (Z.of_nat i) ]}).

(** A reply of the shape the caller reads: a command where a command is
    waited for, a list of commands from format_hdfs. *)
Definition shaped (c : Call) (r : Reply) : Prop :=
  match c with
  | CommandWait _ _ _ => exists cmd, r = RCommand cmd
  | ServiceCommand _ method _ =>
      if String.eqb method "format_hdfs" then exists cmds, r = RCommands cmds else True
  | _ => True
  end.

(** A control plane that answers every call, with a reply of the shape
    the caller reads. *)
Definition answers {W} (remote : Call -> W -> res Reply * W) : Prop :=
  forall c w, exists r w', remote c w = (Ret r, w') /\ shaped c r.

(** The role types the management service reported as having no role,
    and the types of the management roles created, in a trace. *)
Definition vacant_types (t : list Event) : list string :=
  omap (fun e => match e with
                 | Remote (ServiceGetRolesByType MgmtSvc type) (Ret (RRoles [])) => Some type
                 | _ => None
                 end) t.

Definition created_types (t : list Event) : list string :=
  omap (fun e => match e with
                 | Remote (ServiceCreateRole MgmtSvc _ type _) _ => Some type
                 | _ => None
                 end) t.

(** An event that is neither a lookup of the roles of a type nor the
    creation of a role. *)
Definition no_role_census (e : Event) : Prop :=
  match e with
  | Remote (ServiceGetRolesByType _ _) _ | Remote (ServiceCreateRole _ _ _ _) _ => False
  | _ => True
  end.

(** A run in which the management roles created are, in order, of the
    types reported vacant, none being left out if the run returns. *)
Definition creates_when_vacant {St} (out : res unit * St * list Event) : Prop :=
  created_types out.2 `prefix_of` vacant_types out.2 /\
  (out.1.1 = Ret tt -> created_types out.2 = vacant_types out.2).

(** How the role named [n] comes to be present on [host]: it is looked
    up, and created, with [group] as type, exactly when the lookup raises
    ApiException. The outcome is the exception that ended it, if any. *)
Inductive ensure_run (svc : SvcRef) (n group host : string)
    : option exn -> list Event -> Prop :=
| role_found a :
    ensure_run svc n group host None [Remote (ServiceGetRole svc n) (Ret a)]
| role_created msg a :
    ensure_run svc n group host None
      [Remote (ServiceGetRole svc n) (Raise (ApiException msg));
       Remote (ServiceCreateRole svc n group host) (Ret a)]
| role_lookup_failed e :
    is_api_exception (A:=unit) (Raise e) = false ->
    ensure_run svc n group host (Some e) [Remote (ServiceGetRole svc n) (Raise e)]
| role_creation_failed msg e :
    ensure_run svc n group host (Some e)
      [Remote (ServiceGetRole svc n) (Raise (ApiException msg));
       Remote (ServiceCreateRole svc n group host) (Raise e)].

(** The runs of create_roles over the hosts that remain, [role_id] roles
    having been dealt with: the roles [name-group-(role_id+1)], ... are
    ensured one after the other, each on the host at its position; after
    each, the call [after] names for it, if any, is made; the first
    exception ends the run. *)
Inductive roles_run (svc : SvcRef) (name group : string)
    (after : Z -> string -> option Call)
    : list string -> Z -> res unit -> list Event -> Prop :=
| roles_done role_id :
    roles_run svc name group after [] role_id (Ret tt) []
| roles_next host hosts role_id r t1 t2 :
    after (role_id + 1) (role_name_of name group (role_id + 1)) = None ->
    ensure_run svc (role_name_of name group (role_id + 1)) group host None t1 ->
    roles_run svc name group after hosts (role_id + 1) r t2 ->
    roles_run svc name group after (host :: hosts) role_id r (t1 ++ t2)
| roles_next_after host hosts role_id c a r t1 t2 :
    after (role_id + 1) (role_name_of name group (role_id + 1)) = Some c ->
    ensure_run svc (role_name_of name group (role_id + 1)) group host None t1 ->
    roles_run svc name group after hosts (role_id + 1) r t2 ->
    roles_run svc name group after (host :: hosts) role_id r
      (t1 ++ Remote c (Ret a) :: t2)
| roles_after_failed host hosts role_id c e t1 :
    after (role_id + 1) (role_name_of name group (role_id + 1)) = Some c ->
    ensure_run svc (role_name_of name group (role_id + 1)) group host None t1 ->
    roles_run svc name group after (host :: hosts) role_id (Raise e)
      (t1 ++ [Remote c (Raise e)])
| roles_failed host hosts role_id e t1 :
    ensure_run svc (role_name_of name group (role_id + 1)) group host (Some e) t1 ->
    roles_run svc name group after (host :: hosts) role_id (Raise e) t1.

(** What follows the ensuring of a role, by kind of service: Zookeeper
    sends the role its ordinal as serverId, the others nothing. *)
Definition after_role (k : Kind) (svc : SvcRef) (role_id : Z) (n : string) : option Call :=
  match k with
  | Zookeeper => Some (RoleUpdateConfig svc n {[ "serverId" := VInt role_id ]})
  | _ => None
  end.

(** A step [op] of the parcel lifecycle accepts exactly the stages
    [targets] of a parcel that stays as [p]: if the stage of [p] is among
    them, [op] fetches the parcel, sends [trigger], fetches the parcel
    again and returns; if it is not, [op] does the same and then keeps
    fetching, 20 times in all, 30 seconds apart, and ends in the
    ApiException that names the first of [targets]. *)
Definition accepts_exactly {W L} (self : Parcels) (p : ApiParcel)
    (op : M (W * L) unit) (trigger : Call) (targets : list string) : Prop :=
  forall s : W * L,
    (stage p ∈ targets ->
     exists s' r,
       op s = (Ret tt, s',
               [Remote (fetch_of self) (Ret (RParcel p)); Remote trigger (Ret r);
                Remote (fetch_of self) (Ret (RParcel p))])) /\
    (stage p ∉ targets ->
     exists s' t,
       op s = (Raise (ApiException ("Waiting on parcel to get to state " +:+ hd "" targets)),
               s', t) /\
       sleeps t = replicate 19 30 /\
       calls t = fetch_of self :: trigger :: replicate 20 (fetch_of self)).

(** The events of asking the control plane, for each host reference of
    [refs] in order, which host it is, with the host names [enrolled] it
    answered. *)
Definition gathered (refs enrolled : list string) : list Event :=
  zip_with (fun hostId hostname => Remote (ApiGetHost hostId) (Ret (RHost hostname)))
    refs enrolled.

(** A control plane that answers the calls of create_cluster: the
    lookup of a cluster returns or raises ApiException, the hosts of a
    cluster come as a list of references, a host reference resolves to a
    host, and every other call returns. *)
Definition cluster_answers {W} (remote : Call -> W -> res Reply * W) : Prop :=
  forall c w, exists rr w',
    remote c w = (rr, w') /\
    match c with
    | ApiGetCluster _ => (exists a, rr = Ret a) \/ (exists msg, rr = Raise (ApiException msg))
    | ClusterListHosts _ => exists refs, rr = Ret (RHostRefs refs)
    | ApiGetHost _ => exists hostname, rr = Ret (RHost hostname)
    | _ => exists a, rr = Ret a
    end.

(** ** Concrete inputs *)

Definition parcel_at (stage : string) : ApiParcel :=
  {| stage := stage;
     state := {| progress := 0; totalProgress := 0; errors := [] |} |}.

Definition parcels0 : Parcels :=
  {| p_module := true; p_cluster := "cluster1"; p_version := "5.4.0";
     p_repo := Some "http://repo.example/cdh5" |}.

(** The parcel is unknown until the supplementary repository has been
    polled four times. *)
Definition script_late_parcel : list (res Reply) :=
  [ Raise (ApiException "not found");
    Ret (RConfig {[ REMOTE_PARCEL_REPO_URLS :=
                      {| value := Some "http://archive.example/cdh5"; default := None |} ]});
    Ret RObject;
    Raise (ApiException "not found");
    Raise (ApiException "not found");
    Raise (ApiException "not found");
    Ret (RParcel (parcel_at "AVAILABLE_REMOTELY")) ].

Definition role_on (group : string) (hosts : list string) : RoleSpec :=
  {| role_group := Some group; role_hosts := Some hosts; role_config := None |}.

Definition service_with (roles : list RoleSpec) : ServiceConfig :=
  {| service_config := None; service_roles := Some roles |}.

(** An Hdfs service with three data nodes. *)
Definition datanodes : RoleSpec := role_on "DATANODE" ["host1"; "host2"; "host3"].

Definition hdfs0 : Service :=
  new_service Hdfs (Some "cluster1") (service_with [datanodes]) None.

(** The service object a Service instance holds once fetched. *)
Definition fetched_service (self : Service) : SvcRef * ApiService :=
  (ClusterSvc "cluster1" (name self), {| serviceState := "STOPPED" |}).

(** The second role is missing; the other two exist. *)
Definition script_second_role_missing : list (res Reply) :=
  [ Ret RObject; Raise (ApiException "not found"); Ret RObject; Ret RObject ].

(** A service without roles, not yet known to the cluster. *)
Definition hdfs_no_roles : Service :=
  new_service Hdfs (Some "cluster1")
    {| service_config := Some {[ "dfs_replication" := VInt 3 ]};
       service_roles := Some [] |}
    None.

(** The lookup of the service fails, its creation succeeds. *)
Definition script_new_service : list (res Reply) :=
  [ Raise (ApiException "not found");
    Ret (RService {| serviceState := "NA" |});
    Ret RObject ].

(** A service whose only role names a group and an empty host list. *)
Definition hdfs_role_without_hosts : Service :=
  new_service Hdfs (Some "cluster1") (service_with [role_on "DATANODE" []]) None.

(** A service whose only role names neither a group nor hosts. *)
Definition hdfs_empty_role : Service :=
  new_service Hdfs (Some "cluster1")
    (service_with [ {| role_group := None; role_hosts := None; role_config := None |} ])
    None.

(** The service exists and is stopped. *)
Definition script_stopped_service : list (res Reply) :=
  [ Ret (RService {| serviceState := "STOPPED" |}) ].

(** A description with Zookeeper, Yarn and the management services, and
    no Hdfs. *)
Definition doc0 : ConfigDoc :=
  {| config_cluster :=
       {| cluster_name := "cluster1"; cluster_version := "CDH5";
          cluster_fullVersion := "5.4.0";
          cluster_hosts := ["host1"; "host2"; "host3"; "host4"] |};
     config_parcel := {| parcel_version := "5.4.0"; parcel_repo := None |};
     config_services :=
       {[ "ZOOKEEPER" := service_with [role_on "SERVER" ["host1"]];
          "YARN" := service_with [role_on "RESOURCEMANAGER" ["host2"]];
          "MGMT" := service_with [role_on "HOSTMONITOR" ["host1"]] ]} |}.

(** The same description with another management role. *)
Definition doc1 : ConfigDoc :=
  {| config_cluster := config_cluster doc0;
     config_parcel := config_parcel doc0;
     config_services :=
       {[ "MGMT" := service_with [role_on "SERVICEMONITOR" ["host2"]] ]} |}.

Definition manager0 : ClouderaManager := {| cm_config := doc0; cm_module := true |}.
Definition manager1 : ClouderaManager := {| cm_config := doc1; cm_module := true |}.

(** The cluster exists and has host1 and host2 enrolled. *)
Definition script_two_enrolled : list (res Reply) :=
  [ Ret RObject; Ret (RHostRefs ["id1"; "id2"]); Ret (RHost "host1"); Ret (RHost "host2");
    Ret RObject ].

(** Both configured services are already started. *)
Definition script_started_services : list (res Reply) :=
  [ Ret (RService {| serviceState := "STARTED" |}); Ret RObject;
    Ret (RService {| serviceState := "STARTED" |}) ].

(** The management service does not exist, has no role yet, and is
    started in the end. *)
Definition script_new_mgmt : list (res Reply) :=
  [ Raise (ApiException "not found"); Ret RObject; Ret (RRoles []); Ret RObject;
    Ret RObject; Ret RObject; Ret RObject; Ret RObject;
    Ret (RService {| serviceState := "STARTED" |}) ].

(** A control plane on which every command fails: a wait reports
    success = False, format_hdfs hands back two commands. *)
Definition failed_command : ApiCommand :=
  {| success := Some false; resultMessage := "failed" |}.

Definition all_commands_fail (c : Call) (w : unit) : res Reply * unit :=
  match c with
  | CommandWait _ _ _ => (Ret (RCommand failed_command), tt)
  | ServiceCommand _ method _ =>
      if String.eqb method "format_hdfs"
      then (Ret (RCommands [failed_command; failed_command]), tt)
      else (Ret RObject, tt)
  | _ => (Ret RObject, tt)
  end.

(** A Zookeeper service with two servers. *)
Definition servers : RoleSpec := role_on "SERVER" ["host1"; "host2"].

Definition zookeeper0 : Service :=
  new_service Zookeeper (Some "cluster1") (service_with [servers]) None.

(** The first server role exists, the second has to be created. *)
Definition script_second_server_missing : list (res Reply) :=
  [ Ret RObject; Ret RObject; Raise (ApiException "not found"); Ret RObject; Ret RObject ].

(** A run of [setup] on [doc0] in which nothing has to be created: the
    cluster exists (with no host enrolled yet), the parcel is activated,
    the host inspection succeeds, and the management service, Zookeeper
    and Yarn are started. *)
Definition script_all_in_place : list (res Reply) :=
  [ Ret RObject; Ret (RHostRefs []); Ret RObject;
    Ret (RParcel (parcel_at "ACTIVATED"));
    Ret (RParcel (parcel_at "ACTIVATED")); Ret RObject;
    Ret (RParcel (parcel_at "ACTIVATED"));
    Ret (RParcel (parcel_at "ACTIVATED")); Ret RObject;
    Ret (RParcel (parcel_at "ACTIVATED"));
    Ret (RParcel (parcel_at "ACTIVATED")); Ret RObject;
    Ret (RParcel (parcel_at "ACTIVATED"));
    Ret RObject; Ret (RCommand {| success := Some true; resultMessage := "ok" |});
    Ret (RService {| serviceState := "STARTED" |});
    Ret (RService {| serviceState := "STARTED" |}); Ret RObject;
    Ret (RService {| serviceState := "STARTED" |}) ].

(** A Hdfs service with one data node, and a control plane on which the
    creation of the service fails once before it succeeds. *)
Definition hdfs_one_datanode : Service :=
  new_service Hdfs (Some "cluster1") (service_with [role_on "DATANODE" ["host1"]]) None.

Definition script_service_created_late : list (res Reply) :=
  [ Raise (ApiException "not found"); Raise (ApiException "busy");
    Raise (ApiException "not found"); Ret (RService {| serviceState := "NA" |});
    Ret RObject ].

(** ** Properties *)

Section MonadLemmas.
Context {St : Type}.

Lemma bind_ret_l {A B} (a : A) (k : A -> M St B) s : bind (ret a) k s = k a s.
Proof. unfold bind, ret. destruct (k a s) as [[r s'] t]. reflexivity. Qed.

Lemma bind_run {A B} (m : M St A) (k : A -> M St B) s a s1 t1 :
  m s = (Ret a, s1, t1) ->
  bind m k s = (let '(r, s2, t2) := k a s1 in (r, s2, t1 ++ t2)).
Proof. intros H. unfold bind. rewrite H. reflexivity. Qed.

Lemma bind_raise {A B} (m : M St A) (k : A -> M St B) s e s1 t1 :
  m s = (Raise e, s1, t1) -> bind m k s = (Raise e, s1, t1).
Proof. intros H. unfold bind. rewrite H. reflexivity. Qed.

Lemma try_pass {A} (m : M St A) h s r s1 t1 :
  m s = (r, s1, t1) -> is_api_exception r = false ->
  try_except_api m h s = (r, s1, t1).
Proof.
  intros H Hr. unfold try_except_api. rewrite H.
  destruct r as [a|[]]; simpl in Hr; try reflexivity. discriminate.
Qed.

Lemma try_catch {A} (m : M St A) h s msg s1 t1 :
  m s = (Raise (ApiException msg), s1, t1) ->
  try_except_api m h s = (let '(r, s2, t2) := h msg s1 in (r, s2, t1 ++ t2)).
Proof. intros H. unfold try_except_api. rewrite H. reflexivity. Qed.
End MonadLemmas.

Lemma bind_unfold {St A B} (m : M St A) (k : A -> M St B) (s : St) :
  bind m k s
  = match m s with
    | (Ret a, s1, t1) => let '(r, s2, t2) := k a s1 in (r, s2, t1 ++ t2)
    | (Raise e, s1, t1) => (Raise e, s1, t1)
    end.
Proof. reflexivity. Qed.

Section CallLemmas.
Context {W L : Type} (remote : Call -> W -> res Reply * W).

Lemma bind_raise_l {St A B} (e : exn) (k : A -> M St B) s :
  bind (raise e) k s = (Raise e, s, []).
Proof. reflexivity. Qed.

Lemma bind_get_local {B} (k : L -> M (W * L) B) w l :
  bind get_local k (w, l) = k l (w, l).
Proof. unfold bind, get_local. destruct (k l (w, l)) as [[r s] t]. reflexivity. Qed.

Lemma bind_call {B} (c : Call) (k : Reply -> M (W * L) B) w l :
  bind (call remote c) k (w, l)
  = (let '(r, w1) := remote c w in
     match r with
     | Ret a => let '(r2, s2, t2) := k a (w1, l) in (r2, s2, Remote c r :: t2)
     | Raise e => (Raise e, (w1, l), [Remote c r])
     end).
Proof.
  unfold bind, call. destruct (remote c w) as [[a|e] w1]; reflexivity.
Qed.
End CallLemmas.

Section RetryProperties.
Context {St A : Type} (attempts delay : Z) (func : M St A).

Lemma retry_while_spec (fuel : nat) :
  forall (attempt_counter : Z) (s : St),
    0 <= delay ->
    attempt_counter <= attempts ->
    attempts - attempt_counter < Z.of_nat fuel ->
    exists (n : nat) s1 t1 r s2 t2,
      attempt_counter + Z.of_nat n <= attempts /\
      failed_attempts delay func n s s1 t1 /\
      func s1 = (r, s2, t2) /\
      (is_api_exception r = true -> attempt_counter + Z.of_nat n = attempts) /\
      retry_while attempts delay func fuel attempt_counter s
        = (verbatim r, s2, t1 ++ t2).
Proof.
  induction fuel as [|fuel IH]; intros c s Hd Hc Hf; [lia|].
  destruct (func s) as [[r s1] t1] eqn:Hrun.
  assert (Hle : (c <=? attempts) = true) by (apply Z.leb_le; lia).
  destruct (is_api_exception r) eqn:Hapi.
  - destruct r as [a|e]; [discriminate|]. destruct e; try discriminate.
    destruct (Z.eq_dec c attempts) as [->|Hne].
    + exists O, s, [], (Raise (ApiException msg)), s1, t1.
      split; [lia|]. split; [constructor|]. split; [exact Hrun|].
      split; [intros _; lia|].
      simpl. rewrite Z.leb_refl.
      erewrite try_catch; [|erewrite bind_raise; [reflexivity|exact Hrun]].
      rewrite Z.eqb_refl. unfold raise. rewrite app_nil_r. reflexivity.
    + destruct (IH (c + 1) s1 Hd) as (n & s2 & t2 & r' & s3 & t3 & Hn & Hfa & Hr' & Hlast & Heq);
        [lia|lia|].
      exists (S n), s2, (t1 ++ Sleep delay :: t2), r', s3, t3.
      split; [lia|]. split; [econstructor; eassumption|]. split; [exact Hr'|].
      split; [intros H; specialize (Hlast H); lia|].
      simpl. rewrite Hle.
      erewrite try_catch; [|erewrite bind_raise; [reflexivity|exact Hrun]].
      assert (Hneq : (c =? attempts) = false) by (apply Z.eqb_neq; exact Hne).
      rewrite Hneq. unfold sleep.
      assert (Hdl : (delay <? 0) = false) by (apply Z.ltb_ge; exact Hd).
      rewrite Hdl. unfold bind at 1, emit. rewrite Heq.
      rewrite <- !app_assoc. reflexivity.
  - exists O, s, [], r, s1, t1.
    split; [lia|]. split; [constructor|]. split; [exact Hrun|].
    split; [intros H; congruence|].
    simpl. rewrite Hle.
    destruct r as [a|e].
    + erewrite try_pass; [reflexivity| |reflexivity].
      erewrite bind_run; [|exact Hrun]. unfold ret. rewrite app_nil_r. reflexivity.
    + erewrite try_pass; [reflexivity| |exact Hapi].
      erewrite bind_raise; [reflexivity|exact Hrun].
Qed.
End RetryProperties.

(** *** retry *)

(** The run of a decorated function, attempt by attempt. *)
Lemma retry_attempts {St A : Type} (attempts delay : Z) (func : M St A) (s : St) :
  0 < attempts ->
  0 <= delay ->
  exists (n : nat) s1 t1 r s2 t2,
    Z.of_nat n < attempts /\
    failed_attempts delay func n s s1 t1 /\
    func s1 = (r, s2, t2) /\
    (is_api_exception r = true -> Z.of_nat n + 1 = attempts) /\
    retry attempts delay func s = (verbatim r, s2, t1 ++ t2).
Proof.
  intros Ha Hd.
  destruct (retry_while_spec attempts delay func (Z.to_nat attempts) 1 s Hd)
    as (n & s1 & t1 & r & s2 & t2 & Hn & Hfa & Hr & Hlast & Heq); [lia|lia|].
  exists n, s1, t1, r, s2, t2.
  split; [lia|]. split; [exact Hfa|]. split; [exact Hr|].
  split; [intros H; specialize (Hlast H); lia|exact Heq].
Qed.

(** C4: a function decorated with [retry(attempts, delay)], with
    [attempts] positive, is invoked [n + 1 <= attempts] times: each of the
    first [n] invocations raises ApiException and is followed by a sleep
    of [delay] seconds; the outcome of the last invocation is handed back
    verbatim (the result on success, the exception otherwise), and that
    outcome is an ApiException only when it is invocation number
    [attempts]. *)
Theorem retry_spec {St A : Type} (attempts delay : Z) (func : M St A) (s : St) :
  0 < attempts ->
  0 <= delay ->
  exists (n : nat) s1 t1 r s2 t2,
    Z.of_nat n < attempts /\
    failed_attempts delay func n s s1 t1 /\
    func s1 = (r, s2, t2) /\
    (is_api_exception r = true -> Z.of_nat n + 1 = attempts) /\
    retry attempts delay func s = (verbatim r, s2, t1 ++ t2).
Proof.
  intros Ha Hd.
  destruct (retry_while_spec attempts delay func (Z.to_nat attempts) 1 s Hd)
    as (n & s1 & t1 & r & s2 & t2 & Hn & Hfa & Hr & Hlast & Heq); [lia|lia|].
  exists n, s1, t1, r, s2, t2.
  split; [lia|]. split; [exact Hfa|]. split; [exact Hr|].
  split; [intros H; specialize (Hlast H); lia|exact Heq].
Qed.

Lemma retry_spec_witness :
  0 < 3 /\ 0 <= 5 /\
  exists (n : nat) s1 t1 r s2 t2,
    Z.of_nat n < 3 /\
    failed_attempts 5 (call (L:=unit) scripted (ApiGetCluster "c")) n
      ([Raise (ApiException "down"); Ret RObject], tt) s1 t1 /\
    call scripted (ApiGetCluster "c") s1 = (r, s2, t2) /\
    (is_api_exception r = true -> Z.of_nat n + 1 = 3) /\
    retry 3 5 (call scripted (ApiGetCluster "c"))
      ([Raise (ApiException "down"); Ret RObject], tt) = (verbatim r, s2, t1 ++ t2).
Proof.
  split; [lia|]. split; [lia|].
  apply (retry_spec 3 5); lia.
Defined.

(** Without a positive bound the loop body is never entered. *)
Lemma retry_falls_through {St A : Type} (attempts delay : Z) (func : M St A) (s : St) :
  attempts <= 0 ->
  retry attempts delay func s = (Ret None, s, []).
Proof.
  intros H. unfold retry, retry_loop.
  replace (Z.to_nat attempts) with O by lia. simpl.
  assert (Hc : (1 <=? attempts) = false) by (apply Z.leb_gt; lia).
  rewrite Hc. reflexivity.
Qed.

(** C10: with [attempts] zero or negative the decorated function
    returns None at once: the state is untouched and no event occurs,
    whatever the wrapped function would do. *)
Theorem retry_nonpositive {St A : Type} (attempts delay : Z) (func : M St A) (s : St) :
  attempts <= 0 ->
  retry attempts delay func s = (Ret None, s, []).
Proof.
  intros H. unfold retry, retry_loop.
  replace (Z.to_nat attempts) with O by lia. simpl.
  assert (Hc : (1 <=? attempts) = false) by (apply Z.leb_gt; lia).
  rewrite Hc. reflexivity.
Qed.

Lemma retry_nonpositive_witness :
  0 <= 0 /\
  retry 0 5 (call (L:=unit) scripted (ApiGetCluster "c")) ([Ret RObject], tt)
    = (Ret None, ([Ret RObject], tt), []).
Proof.
  split; [lia|]. apply (retry_nonpositive 0 5). lia.
Defined.

(** The loop bound of the model is never what ends a decorated call. *)
Lemma retry_never_out_of_fuel {St A : Type} (attempts delay : Z) (func : M St A) (s : St) :
  0 <= delay ->
  (forall s0, (func s0).1.1 <> Raise OutOfFuel) ->
  (retry attempts delay func s).1.1 <> Raise OutOfFuel.
Proof.
  intros Hd Hf.
  destruct (Z_le_gt_dec attempts 0) as [Hle|Hgt].
  - rewrite retry_falls_through by exact Hle. discriminate.
  - destruct (retry_attempts attempts delay func s) as (n & s1 & t1 & r & s2 & t2 & _ & _ & Hr & _ & Heq);
      [lia|exact Hd|].
    rewrite Heq. simpl. specialize (Hf s1). rewrite Hr in Hf. simpl in Hf.
    destruct r; simpl; congruence.
Qed.

Lemma retry_first_try {St A : Type} (attempts delay : Z) (func : M St A) s r s1 t1 :
  0 < attempts ->
  func s = (r, s1, t1) ->
  is_api_exception r = false ->
  retry attempts delay func s = (verbatim r, s1, t1).
Proof.
  intros Ha Hrun Hr. unfold retry, retry_loop.
  destruct (Z.to_nat attempts) as [|fuel] eqn:Hfuel; [lia|].
  simpl. assert (Hc : (1 <=? attempts) = true) by (apply Z.leb_le; lia).
  rewrite Hc. destruct r as [a|e].
  - erewrite try_pass; [reflexivity| |reflexivity].
    erewrite bind_run; [|exact Hrun]. unfold ret. rewrite app_nil_r. reflexivity.
  - erewrite try_pass; [reflexivity| |exact Hr].
    erewrite bind_raise; [reflexivity|exact Hrun].
Qed.

(** *** Parcels *)

Section ParcelsProperties.
Context {W L : Type} (remote : Call -> W -> res Reply * W).

Lemma call_run (c : Call) w (l : L) r w1 :
  remote c w = (r, w1) -> call remote c (w, l) = (r, (w1, l), [Remote c r]).
Proof. intros H. unfold call. rewrite H. reflexivity. Qed.

Lemma parcel_fetch (self : Parcels) p w w1 (l : L) :
  remote (fetch_of self) w = (Ret (RParcel p), w1) ->
  parcel remote self (w, l)
    = (Ret p, (w1, l), [Remote (fetch_of self) (Ret (RParcel p))]).
Proof.
  intros H. unfold parcel. erewrite bind_run; [|apply call_run; exact H].
  reflexivity.
Qed.

Lemma fail_run {A} (module : bool) (msg : Msg) (s : W * L) :
  fail (A:=A) module msg s = (Raise (SystemExit 1), s, [report_of module msg]).
Proof. unfold fail, report_of. destruct module; reflexivity. Qed.

Lemma check_error_run (self : Parcels) (p : ApiParcel) (s : W * L) :
  check_error self p s
  = match errors (state p) with
    | [] => (Ret tt, s, [])
    | _ :: _ => (Raise (SystemExit 1), s,
                 [report_of (p_module self) (MsgErrors (errors (state p)))])
    end.
Proof.
  unfold check_error. destruct (errors (state p)); [reflexivity|apply fail_run].
Qed.

Lemma check_state_body_run (self : Parcels) (states : list string) p w w1 (l : L) :
  remote (fetch_of self) w = (Ret (RParcel p), w1) ->
  check_state_body remote self states (w, l)
  = match errors (state p) with
    | _ :: _ =>
        (Raise (SystemExit 1), (w1, l),
         [Remote (fetch_of self) (Ret (RParcel p));
          report_of (p_module self) (MsgErrors (errors (state p)))])
    | [] =>
        if bool_decide (stage p ∈ states) then
          (Ret tt, (w1, l), [Remote (fetch_of self) (Ret (RParcel p))])
        else
          match states with
          | [] => (Raise IndexError, (w1, l), [Remote (fetch_of self) (Ret (RParcel p))])
          | s0 :: _ =>
              (Raise (ApiException ("Waiting on parcel to get to state " +:+ s0)),
               (w1, l), [Remote (fetch_of self) (Ret (RParcel p))])
          end
    end.
Proof.
  intros H. unfold check_state_body.
  erewrite bind_run; [|apply parcel_fetch; exact H].
  unfold bind. rewrite check_error_run.
  destruct (errors (state p)); [|reflexivity].
  destruct (bool_decide (stage p ∈ states)); [reflexivity|].
  destruct states; reflexivity.
Qed.

Lemma check_state_reached (self : Parcels) (states : list string) p w w1 (l : L) :
  remote (fetch_of self) w = (Ret (RParcel p), w1) ->
  errors (state p) = [] ->
  stage p ∈ states ->
  check_state remote self states (w, l)
  = (Ret (Some tt), (w1, l), [Remote (fetch_of self) (Ret (RParcel p))]).
Proof.
  intros H He Hs. unfold check_state.
  apply (retry_first_try 20 30 _ _ (Ret tt)); [lia| |reflexivity].
  rewrite (check_state_body_run _ _ _ _ _ _ H), He.
  rewrite bool_decide_eq_true_2 by exact Hs. reflexivity.
Qed.

Lemma trigger_then_check (self : Parcels) (c : Call) (states : list string) p :
  (forall w0, exists w0', remote (fetch_of self) w0 = (Ret (RParcel p), w0')) ->
  (forall w0, exists r w0', remote c w0 = (Ret r, w0')) ->
  errors (state p) = [] ->
  stage p ∈ states ->
  forall s : W * L, exists s' t,
    (parcel remote self ;;; call remote c ;;; check_state remote self states ;;; ret tt) s
    = (Ret tt, s', t).
Proof.
  intros Hfetch Htrig He Hs [w l].
  destruct (Hfetch w) as [w1 H1].
  destruct (Htrig w1) as (r & w2 & H2).
  destruct (Hfetch w2) as [w3 H3].
  erewrite bind_run; [|apply parcel_fetch; exact H1].
  erewrite bind_run; [|apply call_run; exact H2].
  erewrite bind_run; [|apply check_state_reached; eassumption].
  unfold ret. eauto.
Qed.

Lemma failed_attempts_steady {St A} (delay : Z) (func : M St A) (e0 : Event) :
  (forall s0 msg s0' t0, func s0 = (Raise (ApiException msg), s0', t0) -> t0 = [e0]) ->
  forall n s s1 t1,
    failed_attempts delay func n s s1 t1 ->
    t1 = concat (replicate n [e0; Sleep delay]).
Proof.
  intros Hf. induction 1 as [|n s s1 s2 msg t1 t2 Hrun _ IH]; [reflexivity|].
  rewrite (Hf _ _ _ _ Hrun), IH. reflexivity.
Qed.

Lemma polls_sleeps (c : Call) (r : res Reply) (d : Z) (n : nat) :
  sleeps (concat (replicate n [Remote c r; Sleep d])) = replicate n d.
Proof. induction n as [|n IH]; [reflexivity|]. simpl. f_equal. exact IH. Qed.

Lemma polls_calls (c : Call) (r : res Reply) (d : Z) (n : nat) :
  calls (concat (replicate n [Remote c r; Sleep d])) = replicate n c.
Proof. induction n as [|n IH]; [reflexivity|]. simpl. f_equal. exact IH. Qed.

Lemma check_state_never_reached (self : Parcels) (states : list string) (p : ApiParcel) :
  (forall w0, exists w0', remote (fetch_of self) w0 = (Ret (RParcel p), w0')) ->
  errors (state p) = [] ->
  stage p ∉ states ->
  forall s : W * L, exists s' t,
    check_state remote self states s
    = (match states with
       | [] => Raise IndexError
       | s0 :: _ => Raise (ApiException ("Waiting on parcel to get to state " +:+ s0))
       end, s', t) /\
    (states <> [] ->
     sleeps t = replicate 19 30 /\ calls t = replicate 20 (fetch_of self)).
Proof.
  intros Hfetch He Hs s.
  assert (Hbody : forall s0 : W * L, exists s0',
            check_state_body remote self states s0
            = (match states with
               | [] => Raise IndexError
               | s0 :: _ =>
                   Raise (ApiException ("Waiting on parcel to get to state " +:+ s0))
               end, s0', [Remote (fetch_of self) (Ret (RParcel p))])).
  { intros [w0 l0]. destruct (Hfetch w0) as [w0' H0].
    rewrite (check_state_body_run _ _ _ _ _ _ H0), He.
    rewrite bool_decide_eq_false_2 by exact Hs. destruct states; eauto. }
  clear Hfetch.
  unfold check_state.
  destruct (retry_attempts 20 30 (check_state_body remote self states) s)
    as (n & s1 & t1 & r & s2 & t2 & Hn & Hfa & Hr & Hlast & Heq); [lia|lia|].
  destruct (Hbody s1) as [s1' H1]. rewrite H1 in Hr. injection Hr as <- <- <-.
  rewrite Heq. exists s1', (t1 ++ [Remote (fetch_of self) (Ret (RParcel p))]).
  split; [destruct states; reflexivity|].
  intros Hne. destruct states as [|st0 states]; [congruence|].
  specialize (Hlast eq_refl).
  assert (n = 19%nat) by lia. subst n.
  rewrite (failed_attempts_steady 30 _ (Remote (fetch_of self) (Ret (RParcel p)))
             ltac:(intros x0 msg x0' t0 E; destruct (Hbody x0) as [x Hx];
                   rewrite Hx in E; congruence) _ _ _ _ Hfa).
  unfold sleeps, calls. rewrite !omap_app.
  fold (sleeps (concat (replicate 19 [Remote (fetch_of self) (Ret (RParcel p)); Sleep 30]))).
  fold (calls (concat (replicate 19 [Remote (fetch_of self) (Ret (RParcel p)); Sleep 30]))).
  rewrite polls_sleeps, polls_calls. split; reflexivity.
Qed.

Lemma trigger_then_check_exact (self : Parcels) (c : Call) (states : list string) p :
  (forall w0, exists w0', remote (fetch_of self) w0 = (Ret (RParcel p), w0')) ->
  (forall w0, exists r w0', remote c w0 = (Ret r, w0')) ->
  errors (state p) = [] ->
  states <> [] ->
  accepts_exactly (L:=L) self p
    (parcel remote self ;;; call remote c ;;; check_state remote self states ;;; ret tt)
    c states.
Proof.
  intros Hfetch Htrig He Hne [w l].
  destruct (Hfetch w) as [w1 H1].
  destruct (Htrig w1) as (r & w2 & H2).
  split; intros Hs.
  - destruct (Hfetch w2) as [w3 H3].
    erewrite bind_run; [|apply parcel_fetch; exact H1].
    erewrite bind_run; [|apply call_run; exact H2].
    erewrite bind_run; [|apply check_state_reached; eassumption].
    unfold ret. eauto.
  - destruct (check_state_never_reached self states p Hfetch He Hs (w2, l))
      as (s' & t & Hrun & Hshape).
    destruct (Hshape Hne) as [Hsl Hcl].
    destruct states as [|st0 states]; [congruence|].
    erewrite bind_run; [|apply parcel_fetch; exact H1].
    erewrite bind_run; [|apply call_run; exact H2].
    erewrite bind_raise; [|exact Hrun].
    exists s', ([Remote (fetch_of self) (Ret (RParcel p))] ++ [Remote c (Ret r)] ++ t).
    split; [reflexivity|]. split.
    + simpl. exact Hsl.
    + simpl. rewrite Hcl. reflexivity.
Qed.

(** C6: [check_state], on a fetched parcel status [p]: with errors it
    ends at once in [fail] (SystemExit, which the decorator does not
    catch); without errors it returns on the first attempt when the
    stage is among [states], and otherwise the attempt raises
    ApiException; the attempts are governed by [retry] with 20 attempts
    and 30 seconds. While the parcel's status stays [p], without errors,
    [download] accepts exactly the stages DOWNLOADED, DISTRIBUTED,
    ACTIVATED and INUSE, [distribute] exactly DISTRIBUTED, ACTIVATED and
    INUSE, and [activate] exactly ACTIVATED and INUSE: for such a stage
    the step fetches the parcel, sends its trigger, fetches the parcel
    again and returns; for any other stage it goes on fetching, 20 times,
    30 seconds apart, and ends in the ApiException of the last attempt.
    So the sequence download, distribute, activate returns for a parcel
    that is ACTIVATED or INUSE from the start. *)
Theorem check_state_spec (self : Parcels) (states : list string) (p : ApiParcel)
    (w w1 : W) (l : L) :
  remote (fetch_of self) w = (Ret (RParcel p), w1) ->
  let fetched := Remote (fetch_of self) (Ret (RParcel p)) in
  (errors (state p) <> [] ->
   check_state remote self states (w, l)
   = (Raise (SystemExit 1), (w1, l),
      [fetched; report_of (p_module self) (MsgErrors (errors (state p)))]))
  /\ (errors (state p) = [] -> stage p ∈ states ->
      check_state remote self states (w, l) = (Ret (Some tt), (w1, l), [fetched]))
  /\ (errors (state p) = [] -> stage p ∉ states -> states <> [] ->
      exists msg,
        check_state_body remote self states (w, l)
        = (Raise (ApiException msg), (w1, l), [fetched]))
  /\ (forall s : W * L, exists (n : nat) s1 t1 r s2 t2,
        Z.of_nat n < 20 /\
        failed_attempts 30 (check_state_body remote self states) n s s1 t1 /\
        check_state_body remote self states s1 = (r, s2, t2) /\
        (is_api_exception r = true -> Z.of_nat n + 1 = 20) /\
        check_state remote self states s = (verbatim r, s2, t1 ++ t2))
  /\ (errors (state p) = [] ->
      (forall w0, exists w0', remote (fetch_of self) w0 = (Ret (RParcel p), w0')) ->
      (forall c w0, is_parcel_trigger c = true -> exists r w0', remote c w0 = (Ret r, w0')) ->
      accepts_exactly (L:=L) self p (download remote self)
        (ParcelStartDownload (p_cluster self) CDH (p_version self))
        ["DOWNLOADED"; "DISTRIBUTED"; "ACTIVATED"; "INUSE"]
      /\ accepts_exactly (L:=L) self p (distribute remote self)
           (ParcelStartDistribution (p_cluster self) CDH (p_version self))
           ["DISTRIBUTED"; "ACTIVATED"; "INUSE"]
      /\ accepts_exactly (L:=L) self p (activate remote self)
           (ParcelActivate (p_cluster self) CDH (p_version self))
           ["ACTIVATED"; "INUSE"]
      /\ (stage p ∈ ["ACTIVATED"; "INUSE"] ->
          forall s : W * L, exists s' t,
            (download remote self ;;; distribute remote self ;;; activate remote self) s
            = (Ret tt, s', t))).
Proof.
  intros H fetched. subst fetched.
  split; [|split; [|split; [|split]]].
  - intros He. unfold check_state.
    apply (retry_first_try 20 30 _ _ (Raise (SystemExit 1))); [lia| |reflexivity].
    rewrite (check_state_body_run _ _ _ _ _ _ H).
    destruct (errors (state p)); [congruence|reflexivity].
  - intros He Hs. apply check_state_reached; assumption.
  - intros He Hs Hne. rewrite (check_state_body_run _ _ _ _ _ _ H), He.
    rewrite bool_decide_eq_false_2 by exact Hs.
    destruct states as [|s0 ?]; [congruence|]. eauto.
  - intros s. apply (retry_attempts 20 30); lia.
  - intros He Hfetch Htrig.
    assert (Hd : accepts_exactly (L:=L) self p (download remote self)
                   (ParcelStartDownload (p_cluster self) CDH (p_version self))
                   ["DOWNLOADED"; "DISTRIBUTED"; "ACTIVATED"; "INUSE"]).
    { unfold download.
      apply (trigger_then_check_exact self
               (ParcelStartDownload (p_cluster self) CDH (p_version self))
               ["DOWNLOADED"; "DISTRIBUTED"; "ACTIVATED"; "INUSE"] p Hfetch);
        [intros w0; apply Htrig; reflexivity|exact He|discriminate]. }
    assert (Hi : accepts_exactly (L:=L) self p (distribute remote self)
                   (ParcelStartDistribution (p_cluster self) CDH (p_version self))
                   ["DISTRIBUTED"; "ACTIVATED"; "INUSE"]).
    { unfold distribute.
      apply (trigger_then_check_exact self
               (ParcelStartDistribution (p_cluster self) CDH (p_version self))
               ["DISTRIBUTED"; "ACTIVATED"; "INUSE"] p Hfetch);
        [intros w0; apply Htrig; reflexivity|exact He|discriminate]. }
    assert (Ha : accepts_exactly (L:=L) self p (activate remote self)
                   (ParcelActivate (p_cluster self) CDH (p_version self))
                   ["ACTIVATED"; "INUSE"]).
    { unfold activate.
      apply (trigger_then_check_exact self
               (ParcelActivate (p_cluster self) CDH (p_version self))
               ["ACTIVATED"; "INUSE"] p Hfetch);
        [intros w0; apply Htrig; reflexivity|exact He|discriminate]. }
    split; [exact Hd|]. split; [exact Hi|]. split; [exact Ha|].
    intros Hs s.
    destruct (proj1 (Hd s)) as (s1 & r1 & E1);
      [do 2 apply elem_of_cons, or_intror; exact Hs|].
    destruct (proj1 (Hi s1)) as (s2 & r2 & E2);
      [apply elem_of_cons, or_intror; exact Hs|].
    destruct (proj1 (Ha s2)) as (s3 & r3 & E3); [exact Hs|].
    erewrite bind_run; [|exact E1].
    erewrite bind_run; [|exact E2].
    rewrite E3. eauto.
Qed.
End ParcelsProperties.

Lemma check_state_spec_witness :
  steady (parcel_at "ACTIVATED") (fetch_of parcels0) tt
    = (Ret (RParcel (parcel_at "ACTIVATED")), tt) /\
  accepts_exactly (L:=unit) parcels0 (parcel_at "ACTIVATED")
    (download (steady (parcel_at "ACTIVATED")) parcels0)
    (ParcelStartDownload (p_cluster parcels0) CDH (p_version parcels0))
    ["DOWNLOADED"; "DISTRIBUTED"; "ACTIVATED"; "INUSE"] /\
  exists s' t,
    (download (L:=unit) (steady (parcel_at "ACTIVATED")) parcels0 ;;;
     distribute (steady (parcel_at "ACTIVATED")) parcels0 ;;;
     activate (steady (parcel_at "ACTIVATED")) parcels0) (tt, tt)
    = (Ret tt, s', t).
Proof.
  split; [reflexivity|].
  destruct (check_state_spec (L:=unit) (steady (parcel_at "ACTIVATED")) parcels0
              ["ACTIVATED"; "INUSE"] (parcel_at "ACTIVATED") tt tt tt
              eq_refl) as (_ & _ & _ & _ & H).
  assert (Hf : forall w0, exists w0',
             steady (parcel_at "ACTIVATED") (fetch_of parcels0) w0
             = (Ret (RParcel (parcel_at "ACTIVATED")), w0'))
    by (intros []; exists tt; reflexivity).
  assert (Ht : forall c w0, is_parcel_trigger c = true ->
             exists r w0', steady (parcel_at "ACTIVATED") c w0 = (Ret r, w0'))
    by (intros c [] Hc; exists RObject, tt; destruct c; try reflexivity; discriminate).
  destruct (H eq_refl Hf Ht) as (Hd & _ & _ & H3).
  split; [exact Hd|].
  apply H3, elem_of_cons. left. reflexivity.
Defined.

(** A parcel that stays in DOWNLOADING: [download] polls 20 times, 30
    seconds apart, and ends in the ApiException of the last attempt. *)
Example download_stuck :
  let '(r, _, t) :=
    download (L:=unit) (steady (parcel_at "DOWNLOADING")) parcels0 (tt, tt) in
  r = Raise (ApiException "Waiting on parcel to get to state DOWNLOADED") /\
  sleeps t = replicate 19 30 /\
  length (calls t) = 22%nat.
Proof. vm_compute. repeat split. Qed.

Section ValidateProperties.
Context {W L : Type} (remote : Call -> W -> res Reply * W).

(** C2, as the code has it: when the first fetch of the parcel raises
    ApiException and a repository URL was given, [validate] reads the
    manager's configuration, writes back REMOTE_PARCEL_REPO_URLS as the
    current value (the default when the value is empty) joined by a comma
    with the URL, and polls the parcel again under [retry] with its
    default bound, 3 attempts 5 seconds apart; the errors of the parcel it
    then obtains are checked, and an exception of the last poll is handed
    up. *)
Theorem validate_remediation (self : Parcels) (l : L) w msg w1 repo cm_config w2
    repo_config urls r3 w3 :
  remote (fetch_of self) w = (Raise (ApiException msg), w1) ->
  p_repo self = Some repo ->
  remote (ManagerGetConfig "full") w1 = (Ret (RConfig cm_config), w2) ->
  cm_config !! REMOTE_PARCEL_REPO_URLS = Some repo_config ->
  (if truthy_str (value repo_config) then value repo_config else default repo_config)
    = Some urls ->
  remote (ManagerUpdateConfig {[ REMOTE_PARCEL_REPO_URLS := VStr (urls +:+ "," +:+ repo) ]}) w2
    = (Ret r3, w3) ->
  exists (n : nat) s1 t1 r s2 t2,
    Z.of_nat n < 3 /\
    failed_attempts 5 (parcel remote self) n (w3, l) s1 t1 /\
    parcel remote self s1 = (r, s2, t2) /\
    (is_api_exception r = true -> Z.of_nat n + 1 = 3) /\
    validate remote self (w, l)
    = (let '(r', s', t') :=
         match r with
         | Ret p => check_error self p s2
         | Raise e => (Raise e, s2, [])
         end in
       (r', s',
        [Remote (fetch_of self) (Raise (ApiException msg));
         Remote (ManagerGetConfig "full") (Ret (RConfig cm_config));
         Remote (ManagerUpdateConfig
                   {[ REMOTE_PARCEL_REPO_URLS := VStr (urls +:+ "," +:+ repo) ]}) (Ret r3)]
        ++ t1 ++ t2 ++ t')).
Proof.
  intros Hfetch Hrepo Hget Hkey Hurls Hupd.
  destruct (retry_attempts 3 5 (parcel remote self) (w3, l))
    as (n & s1 & t1 & r & s2 & t2 & Hn & Hfa & Hr & Hlast & Heq); [lia|lia|].
  exists n, s1, t1, r, s2, t2.
  split; [exact Hn|]. split; [exact Hfa|]. split; [exact Hr|]. split; [exact Hlast|].
  unfold validate.
  erewrite try_catch;
    [|erewrite bind_raise; [reflexivity|apply call_run; exact Hfetch]].
  rewrite Hrepo.
  erewrite bind_run; [|apply call_run; exact Hget]. simpl as_config.
  rewrite bind_ret_l. rewrite Hkey. simpl item. rewrite bind_ret_l.
  rewrite Hurls. unfold join_comma.
  erewrite bind_run; [|apply call_run; exact Hupd].
  unfold wait_parcel.
  unfold bind at 1. rewrite Heq.
  destruct r as [p|e].
  - simpl verbatim. cbv iota. destruct (check_error self p s2) as [[r' s'] t'].
    simpl. rewrite <- !app_assoc. reflexivity.
  - simpl. rewrite !app_nil_r. reflexivity.
Qed.
End ValidateProperties.

Lemma validate_remediation_witness :
  exists (n : nat) s1 t1 r s2 t2,
    Z.of_nat n < 3 /\
    failed_attempts 5 (parcel (L:=unit) scripted parcels0) n
      (drop 3 script_late_parcel, tt) s1 t1 /\
    parcel scripted parcels0 s1 = (r, s2, t2) /\
    (is_api_exception r = true -> Z.of_nat n + 1 = 3) /\
    validate scripted parcels0 (script_late_parcel, tt)
    = (let '(r', s', t') :=
         match r with
         | Ret p => check_error parcels0 p s2
         | Raise e => (Raise e, s2, [])
         end in
       (r', s',
        [Remote (fetch_of parcels0) (Raise (ApiException "not found"));
         Remote (ManagerGetConfig "full")
           (Ret (RConfig {[ REMOTE_PARCEL_REPO_URLS :=
                              {| value := Some "http://archive.example/cdh5";
                                 default := None |} ]}));
         Remote (ManagerUpdateConfig
                   {[ REMOTE_PARCEL_REPO_URLS :=
                        VStr ("http://archive.example/cdh5" +:+ "," +:+ "http://repo.example/cdh5") ]})
           (Ret RObject)]
        ++ t1 ++ t2 ++ t')).
Proof.
  apply (validate_remediation (L:=unit) scripted parcels0 tt script_late_parcel
           "not found" (drop 1 script_late_parcel) "http://repo.example/cdh5"
           {[ REMOTE_PARCEL_REPO_URLS :=
                {| value := Some "http://archive.example/cdh5"; default := None |} ]}
           (drop 2 script_late_parcel)
           {| value := Some "http://archive.example/cdh5"; default := None |}
           "http://archive.example/cdh5" RObject (drop 3 script_late_parcel));
    reflexivity.
Defined.

(** C2 as stated fails: in a run where the parcel only shows up at the
    fourth poll, [validate] gives up after three polls, five seconds
    apart, while a re-poll of 20 attempts would have obtained it. *)
Lemma validate_repoll_counterexample :
  (run_scripted (fun remote => validate remote parcels0) script_late_parcel tt).1
    = Raise (ApiException "not found") /\
  sleeps (run_scripted (fun remote => validate remote parcels0) script_late_parcel tt).2
    = [5; 5] /\
  (run_scripted (fun remote => validate_as_specified remote parcels0)
     script_late_parcel tt).1 = Ret tt /\
  sleeps (run_scripted (fun remote => validate_as_specified remote parcels0)
            script_late_parcel tt).2 = [30; 30; 30].
Proof. vm_compute. repeat split. Qed.

(** *** Service *)

Section ServiceProperties.
Context {W : Type} (remote : Call -> W -> res Reply * W).

Lemma service_cached (self : Service) w svc :
  service remote self (w, Some svc) = (Ret svc, (w, Some svc), []).
Proof. reflexivity. Qed.

Lemma role_step_run (self : Service) (group host role_name : string) w svc :
  try_except_api
    (s <- service remote self ;; call remote (ServiceGetRole s.1 role_name) ;;; ret tt)
    (fun _ => s <- service remote self ;;
              call remote (ServiceCreateRole s.1 role_name group host) ;;; ret tt)
    (w, Some svc)
  = let '(rr, w1) := remote (ServiceGetRole svc.1 role_name) w in
    match rr with
    | Ret _ => (Ret tt, (w1, Some svc), [Remote (ServiceGetRole svc.1 role_name) rr])
    | Raise (ApiException _) =>
        let '(rc, w2) := remote (ServiceCreateRole svc.1 role_name group host) w1 in
        (match rc with Ret _ => Ret tt | Raise e => Raise e end, (w2, Some svc),
         [Remote (ServiceGetRole svc.1 role_name) rr;
          Remote (ServiceCreateRole svc.1 role_name group host) rc])
    | Raise e => (Raise e, (w1, Some svc), [Remote (ServiceGetRole svc.1 role_name) rr])
    end.
Proof.
  unfold try_except_api, bind, call, ret. simpl.
  destruct (remote (ServiceGetRole svc.1 role_name) w) as [rr w1].
  destruct rr as [a|e]; [reflexivity|].
  destruct e; try reflexivity.
  simpl.
  destruct (remote (ServiceCreateRole svc.1 role_name group host) w1) as [rc w2].
  destruct rc; reflexivity.
Qed.

Lemma Service_create_roles_loop_spec (self : Service) (group : string) svc :
  forall (hosts : list string) (role_id : Z) (w : W),
    let '(r, s', t) :=
      Service_create_roles_loop remote self group hosts role_id (w, Some svc) in
    exists k : nat,
      (k <= length hosts)%nat /\
      (r = Ret tt -> k = length hosts) /\
      map fst (lookups t)
      = take k (map (fun i => role_name_of (name self) group (role_id + Z.of_nat i))
                  (seq 1 (length hosts))) /\
      creations t = omap (creation_after group) (zip (lookups t) hosts).
Proof.
  induction hosts as [|host hosts IH]; intros role_id w.
  - simpl. exists O. repeat split; reflexivity.
  - cbn [Service_create_roles_loop]. unfold bind at 1.
    rewrite role_step_run.
    destruct (remote (ServiceGetRole svc.1 _) w) as [rr w1].
    assert (Hshift : map (fun i => role_name_of (name self) group (role_id + Z.of_nat i))
                       (seq 2 (length hosts))
                     = map (fun i => role_name_of (name self) group (role_id + 1 + Z.of_nat i))
                         (seq 1 (length hosts))).
    { rewrite <- (seq_shift (length hosts) 1), map_map.
      apply map_ext. intros i. f_equal. lia. }
    destruct rr as [a|e].
    + specialize (IH (role_id + 1) w1).
      destruct (Service_create_roles_loop remote self group hosts (role_id + 1) (w1, Some svc))
        as [[r s'] t].
      destruct IH as (k & Hk & Hret & Hl & Hc).
      exists (S k). split; [simpl; lia|]. split; [intros H; simpl; f_equal; auto|].
      split.
      * cbn [app lookups omap list_omap map fst is_api_exception length seq take].
        f_equal. fold (lookups t). rewrite Hl, Hshift. reflexivity.
      * cbn [app creations lookups omap list_omap is_api_exception zip zip_with
               creation_after fst snd].
        fold (creations t). fold (lookups t). exact Hc.
    + destruct e;
        try (exists 1%nat; split; [simpl; lia|]; split; [discriminate|];
             split; reflexivity).
      destruct (remote (ServiceCreateRole svc.1 _ group host) w1) as [rc w2].
      destruct rc as [b|e].
      * specialize (IH (role_id + 1) w2).
        destruct (Service_create_roles_loop remote self group hosts (role_id + 1) (w2, Some svc))
          as [[r s'] t].
        destruct IH as (k & Hk & Hret & Hl & Hc).
        exists (S k). split; [simpl; lia|]. split; [intros H; simpl; f_equal; auto|].
        split.
        -- cbn [app lookups omap list_omap map fst is_api_exception length seq take].
           f_equal. fold (lookups t). rewrite Hl, Hshift. reflexivity.
        -- cbn [app creations lookups omap list_omap is_api_exception zip zip_with
                  creation_after fst snd].
           fold (creations t). fold (lookups t). f_equal. exact Hc.
      * exists 1%nat. split; [simpl; lia|]. split; [discriminate|].
        split; reflexivity.
Qed.

Lemma zk_step_run (self : Service) (group host role_name : string) (cfg : Config)
    (k : unit -> M (W * option (SvcRef * ApiService)) unit) w svc :
  (role <- try_except_api
             (s <- service remote self ;;
              call remote (ServiceGetRole s.1 role_name) ;;; ret s.1)
             (fun _ => s <- service remote self ;;
                       call remote (ServiceCreateRole s.1 role_name group host) ;;;
                       ret s.1) ;;
   call remote (RoleUpdateConfig role role_name cfg) ;;; k tt) (w, Some svc)
  = let '(rr, w1) := remote (ServiceGetRole svc.1 role_name) w in
    let update w2 t :=
      let '(ru, w3) := remote (RoleUpdateConfig svc.1 role_name cfg) w2 in
      match ru with
      | Ret _ =>
          let '(r, s', t') := k tt (w3, Some svc) in
          (r, s', t ++ Remote (RoleUpdateConfig svc.1 role_name cfg) ru :: t')
      | Raise e =>
          (Raise e, (w3, Some svc), t ++ [Remote (RoleUpdateConfig svc.1 role_name cfg) ru])
      end in
    match rr with
    | Ret _ => update w1 [Remote (ServiceGetRole svc.1 role_name) rr]
    | Raise (ApiException _) =>
        let '(rc, w2) := remote (ServiceCreateRole svc.1 role_name group host) w1 in
        match rc with
        | Ret _ =>
            update w2 [Remote (ServiceGetRole svc.1 role_name) rr;
                       Remote (ServiceCreateRole svc.1 role_name group host) rc]
        | Raise e =>
            (Raise e, (w2, Some svc),
             [Remote (ServiceGetRole svc.1 role_name) rr;
              Remote (ServiceCreateRole svc.1 role_name group host) rc])
        end
    | Raise e => (Raise e, (w1, Some svc), [Remote (ServiceGetRole svc.1 role_name) rr])
    end.
Proof.
  unfold try_except_api, bind, call, ret. simpl.
  destruct (remote (ServiceGetRole svc.1 role_name) w) as [rr w1].
  destruct rr as [a|e].
  - simpl. destruct (remote (RoleUpdateConfig svc.1 role_name cfg) w1) as [[u|e] w3];
      [|reflexivity].
    destruct (k tt (w3, Some svc)) as [[r s'] t']. reflexivity.
  - destruct e; try reflexivity. simpl.
    destruct (remote (ServiceCreateRole svc.1 role_name group host) w1) as [[c|e] w2];
      [|reflexivity].
    simpl. destruct (remote (RoleUpdateConfig svc.1 role_name cfg) w2) as [[u|e] w3];
      [|reflexivity].
    destruct (k tt (w3, Some svc)) as [[r s'] t']. reflexivity.
Qed.

Lemma Zookeeper_create_roles_loop_spec (self : Service) (group : string) svc :
  forall (hosts : list string) (role_id : Z) (w : W),
    let '(r, s', t) :=
      Zookeeper_create_roles_loop remote self group hosts role_id (w, Some svc) in
    exists k : nat,
      (k <= length hosts)%nat /\
      (r = Ret tt -> k = length hosts) /\
      map fst (lookups t)
      = take k (map (fun i => role_name_of (name self) group (role_id + Z.of_nat i))
                  (seq 1 (length hosts))) /\
      creations t = omap (creation_after group) (zip (lookups t) hosts).
Proof.
  induction hosts as [|host hosts IH]; intros role_id w.
  - simpl. exists O. repeat split; reflexivity.
  - cbn [Zookeeper_create_roles_loop]. cbv zeta.
    rewrite (zk_step_run self group host _ _
               (fun _ => Zookeeper_create_roles_loop remote self group hosts (role_id + 1))).
    cbv zeta.
    destruct (remote (ServiceGetRole svc.1 _) w) as [rr w1].
    assert (Hshift : map (fun i => role_name_of (name self) group (role_id + Z.of_nat i))
                       (seq 2 (length hosts))
                     = map (fun i => role_name_of (name self) group (role_id + 1 + Z.of_nat i))
                         (seq 1 (length hosts))).
    { rewrite <- (seq_shift (length hosts) 1), map_map.
      apply map_ext. intros i. f_equal. lia. }
    destruct rr as [a|e].
    + destruct (remote (RoleUpdateConfig svc.1 _ _) w1) as [[u|e] w3].
      * specialize (IH (role_id + 1) w3).
        destruct (Zookeeper_create_roles_loop remote self group hosts (role_id + 1)
                    (w3, Some svc)) as [[r s'] t].
        destruct IH as (k & Hk & Hret & Hl & Hc).
        exists (S k). split; [simpl; lia|]. split; [intros H; simpl; f_equal; auto|].
        split.
        -- cbn [app lookups omap list_omap map fst is_api_exception length seq take].
           f_equal. fold (lookups t). rewrite Hl, Hshift. reflexivity.
        -- cbn [app creations lookups omap list_omap is_api_exception zip zip_with
                  creation_after fst snd].
           fold (creations t). fold (lookups t). exact Hc.
      * exists 1%nat. split; [simpl; lia|]. split; [discriminate|]. split; reflexivity.
    + destruct e;
        try (exists 1%nat; split; [simpl; lia|]; split; [discriminate|];
             split; reflexivity).
      destruct (remote (ServiceCreateRole svc.1 _ group host) w1) as [[c|e] w2].
      * destruct (remote (RoleUpdateConfig svc.1 _ _) w2) as [[u|e] w3].
        -- specialize (IH (role_id + 1) w3).
           destruct (Zookeeper_create_roles_loop remote self group hosts (role_id + 1)
                       (w3, Some svc)) as [[r s'] t].
           destruct IH as (k & Hk & Hret & Hl & Hc).
           exists (S k). split; [simpl; lia|]. split; [intros H; simpl; f_equal; auto|].
           split.
           ++ cbn [app lookups omap list_omap map fst is_api_exception length seq take].
              f_equal. fold (lookups t). rewrite Hl, Hshift. reflexivity.
           ++ cbn [app creations lookups omap list_omap is_api_exception zip zip_with
                     creation_after fst snd].
              fold (creations t). fold (lookups t). f_equal. exact Hc.
        -- exists 1%nat. split; [simpl; lia|]. split; [discriminate|]. split; reflexivity.
      * exists 1%nat. split; [simpl; lia|]. split; [discriminate|]. split; reflexivity.
Qed.

Lemma Service_create_roles_loop_run (self : Service) (group : string) svc :
  forall (hosts : list string) (role_id : Z) (w : W),
    let '(r, s', t) :=
      Service_create_roles_loop remote self group hosts role_id (w, Some svc) in
    s'.2 = Some svc /\
    roles_run svc.1 (name self) group (fun _ _ => None) hosts role_id r t.
Proof.
  induction hosts as [|host hosts IH]; intros role_id w.
  - simpl. split; [reflexivity|constructor].
  - cbn [Service_create_roles_loop]. cbv zeta. unfold bind at 1.
    rewrite role_step_run.
    destruct (remote (ServiceGetRole svc.1 _) w) as [[a|e] w1].
    + specialize (IH (role_id + 1) w1).
      destruct (Service_create_roles_loop remote self group hosts (role_id + 1)
                  (w1, Some svc)) as [[r s'] t].
      destruct IH as [Hs Hr]. split; [exact Hs|].
      apply (roles_next _ _ _ _ host hosts role_id r [_] t);
        [reflexivity|constructor|exact Hr].
    + destruct e as [msg|m|k0| | | |n|n|z|];
        try (split; [reflexivity|]; apply roles_failed; constructor; reflexivity).
      destruct (remote (ServiceCreateRole svc.1 _ group host) w1) as [[c|e] w2].
      * specialize (IH (role_id + 1) w2).
        destruct (Service_create_roles_loop remote self group hosts (role_id + 1)
                    (w2, Some svc)) as [[r s'] t].
        destruct IH as [Hs Hr]. split; [exact Hs|].
        apply (roles_next _ _ _ _ host hosts role_id r [_; _] t);
          [reflexivity|constructor|exact Hr].
      * split; [reflexivity|]. apply roles_failed. constructor.
Qed.

Lemma Zookeeper_create_roles_loop_run (self : Service) (group : string) svc :
  forall (hosts : list string) (role_id : Z) (w : W),
    let '(r, s', t) :=
      Zookeeper_create_roles_loop remote self group hosts role_id (w, Some svc) in
    s'.2 = Some svc /\
    roles_run svc.1 (name self) group (after_role Zookeeper svc.1) hosts role_id r t.
Proof.
  induction hosts as [|host hosts IH]; intros role_id w.
  - simpl. split; [reflexivity|constructor].
  - cbn [Zookeeper_create_roles_loop]. cbv zeta.
    rewrite (zk_step_run self group host _ _
               (fun _ => Zookeeper_create_roles_loop remote self group hosts (role_id + 1))).
    cbv zeta.
    destruct (remote (ServiceGetRole svc.1 _) w) as [[a|e] w1].
    + destruct (remote (RoleUpdateConfig svc.1 _ _) w1) as [[u|e] w3].
      * specialize (IH (role_id + 1) w3).
        destruct (Zookeeper_create_roles_loop remote self group hosts (role_id + 1)
                    (w3, Some svc)) as [[r s'] t].
        destruct IH as [Hs Hr]. split; [exact Hs|].
        apply (roles_next_after _ _ _ _ host hosts role_id _ u r [_] t);
          [reflexivity|constructor|exact Hr].
      * split; [reflexivity|].
        apply (roles_after_failed _ _ _ _ host hosts role_id _ e [_]);
          [reflexivity|constructor].
    + destruct e as [msg|m|k0| | | |n|n|z|];
        try (split; [reflexivity|]; apply roles_failed; constructor; reflexivity).
      destruct (remote (ServiceCreateRole svc.1 _ group host) w1) as [[c|e] w2].
      * destruct (remote (RoleUpdateConfig svc.1 _ _) w2) as [[u|e] w3].
        -- specialize (IH (role_id + 1) w3).
           destruct (Zookeeper_create_roles_loop remote self group hosts (role_id + 1)
                       (w3, Some svc)) as [[r s'] t].
           destruct IH as [Hs Hr]. split; [exact Hs|].
           apply (roles_next_after _ _ _ _ host hosts role_id _ u r [_; _] t);
             [reflexivity|constructor|exact Hr].
        -- split; [reflexivity|].
           apply (roles_after_failed _ _ _ _ host hosts role_id _ e [_; _]);
             [reflexivity|constructor].
      * split; [reflexivity|]. apply roles_failed. constructor.
Qed.

End ServiceProperties.



(** The same run, spelled out: three lookups in host order, and
    one creation, of the role that was missing, on the second host. *)
Example create_roles_run :
  run_scripted (fun remote => Service_create_roles remote hdfs0 datanodes "DATANODE")
    script_second_role_missing (Some (fetched_service hdfs0))
  = (Ret tt,
     [ Remote (ServiceGetRole (ClusterSvc "cluster1" "HDFS") "HDFS-DATANODE-1") (Ret RObject);
       Remote (ServiceGetRole (ClusterSvc "cluster1" "HDFS") "HDFS-DATANODE-2")
         (Raise (ApiException "not found"));
       Remote (ServiceCreateRole (ClusterSvc "cluster1" "HDFS") "HDFS-DATANODE-2"
                 "DATANODE" "host2") (Ret RObject);
       Remote (ServiceGetRole (ClusterSvc "cluster1" "HDFS") "HDFS-DATANODE-3") (Ret RObject) ]).
Proof. vm_compute. reflexivity. Qed.

(** Distinct ordinals give distinct role names: one role per host. *)
Lemma role_name_of_inj (name group : string) (i j : Z) :
  role_name_of name group i = role_name_of name group j -> i = j.
Proof.
  unfold role_name_of. intros H.
  do 4 apply String.app_inj in H.
  apply (inj pretty) in H. exact H.
Qed.

(** X5: the names [create_roles] gives to the roles of one role entry,
    numbered from 1 in host order, are pairwise distinct. *)
Lemma role_names_distinct (name group : string) (n : nat) :
  NoDup (map (fun i => role_name_of name group (Z.of_nat i)) (seq 1 n)).
Proof.
  change (NoDup ((fun i => role_name_of name group (Z.of_nat i)) <$> seq 1 n)).
  apply NoDup_fmap_2; [|apply NoDup_seq].
  intros i j H. apply role_name_of_inj in H. lia.
Qed.

Section DeployProperties.
Context {W : Type} (remote : Call -> W -> res Reply * W).

Lemma service_run (self : Service) (s : W * option (SvcRef * ApiService)) :
  let '(r, s', t) := service remote self s in
  Forall (fun c => is_role_call c = false) (calls t) /\
  (forall svc, r = Ret svc -> s'.2 = Some svc).
Proof.
  destruct s as [w [svc|]].
  - rewrite service_cached. split; [constructor|]. intros ? [= <-]. reflexivity.
  - unfold service, try_except_api, the_cluster, bind, call, get_local, set_local,
      as_service, ret, raise.
    destruct (svc_cluster self) as [c|]; simpl.
    + destruct (remote (ClusterGetService c (name self)) w) as [[a|e] w1]; simpl.
      * destruct a; simpl;
          (split; [repeat constructor|]; intros ? [=]; subst; reflexivity).
      * destruct e; simpl;
          try (split; [repeat constructor|]; intros ? [=]).
        destruct (remote (ClusterCreateService c (name self) (svc_type self)) w1)
          as [[a|e] w2]; simpl.
        -- destruct a; simpl;
             (split; [repeat constructor|]; intros ? [=]; subst; reflexivity).
        -- split; [repeat constructor|]. intros ? [=].
    + split; [constructor|]. intros ? [=].
Qed.

(** C3, as the code has it: [deploy] on a service whose role list is
    empty or absent makes no call on a role or a role-config-group; when
    the service is fetched (or created) and is not started, the
    service-level configuration is sent first, and only then is the
    missing role list reported, as an Exception, unless the update itself
    failed. *)
Theorem deploy_without_roles (self : Service) (s : W * option (SvcRef * ApiService)) :
  truthy_list (service_roles (svc_config self)) = false ->
  let '(r, s', t) := deploy remote self s in
  Forall (fun c => is_role_call c = false) (calls t) /\
  (forall svc s1 t1 rep w2,
     service remote self s = (Ret svc, s1, t1) ->
     String.eqb (serviceState svc.2) "STARTED" = false ->
     remote (ServiceUpdateConfig svc.1
               (get_config_or_empty (service_config (svc_config self)))) s1.1
       = (rep, w2) ->
     t = Enter (name self) MDeploy :: t1 ++
         [Remote (ServiceUpdateConfig svc.1
                    (get_config_or_empty (service_config (svc_config self)))) rep] /\
     r = match rep with
         | Ret _ =>
             Raise (PyException
                      ("[" +:+ name self +:+ "] Atleast one role should be specified per service"))
         | Raise e => Raise e
         end).
Proof.
  intros Hroles. unfold deploy, started.
  unfold bind at 1. unfold emit at 1.
  unfold bind at 1. unfold bind at 1.
  pose proof (service_run self s) as Hsvc.
  destruct (service remote self s) as [[r1 s1] t1].
  destruct Hsvc as [Hcalls Hcache].
  destruct r1 as [svc|e].
  - specialize (Hcache svc eq_refl). destruct s1 as [w1 l1]. simpl in Hcache. subst l1.
    unfold ret at 1.
    destruct (String.eqb (serviceState svc.2) "STARTED") eqn:Hst.
    + unfold ret. split.
      * simpl. rewrite !app_nil_r. exact Hcalls.
      * intros svc' s1' t1' rep w2 [= <- <- <-]. congruence.
    + unfold bind at 1. rewrite service_cached.
      unfold bind at 1. unfold call at 1.
      destruct (remote (ServiceUpdateConfig svc.1 _) w1) as [rep w2'] eqn:Hupd.
      rewrite Hroles.
      destruct rep as [a|e]; unfold raise; cbn -[String.app name calls];
        rewrite ?app_nil_r.
      * split.
        -- change (Forall (fun c => is_role_call c = false)
                     (calls ([Enter (name self) MDeploy] ++ t1 ++ [Remote
                        (ServiceUpdateConfig svc.1
                           (get_config_or_empty (service_config (svc_config self))))
                        (Ret a)]))).
           unfold calls. rewrite !omap_app. repeat apply Forall_app_2;
             [repeat constructor|exact Hcalls|repeat constructor].
        -- intros svc' s1' t1' rep' w2 [= <- <- <-] _ Hupd'.
           simpl in Hupd'. rewrite Hupd in Hupd'. injection Hupd' as <- <-.
           split; reflexivity.
      * split.
        -- change (Forall (fun c => is_role_call c = false)
                     (calls ([Enter (name self) MDeploy] ++ t1 ++ [Remote
                        (ServiceUpdateConfig svc.1
                           (get_config_or_empty (service_config (svc_config self))))
                        (Raise e)]))).
           unfold calls. rewrite !omap_app. repeat apply Forall_app_2;
             [repeat constructor|exact Hcalls|repeat constructor].
        -- intros svc' s1' t1' rep' w2 [= <- <- <-] _ Hupd'.
           simpl in Hupd'. rewrite Hupd in Hupd'. injection Hupd' as <- <-.
           split; reflexivity.
  - split.
    + simpl. exact Hcalls.
    + intros svc' s1' t1' rep w2 [=].
Qed.
End DeployProperties.

Lemma deploy_without_roles_witness :
  truthy_list (service_roles (svc_config hdfs_no_roles)) = false /\
  let '(r, s', t) := deploy scripted hdfs_no_roles (script_new_service, None) in
  Forall (fun c => is_role_call c = false) (calls t) /\
  (forall svc s1 t1 rep w2,
     service scripted hdfs_no_roles (script_new_service, None) = (Ret svc, s1, t1) ->
     String.eqb (serviceState svc.2) "STARTED" = false ->
     scripted (ServiceUpdateConfig svc.1
                 (get_config_or_empty (service_config (svc_config hdfs_no_roles)))) s1.1
       = (rep, w2) ->
     t = Enter (name hdfs_no_roles) MDeploy :: t1 ++
         [Remote (ServiceUpdateConfig svc.1
                    (get_config_or_empty (service_config (svc_config hdfs_no_roles)))) rep] /\
     r = match rep with
         | Ret _ =>
             Raise (PyException
                      ("[" +:+ name hdfs_no_roles +:+
                       "] Atleast one role should be specified per service"))
         | Raise e => Raise e
         end).
Proof.
  split; [reflexivity|].
  exact (deploy_without_roles scripted hdfs_no_roles (script_new_service, None) eq_refl).
Defined.

(** C3 as stated fails: by the time the missing role list is reported,
    the service has been created and its configuration updated. *)
Lemma deploy_without_roles_counterexample :
  (run_scripted (fun remote => deploy remote hdfs_no_roles) script_new_service None).1
    = Raise (PyException "[HDFS] Atleast one role should be specified per service") /\
  filter (fun c => is_mutation c = true)
    (calls (run_scripted (fun remote => deploy remote hdfs_no_roles)
              script_new_service None).2)
    = [ ClusterCreateService "cluster1" "HDFS" "HDFS";
        ServiceUpdateConfig (ClusterSvc "cluster1" "HDFS") {[ "dfs_replication" := VInt 3 ]} ].
Proof. vm_compute. split; reflexivity. Qed.

(** C1 fails on the code: a role that names a group and an empty host
    list is deployed without complaint (its role-config-group is
    configured and no role is created), and a role that names neither
    group nor hosts ends in a KeyError, not in the configuration error;
    only a role with hosts and no group is rejected. *)
Lemma deploy_role_check_misses :
  run_scripted (fun remote => deploy remote hdfs_role_without_hosts)
    script_stopped_service None
  = (Ret tt,
     [ Enter "HDFS" MDeploy;
       Remote (ClusterGetService "cluster1" "HDFS")
         (Ret (RService {| serviceState := "STOPPED" |}));
       Remote (ServiceUpdateConfig (ClusterSvc "cluster1" "HDFS") ∅) (Ret RObject);
       Remote (ServiceGetRoleConfigGroup (ClusterSvc "cluster1" "HDFS") "HDFS-DATANODE-BASE")
         (Ret RObject);
       Remote (RoleConfigGroupUpdateConfig (ClusterSvc "cluster1" "HDFS")
                 "HDFS-DATANODE-BASE" ∅) (Ret RObject) ]) /\
  (run_scripted (fun remote => deploy remote hdfs_empty_role)
     script_stopped_service None).1 = Raise (KeyError "group").
Proof. vm_compute. split; reflexivity. Qed.

(** The one case the check of [deploy] rejects: hosts without a group. *)
Lemma deploy_role_rejects (W : Type) (remote : Call -> W -> res Reply * W)
    (self : Service) (role : RoleSpec) (s : W * option (SvcRef * ApiService)) :
  truthy_str (role_group role) = false ->
  truthy_list (role_hosts role) = true ->
  deploy_role remote self role s
  = (Raise (PyException
              ("[" +:+ name self +:+ "] group and hosts should be specified per role")),
     s, []).
Proof. intros Hg Hh. unfold deploy_role. rewrite Hg, Hh. reflexivity. Qed.

(** *** ClouderaManager *)

Section ClusterProperties.
Context {W : Type} (remote : Call -> W -> res Reply * W).

Lemma gather_hosts_spec (refs : list string) :
  forall (w : W) (l : option string),
    let '(r, s', t) :=
      map_m (fun hostId => r <- call remote (ApiGetHost hostId) ;; as_host r) refs (w, l) in
    s'.2 = l /\
    added_hosts t = [] /\
    cluster_creations t = [] /\
    (forall hs, r = Ret hs -> enrolled_in t = hs).
Proof.
  induction refs as [|hostId refs IH]; intros w l.
  - simpl. repeat split. intros hs [= <-]. reflexivity.
  - cbn [map_m]. unfold bind at 1. unfold bind at 1. unfold call at 1.
    destruct (remote (ApiGetHost hostId) w) as [rr w1].
    destruct rr as [rep|e]; [|repeat split; intros hs [=]].
    destruct rep; simpl as_host; unfold raise, ret;
      try (repeat split; intros hs [=]).
    unfold bind at 1. specialize (IH w1 l).
    destruct (map_m _ refs (w1, l)) as [[r s'] t].
    destruct IH as (Hl & Ha & Hc & He).
    destruct r as [hs0|e]; simpl.
    + rewrite app_nil_r. repeat split; try assumption.
      intros hs [= <-]. unfold enrolled_in in *. simpl. f_equal. apply He. reflexivity.
    + repeat split; try assumption. intros hs [=].
Qed.

Lemma filter_not_enrolled (enrolled extra : list string) :
  Forall (fun h => h ∉ enrolled) extra ->
  filter (fun host => host ∉ enrolled) (enrolled ++ extra) = extra.
Proof.
  intros Hx. rewrite filter_app.
  assert (Hnil : forall l : list string,
             (forall h, h ∈ l -> h ∈ enrolled) ->
             filter (fun host => host ∉ enrolled) l = []).
  { induction l as [|h l IH]; intros Hl; [reflexivity|].
    rewrite filter_cons_False.
    - apply IH. intros h' Hh'. apply Hl, elem_of_cons. right. exact Hh'.
    - intros Hn. apply Hn, Hl, elem_of_cons. left. reflexivity. }
  rewrite Hnil by auto. simpl.
  induction Hx as [|h extra Hh Hx IH]; [reflexivity|].
  rewrite filter_cons_True by exact Hh. f_equal. exact IH.
Qed.

Lemma enroll_spec (cc : ClusterSpec) (w1 : W) :
  let '(r, s', t) :=
    (cluster <- get_local ;;
     c <- the_cluster cluster "list_hosts" ;;
     r <- call remote (ClusterListHosts c) ;;
     refs <- as_host_refs r ;;
     enrolled <- map_m (fun hostId => r <- call remote (ApiGetHost hostId) ;; as_host r) refs ;;
     call remote (ClusterAddHosts c
                    (filter (fun host => host ∉ enrolled) (cluster_hosts cc))) ;;;
     ret tt) (w1, Some (cluster_name cc)) in
  cluster_creations t = [] /\
  (forall x, x ∈ added_hosts t ->
     x = (cluster_name cc,
          filter (fun host => host ∉ enrolled_in t) (cluster_hosts cc))) /\
  (r = Ret tt ->
     added_hosts t
     = [(cluster_name cc,
         filter (fun host => host ∉ enrolled_in t) (cluster_hosts cc))]).
Proof.
  rewrite bind_get_local. simpl the_cluster. rewrite bind_ret_l, bind_call.
  destruct (remote (ClusterListHosts (cluster_name cc)) w1) as [[rep|e] w2];
    [|split; [reflexivity|split; [intros x Hx; inversion Hx|discriminate]]].
  destruct rep; simpl as_host_refs; rewrite ?bind_raise_l, ?bind_ret_l;
    try (split; [reflexivity|split; [intros x Hx; inversion Hx|discriminate]]).
  unfold bind at 1.
  pose proof (gather_hosts_spec hostIds w2 (Some (cluster_name cc))) as Hg.
  destruct (map_m _ hostIds (w2, Some (cluster_name cc))) as [[r [w3 l3]] th].
  destruct Hg as (Hl & Ha & Hc & He). simpl in Hl. subst l3.
  destruct r as [enrolled|e].
  - specialize (He enrolled eq_refl). rewrite bind_call.
    destruct (remote (ClusterAddHosts _ _) w3) as [[ra|e] w4].
    + cbv beta iota. unfold ret. cbv beta iota.
      unfold cluster_creations, added_hosts, enrolled_in in *.
      cbn [omap list_omap]. rewrite !omap_app. cbn [omap list_omap].
      rewrite Ha, Hc, He, !app_nil_r. cbn [app].
      split; [reflexivity|]. split; [|reflexivity].
      intros x Hx. apply list_elem_of_singleton in Hx. exact Hx.
    + unfold cluster_creations, added_hosts, enrolled_in in *.
      cbn [omap list_omap]. rewrite !omap_app. cbn [omap list_omap].
      rewrite Ha, Hc, He, !app_nil_r. cbn [app].
      split; [reflexivity|]. split; [|discriminate].
      intros x Hx. apply list_elem_of_singleton in Hx. exact Hx.
  - unfold cluster_creations, added_hosts in *. cbn [omap list_omap].
    rewrite Ha, Hc. split; [reflexivity|]. split; [|discriminate].
    intros x Hx. inversion Hx.
Qed.

Lemma create_cluster_trace (self : ClouderaManager) (s : W * option string) :
  let cc := config_cluster (cm_config self) in
  let '(r, s', t) := create_cluster remote self s in
  (exists rep rest,
     t = Remote (ApiGetCluster (cluster_name cc)) rep :: rest /\
     cluster_creations t
     = if is_api_exception rep
       then [(cluster_name cc, cluster_version cc, cluster_fullVersion cc)]
       else []) /\
  (forall x, x ∈ added_hosts t ->
     x = (cluster_name cc,
          filter (fun host => host ∉ enrolled_in t) (cluster_hosts cc))) /\
  (r = Ret tt ->
     added_hosts t
     = [(cluster_name cc,
         filter (fun host => host ∉ enrolled_in t) (cluster_hosts cc))]).
Proof.
  intros cc. destruct s as [w l]. unfold create_cluster. fold cc.
  unfold bind at 1. unfold try_except_api. rewrite bind_call.
  destruct (remote (ApiGetCluster (cluster_name cc)) w) as [[rep|e] w1].
  - unfold set_local at 1. cbv beta iota.
    pose proof (enroll_spec cc w1) as He.
    destruct ((cluster <- get_local ;; _) (w1, Some (cluster_name cc))) as [[r s'] t].
    destruct He as (Hc & Ha & Hr).
    split; [|split].
    + eexists _, _. split; [reflexivity|]. simpl. exact Hc.
    + exact Ha.
    + exact Hr.
  - destruct e;
      try (split; [eexists _, _; split; reflexivity
                  |split; [intros x Hx; inversion Hx|discriminate]]).
    rewrite bind_call.
    destruct (remote (ApiCreateCluster _ _ _) w1) as [[rep|e] w2].
    + unfold set_local at 1. cbv beta iota.
      pose proof (enroll_spec cc w2) as He.
      destruct ((cluster <- get_local ;; _) (w2, Some (cluster_name cc))) as [[r s'] t].
      destruct He as (Hc & Ha & Hr).
      split; [|split].
      * eexists _, _. split; [reflexivity|].
        transitivity ((cluster_name cc, cluster_version cc, cluster_fullVersion cc)
                        :: cluster_creations t); [reflexivity|].
        rewrite Hc. reflexivity.
      * exact Ha.
      * exact Hr.
    + split; [eexists _, _; split; reflexivity
             |split; [intros x Hx; inversion Hx|discriminate]].
Qed.

Lemma gather_hosts_run (refs : list string) :
  forall (w : W) (l : option string),
    let '(r, s', t) :=
      map_m (fun hostId => r <- call remote (ApiGetHost hostId) ;; as_host r) refs (w, l) in
    (forall hs, r = Ret hs -> length hs = length refs /\ t = gathered refs hs) /\
    (cluster_answers remote -> exists hs, r = Ret hs).
Proof.
  induction refs as [|hostId refs IH]; intros w l.
  - simpl. split; [intros hs [= <-]; split; reflexivity|intros _; eauto].
  - cbn [map_m]. rewrite bind_unfold. rewrite bind_call.
    destruct (remote (ApiGetHost hostId) w) as [rr w1] eqn:Hget.
    assert (Hshape : cluster_answers remote -> exists hostname, rr = Ret (RHost hostname)).
    { intros Ha. destruct (Ha (ApiGetHost hostId) w) as (rr' & w' & E & Hs).
      rewrite Hget in E. injection E as <- <-. exact Hs. }
    destruct rr as [rep|e];
      [|split; [intros hs [=]|intros Ha; destruct (Hshape Ha) as [h [=]]]].
    destruct rep as [| | |hostname| | | | |]; simpl as_host;
      try (split; [intros hs [=]|intros Ha; destruct (Hshape Ha) as [h [=]]]).
    unfold ret at 1. cbv beta iota. rewrite bind_unfold.
    specialize (IH w1 l).
    destruct (map_m _ refs (w1, l)) as [[[hs0|e] s'] t].
    + destruct IH as [Hrun Hret]. destruct (Hrun hs0 eq_refl) as [Hlen Ht].
      unfold ret. cbv beta iota. split; [|intros _; eauto].
      intros hs [= <-]. simpl. split; [f_equal; exact Hlen|].
      rewrite app_nil_r, Ht. reflexivity.
    + destruct IH as [_ Hret]. split; [intros hs [=]|].
      intros Ha. destruct (Hret Ha) as [hs [=]].
Qed.

Lemma enroll_run (cc : ClusterSpec) (w1 : W) :
  let '(r, s', t) :=
    (cluster <- get_local ;;
     c <- the_cluster cluster "list_hosts" ;;
     r <- call remote (ClusterListHosts c) ;;
     refs <- as_host_refs r ;;
     enrolled <- map_m (fun hostId => r <- call remote (ApiGetHost hostId) ;; as_host r) refs ;;
     call remote (ClusterAddHosts c
                    (filter (fun host => host ∉ enrolled) (cluster_hosts cc))) ;;;
     ret tt) (w1, Some (cluster_name cc)) in
  (r = Ret tt ->
   exists refs enrolled a,
     length enrolled = length refs /\
     t = Remote (ClusterListHosts (cluster_name cc)) (Ret (RHostRefs refs))
         :: gathered refs enrolled
         ++ [Remote (ClusterAddHosts (cluster_name cc)
                       (filter (fun host => host ∉ enrolled) (cluster_hosts cc)))
               (Ret a)]) /\
  (cluster_answers remote -> r = Ret tt).
Proof.
  rewrite bind_get_local. simpl the_cluster. rewrite bind_ret_l, bind_call.
  destruct (remote (ClusterListHosts (cluster_name cc)) w1) as [rl w2] eqn:Hlist.
  assert (Hshape : cluster_answers remote -> exists refs, rl = Ret (RHostRefs refs)).
  { intros Ha. destruct (Ha (ClusterListHosts (cluster_name cc)) w1) as (rr' & w' & E & Hs).
    rewrite Hlist in E. injection E as <- <-. exact Hs. }
  destruct rl as [rep|e];
    [|split; [discriminate|intros Ha; destruct (Hshape Ha) as [x [=]]]].
  destruct rep as [| |refs| | | | | |]; simpl as_host_refs;
    try (split; [discriminate|intros Ha; destruct (Hshape Ha) as [x [=]]]).
  rewrite bind_ret_l, bind_unfold.
  pose proof (gather_hosts_spec refs w2 (Some (cluster_name cc))) as Hl.
  pose proof (gather_hosts_run refs w2 (Some (cluster_name cc))) as Hg.
  destruct (map_m _ refs (w2, Some (cluster_name cc))) as [[[enrolled|e] [w3 l3]] th].
  - destruct Hl as (Hl & _). simpl in Hl. subst l3.
    destruct Hg as [Hrun _]. destruct (Hrun enrolled eq_refl) as [Hlen Ht].
    cbv beta iota. rewrite bind_call.
    destruct (remote (ClusterAddHosts (cluster_name cc) _) w3) as [ra w4] eqn:Hadd.
    assert (Hshape' : cluster_answers remote -> exists a, ra = Ret a).
    { intros Ha.
      destruct (Ha (ClusterAddHosts (cluster_name cc)
                      (filter (fun host => host ∉ enrolled) (cluster_hosts cc))) w3)
        as (rr' & w' & E & Hs).
      rewrite Hadd in E. injection E as <- <-. exact Hs. }
    destruct ra as [a|e].
    + unfold ret. cbv beta iota. split; [|reflexivity].
      intros _. exists refs, enrolled, a. split; [exact Hlen|].
      rewrite Ht. reflexivity.
    + split; [discriminate|]. intros Ha. destruct (Hshape' Ha) as [x [=]].
  - destruct Hg as [_ Hret]. split; [discriminate|].
    intros Ha. destruct (Hret Ha) as [hs [=]].
Qed.

Lemma create_cluster_returns (self : ClouderaManager) (s : W * option string) :
  let cc := config_cluster (cm_config self) in
  let '(r, s', t) := create_cluster remote self s in
  (r = Ret tt ->
   exists rep created refs enrolled a,
     ((exists x, rep = Ret x) /\ created = [] \/
      (exists msg, rep = Raise (ApiException msg)) /\
      exists x, created = [Remote (ApiCreateCluster (cluster_name cc) (cluster_version cc)
                                     (cluster_fullVersion cc)) (Ret x)]) /\
     length enrolled = length refs /\
     t = Remote (ApiGetCluster (cluster_name cc)) rep
         :: created
         ++ Remote (ClusterListHosts (cluster_name cc)) (Ret (RHostRefs refs))
         :: gathered refs enrolled
         ++ [Remote (ClusterAddHosts (cluster_name cc)
                       (filter (fun host => host ∉ enrolled) (cluster_hosts cc)))
               (Ret a)]) /\
  (cluster_answers remote -> r = Ret tt).
Proof.
  intros cc. destruct s as [w l]. unfold create_cluster. fold cc.
  rewrite bind_unfold. unfold try_except_api. rewrite bind_call.
  destruct (remote (ApiGetCluster (cluster_name cc)) w) as [rg w1] eqn:Hget.
  assert (Hshape : cluster_answers remote ->
            (exists a, rg = Ret a) \/ (exists msg, rg = Raise (ApiException msg))).
  { intros Ha. destruct (Ha (ApiGetCluster (cluster_name cc)) w) as (rr' & w' & E & Hs).
    rewrite Hget in E. injection E as <- <-. exact Hs. }
  destruct rg as [rep|e].
  - unfold set_local at 1. cbv beta iota.
    pose proof (enroll_run cc w1) as He.
    destruct ((cluster <- get_local ;; _) (w1, Some (cluster_name cc))) as [[r s'] t].
    destruct He as [Hrun Hret]. split; [|exact Hret].
    intros Hr. destruct (Hrun Hr) as (refs & enrolled & a & Hlen & ->).
    exists (Ret rep), [], refs, enrolled, a.
    split; [left; split; [eauto|reflexivity]|]. split; [exact Hlen|reflexivity].
  - destruct e as [msg|m|k| | | |n|n|z|];
      try (split; [discriminate|];
           intros Ha; destruct (Hshape Ha) as [[x [=]]|[x [=]]]).
    rewrite bind_call.
    destruct (remote (ApiCreateCluster _ _ _) w1) as [rc w2] eqn:Hcreate.
    assert (Hshape' : cluster_answers remote -> exists a, rc = Ret a).
    { intros Ha.
      destruct (Ha (ApiCreateCluster (cluster_name cc) (cluster_version cc)
                      (cluster_fullVersion cc)) w1) as (rr' & w' & E & Hs).
      rewrite Hcreate in E. injection E as <- <-. exact Hs. }
    destruct rc as [rep|e].
    + unfold set_local at 1. cbv beta iota.
      pose proof (enroll_run cc w2) as He.
      destruct ((cluster <- get_local ;; _) (w2, Some (cluster_name cc))) as [[r s'] t].
      destruct He as [Hrun Hret]. split; [|exact Hret].
      intros Hr. destruct (Hrun Hr) as (refs & enrolled & a & Hlen & ->).
      exists (Raise (ApiException msg)),
        [Remote (ApiCreateCluster (cluster_name cc) (cluster_version cc)
                   (cluster_fullVersion cc)) (Ret rep)], refs, enrolled, a.
      split; [right; split; [eauto|eexists; reflexivity]|].
      split; [exact Hlen|reflexivity].
    + split; [discriminate|]. intros Ha. destruct (Hshape' Ha) as [x [=]].
Qed.

(** C8: [create_cluster] first looks the cluster up by name and creates
    it exactly when that lookup raises ApiException; the only enrollment
    it requests is for the hosts of the description that are not among
    the host names the control plane reported as enrolled, in the order
    of the description, and it requests it whenever it returns. So no
    enrolled host is ever passed, and for a description that lists the
    enrolled hosts followed by others, the others are what is passed.
    A run that returns is exactly: the lookup of the cluster, its creation
    if the lookup raised ApiException, the listing of the hosts of the
    cluster, the resolution of each host reference listed, in order, to
    its host name, and the enrollment of the hosts of the description
    that are not among those names. And the run returns whenever the
    control plane answers these calls, whichever hosts are enrolled. *)
Theorem create_cluster_spec (self : ClouderaManager) (s : W * option string) :
  let cc := config_cluster (cm_config self) in
  let '(r, s', t) := create_cluster remote self s in
  (exists rep rest,
     t = Remote (ApiGetCluster (cluster_name cc)) rep :: rest /\
     cluster_creations t
     = if is_api_exception rep
       then [(cluster_name cc, cluster_version cc, cluster_fullVersion cc)]
       else []) /\
  (forall x, x ∈ added_hosts t ->
     x = (cluster_name cc,
          filter (fun host => host ∉ enrolled_in t) (cluster_hosts cc))) /\
  (r = Ret tt ->
     added_hosts t
     = [(cluster_name cc,
         filter (fun host => host ∉ enrolled_in t) (cluster_hosts cc))]) /\
  (forall c hs h, (c, hs) ∈ added_hosts t -> h ∈ hs ->
     h ∈ cluster_hosts cc /\ h ∉ enrolled_in t) /\
  (forall extra,
     cluster_hosts cc = enrolled_in t ++ extra ->
     Forall (fun h => h ∉ enrolled_in t) extra ->
     forall x, x ∈ added_hosts t -> x = (cluster_name cc, extra)) /\
  (r = Ret tt ->
   exists rep created refs enrolled a,
     ((exists x, rep = Ret x) /\ created = [] \/
      (exists msg, rep = Raise (ApiException msg)) /\
      exists x, created = [Remote (ApiCreateCluster (cluster_name cc) (cluster_version cc)
                                     (cluster_fullVersion cc)) (Ret x)]) /\
     length enrolled = length refs /\
     t = Remote (ApiGetCluster (cluster_name cc)) rep
         :: created
         ++ Remote (ClusterListHosts (cluster_name cc)) (Ret (RHostRefs refs))
         :: gathered refs enrolled
         ++ [Remote (ClusterAddHosts (cluster_name cc)
                       (filter (fun host => host ∉ enrolled) (cluster_hosts cc)))
               (Ret a)]) /\
  (cluster_answers remote -> r = Ret tt).
Proof.
  intros cc. pose proof (create_cluster_trace self s) as H. fold cc in H.
  pose proof (create_cluster_returns self s) as H'. fold cc in H'.
  destruct (create_cluster remote self s) as [[r s'] t].
  destruct H as (Hget & Hadd & Hret). destruct H' as [Hrun Hanswers].
  split; [exact Hget|]. split; [exact Hadd|]. split; [exact Hret|]. split; [|split].
  - intros c hs h Hx Hh. apply Hadd in Hx. injection Hx as -> ->.
    apply list_elem_of_filter in Hh. destruct Hh as [Hn Hin]. split; assumption.
  - intros extra Hhosts Hextra x Hx. rewrite (Hadd x Hx). f_equal.
    rewrite Hhosts. apply filter_not_enrolled. exact Hextra.
  - split; [exact Hrun|exact Hanswers].
Qed.
End ClusterProperties.

Section MgmtProperties.
Context {W : Type} (remote : Call -> W -> res Reply * W).

Lemma obeys_ret {St A} (P : Event -> Prop) (Q : A -> Prop) (a : A) :
  Q a -> obeys P Q (ret (W:=St) a).
Proof. intros Ha s. split; [constructor|]. intros a' [= <-]. exact Ha. Qed.

Lemma obeys_raise {St A} (P : Event -> Prop) (Q : A -> Prop) (e : exn) :
  obeys P Q (raise (W:=St) e).
Proof. intros s. split; [constructor|]. intros a [=]. Qed.

Lemma obeys_bind {St A B} (P : Event -> Prop) (R : A -> Prop) (Q : B -> Prop)
    (m : M St A) (k : A -> M St B) :
  obeys P R m -> (forall a, R a -> obeys P Q (k a)) -> obeys P Q (bind m k).
Proof.
  intros Hm Hk s. unfold bind. destruct (Hm s) as [Ht Hr].
  destruct (m s) as [[[a|e] s1] t1]; simpl in *.
  - specialize (Hk a (Hr a eq_refl) s1). destruct (k a s1) as [[r s2] t2].
    destruct Hk as [Ht2 Hr2]. simpl in *. split; [apply Forall_app; split; assumption|].
    exact Hr2.
  - split; [exact Ht|]. intros b [=].
Qed.

Lemma obeys_try {St A} (P : Event -> Prop) (Q : A -> Prop)
    (m : M St A) (h : string -> M St A) :
  obeys P Q m -> (forall msg, obeys P Q (h msg)) -> obeys P Q (try_except_api m h).
Proof.
  intros Hm Hh s. unfold try_except_api. destruct (Hm s) as [Ht Hr].
  destruct (m s) as [[[a|e] s1] t1]; simpl in *; [split; assumption|].
  destruct e; try (split; [exact Ht|intros b [=]]).
  specialize (Hh msg s1). destruct (h msg s1) as [[r s2] t2].
  destruct Hh as [Ht2 Hr2]. simpl in *. split; [apply Forall_app; split; assumption|].
  exact Hr2.
Qed.

Lemma obeys_call {L} (P : Event -> Prop) (c : Call) :
  (forall r, P (Remote c r)) -> obeys P (fun _ => True) (call (L:=L) remote c).
Proof.
  intros H [w l]. unfold call. destruct (remote c w) as [r w1]. simpl.
  split; [repeat constructor; apply H|]. intros; exact I.
Qed.

Lemma obeys_for_each_in {St A} (P : Event -> Prop) (l : list A) (body : A -> M St unit) :
  (forall x, x ∈ l -> obeys P (fun _ => True) (body x)) ->
  obeys P (fun _ => True) (for_each l body).
Proof.
  induction l as [|x l IH]; intros Hb; simpl.
  - apply obeys_ret. exact I.
  - apply (obeys_bind P (fun _ => True)).
    + apply Hb, elem_of_cons. left. reflexivity.
    + intros _ _. apply IH. intros y Hy. apply Hb, elem_of_cons. right. exact Hy.
Qed.

Lemma obeys_item {St A} (P : Event -> Prop) (key : string) (o : option A) :
  obeys P (fun a => o = Some a) (item (S:=St) key o).
Proof. destruct o; [apply obeys_ret; reflexivity|apply obeys_raise]. Qed.

Lemma obeys_weaken {St A} (P : Event -> Prop) (Q Q' : A -> Prop) (m : M St A) :
  (forall a, Q a -> Q' a) -> obeys P Q m -> obeys P Q' m.
Proof.
  intros HQ Hm s. destruct (Hm s) as [Ht Hr]. split; [exact Ht|].
  intros a Ha. apply HQ, Hr, Ha.
Qed.

Lemma obeys_fail {St A} (P : Event -> Prop) (Q : A -> Prop) (module : bool) (msg : Msg) :
  P (FailJson msg) -> P (LogError msg) -> obeys P Q (fail (W:=St) module msg).
Proof.
  intros H1 H2 s. unfold fail, bind, emit, raise.
  destruct module; simpl; (split; [repeat constructor; assumption|intros a [=]]).
Qed.

Lemma mgmt_roles_obeys {St} (P : Event -> Prop) (g : ConfigDoc) (mgmt : ServiceConfig)
    (roles : list RoleSpec) :
  config_services g !! "MGMT" = Some mgmt ->
  service_roles mgmt = Some roles ->
  obeys P (fun l => l = roles) (mgmt_roles (S:=St) (Some g)).
Proof.
  intros Hm Hr. unfold mgmt_roles. rewrite Hm. simpl item.
  intros s. rewrite bind_ret_l. rewrite Hr. simpl. split; [constructor|].
  intros a [= <-]. reflexivity.
Qed.

Lemma deploy_mgmt_services_from_global (g : ConfigDoc) (mgmt : ServiceConfig)
    (roles : list RoleSpec) (self : ClouderaManager) :
  config_services g !! "MGMT" = Some mgmt ->
  service_roles mgmt = Some roles ->
  obeys (from_mgmt_roles roles) (fun _ => True)
    (deploy_mgmt_services remote (Some g) self).
Proof.
  intros Hm Hr. unfold deploy_mgmt_services.
  apply (obeys_bind _ (fun _ => True)).
  { apply obeys_try.
    - apply (obeys_bind _ (fun _ => True)); [apply obeys_call; intros; exact I|].
      intros r _. apply (obeys_bind _ (fun _ => True)).
      + unfold as_service. destruct r; first [apply obeys_ret; exact I|apply obeys_raise].
      + intros; apply obeys_ret; exact I.
    - intros msg. apply (obeys_bind _ (fun _ => True)); [apply obeys_call; intros; exact I|].
      intros; apply obeys_ret; exact I. }
  intros go_on _. destruct (negb go_on); [apply obeys_ret; exact I|].
  apply (obeys_bind _ _ _ _ _ (mgmt_roles_obeys _ g mgmt roles Hm Hr)).
  intros ? ->.
  apply (obeys_bind _ (fun _ => True)).
  { apply obeys_for_each_in. intros role Hin.
    apply (obeys_bind _ _ _ _ _ (obeys_item _ "group" (role_group role))).
    intros group Hg.
    apply (obeys_bind _ (fun _ => True)); [apply obeys_call; intros; exact I|].
    intros r _. apply (obeys_bind _ (fun _ => True)).
    { unfold as_roles. destruct r; first [apply obeys_ret; exact I|apply obeys_raise]. }
    intros existing _. destruct (negb _); [|apply obeys_ret; exact I].
    apply (obeys_bind _ _ _ _ _ (obeys_item _ "hosts" (role_hosts role))).
    intros hosts Hh. destruct hosts as [|host hosts]; [apply obeys_raise|].
    apply (obeys_bind _ (fun _ => True)); [|intros; apply obeys_ret; exact I].
    apply obeys_call. intros rr. simpl. split; [reflexivity|].
    exists role. split; [exact Hin|]. unfold mgmt_role_of. rewrite Hg, Hh. reflexivity. }
  intros _ _.
  apply (obeys_bind _ _ _ _ _ (mgmt_roles_obeys _ g mgmt roles Hm Hr)).
  intros ? ->.
  apply (obeys_bind _ (fun _ => True)).
  { apply obeys_for_each_in. intros role Hin.
    apply (obeys_bind _ _ _ _ _ (obeys_item _ "group" (role_group role))).
    intros group Hg.
    apply (obeys_bind _ (fun _ => True)); [apply obeys_call; intros; exact I|].
    intros _ _.
    apply (obeys_bind _ (fun _ => True)); [|intros; apply obeys_ret; exact I].
    apply obeys_call. intros rr. simpl. split; [reflexivity|].
    exists role, group. repeat split; assumption. }
  intros _ _.
  apply (obeys_bind _ (fun _ => True)); [apply obeys_call; intros; exact I|].
  intros _ _.
  apply (obeys_bind _ (fun _ => True)); [apply obeys_call; intros; exact I|].
  intros _ _.
  apply (obeys_bind _ (fun _ => True)); [apply obeys_call; intros; exact I|].
  intros r _. apply (obeys_bind _ (fun _ => True)).
  { unfold as_service. destruct r; first [apply obeys_ret; exact I|apply obeys_raise]. }
  intros mgmt' _. destruct (String.eqb _ _); [apply obeys_ret; exact I|].
  apply obeys_fail; exact I.
Qed.
End MgmtProperties.

(** C9: for one module-level [config], [deploy_mgmt_services] behaves
    the same on any two ClouderaManager instances that differ in their
    own description: same outcome, same final state, same calls in the
    same order. The management roles it creates and the role-config-groups
    it configures are those of the MGMT entry of the module-level
    [config]. *)
Theorem deploy_mgmt_services_reads_global {W : Type}
    (remote : Call -> W -> res Reply * W) (config : option ConfigDoc)
    (module : bool) (own1 own2 : ConfigDoc) (s : W * option string) :
  deploy_mgmt_services remote config {| cm_config := own1; cm_module := module |} s
  = deploy_mgmt_services remote config {| cm_config := own2; cm_module := module |} s
  /\
  (forall g mgmt roles,
     config = Some g ->
     config_services g !! "MGMT" = Some mgmt ->
     service_roles mgmt = Some roles ->
     Forall (from_mgmt_roles roles)
       (deploy_mgmt_services remote config
          {| cm_config := own1; cm_module := module |} s).2).
Proof.
  split; [reflexivity|].
  intros g mgmt roles -> Hm Hr.
  apply (deploy_mgmt_services_from_global remote g mgmt roles _ Hm Hr s).
Qed.

(** *** Call order *)

Section OrderLemmas.
Context {W : Type} (remote : Call -> W -> res Reply * W).

Lemma phases_app (t1 t2 : list Event) : phases (t1 ++ t2) = phases t1 ++ phases t2.
Proof. unfold phases. apply omap_app. Qed.

Lemma quiet_ret {St A} (a : A) : quiet (ret (W:=St) a).
Proof. intros s. reflexivity. Qed.

Lemma quiet_raise {St A} (e : exn) : quiet (raise (W:=St) (A:=A) e).
Proof. intros s. reflexivity. Qed.

Lemma quiet_emit {St} (e : Event) : phase_of e = None -> quiet (emit (W:=St) e).
Proof. intros H s. unfold phases. simpl. rewrite H. reflexivity. Qed.

Lemma quiet_bind {St A B} (m : M St A) (k : A -> M St B) :
  quiet m -> (forall a, quiet (k a)) -> quiet (bind m k).
Proof.
  intros Hm Hk s. unfold bind. specialize (Hm s).
  destruct (m s) as [[[a|e] s1] t1]; simpl in *; [|exact Hm].
  specialize (Hk a s1). destruct (k a s1) as [[r s2] t2]. simpl in *.
  rewrite phases_app, Hm, Hk. reflexivity.
Qed.

Lemma quiet_try {St A} (m : M St A) (h : string -> M St A) :
  quiet m -> (forall msg, quiet (h msg)) -> quiet (try_except_api m h).
Proof.
  intros Hm Hh s. unfold try_except_api. specialize (Hm s).
  destruct (m s) as [[[a|e] s1] t1]; simpl in *; [exact Hm|].
  destruct e; try exact Hm.
  specialize (Hh msg s1). destruct (h msg s1) as [[r s2] t2]. simpl in *.
  rewrite phases_app, Hm, Hh. reflexivity.
Qed.

Lemma quiet_for_each {St A} (l : list A) (body : A -> M St unit) :
  (forall x, quiet (body x)) -> quiet (for_each l body).
Proof.
  intros Hb. induction l as [|x l IH]; [apply quiet_ret|].
  simpl. apply quiet_bind; [apply Hb|intros _; exact IH].
Qed.

Lemma quiet_map_m {St A B} (f : A -> M St B) (l : list A) :
  (forall x, quiet (f x)) -> quiet (map_m f l).
Proof.
  intros Hf. induction l as [|x l IH]; [apply quiet_ret|].
  simpl. apply quiet_bind; [apply Hf|intros y].
  apply quiet_bind; [exact IH|intros ys; apply quiet_ret].
Qed.

Lemma quiet_call {L} (c : Call) :
  (forall r, phase_of (Remote c r) = None) -> quiet (call (L:=L) remote c).
Proof.
  intros H [w l]. unfold call. destruct (remote c w) as [r w1].
  unfold phases. cbn [snd omap list_omap]. rewrite H. reflexivity.
Qed.

Lemma quiet_get_local {L} : quiet (get_local (W:=W) (L:=L)).
Proof. intros [w l]. reflexivity. Qed.

Lemma quiet_set_local {L} (l' : L) : quiet (set_local (W:=W) l').
Proof. intros [w l]. reflexivity. Qed.

Lemma quiet_zoom {L L' A} (l' : L') (m : M (W * L') A) :
  quiet m -> quiet (zoom (L:=L) l' m).
Proof.
  intros Hm [w l]. unfold zoom. specialize (Hm (w, l')).
  destruct (m (w, l')) as [[[a|e] [w1 l1]] t]; exact Hm.
Qed.

Lemma quiet_sleep {St} (d : Z) : quiet (sleep (W:=St) d).
Proof.
  unfold sleep. destruct (d <? 0); [apply quiet_raise|apply quiet_emit; reflexivity].
Qed.

Lemma quiet_fail {St A} (module : bool) (msg : Msg) : quiet (fail (W:=St) (A:=A) module msg).
Proof.
  unfold fail. apply quiet_bind; [|intros _; apply quiet_raise].
  destruct module; apply quiet_emit; reflexivity.
Qed.

Lemma quiet_retry_while {St A} (attempts delay : Z) (func : M St A) :
  quiet func ->
  forall fuel attempt_counter, quiet (retry_while attempts delay func fuel attempt_counter).
Proof.
  intros Hf. induction fuel as [|fuel IH]; intros c; simpl;
    destruct (c <=? attempts); try apply quiet_ret; try apply quiet_raise.
  apply quiet_try.
  - apply quiet_bind; [exact Hf|intros a; apply quiet_ret].
  - intros msg. destruct (c =? attempts); [apply quiet_raise|].
    apply quiet_bind; [apply quiet_sleep|intros _; apply IH].
Qed.

Lemma quiet_retry {St A} (attempts delay : Z) (func : M St A) :
  quiet func -> quiet (retry attempts delay func).
Proof. intros Hf. apply quiet_retry_while. exact Hf. Qed.

Lemma quiet_item {St A} (key : string) (o : option A) : quiet (item (S:=St) key o).
Proof. destruct o; [apply quiet_ret|apply quiet_raise]. Qed.

Lemma quiet_the_cluster {St} (c : option string) (m : string) :
  quiet (the_cluster (S:=St) c m).
Proof. destruct c; [apply quiet_ret|apply quiet_raise]. Qed.

Lemma quiet_as_parcel {St} (r : Reply) : quiet (as_parcel (S:=St) r).
Proof. destruct r; first [apply quiet_ret|apply quiet_raise]. Qed.
Lemma quiet_as_service {St} (r : Reply) : quiet (as_service (S:=St) r).
Proof. destruct r; first [apply quiet_ret|apply quiet_raise]. Qed.
Lemma quiet_as_host_refs {St} (r : Reply) : quiet (as_host_refs (S:=St) r).
Proof. destruct r; first [apply quiet_ret|apply quiet_raise]. Qed.
Lemma quiet_as_host {St} (r : Reply) : quiet (as_host (S:=St) r).
Proof. destruct r; first [apply quiet_ret|apply quiet_raise]. Qed.
Lemma quiet_as_config {St} (r : Reply) : quiet (as_config (S:=St) r).
Proof. destruct r; first [apply quiet_ret|apply quiet_raise]. Qed.
Lemma quiet_as_roles {St} (r : Reply) : quiet (as_roles (S:=St) r).
Proof. destruct r; first [apply quiet_ret|apply quiet_raise]. Qed.
Lemma quiet_as_command {St} (r : Reply) : quiet (as_command (S:=St) r).
Proof. destruct r; first [apply quiet_ret|apply quiet_raise]. Qed.
Lemma quiet_as_commands {St} (r : Reply) : quiet (as_commands (S:=St) r).
Proof. destruct r; first [apply quiet_ret|apply quiet_raise]. Qed.
End OrderLemmas.

Create HintDb quiet discriminated.

#[local] Hint Extern 0 (quiet (as_parcel _)) => apply quiet_as_parcel : quiet.
#[local] Hint Extern 0 (quiet (as_service _)) => apply quiet_as_service : quiet.
#[local] Hint Extern 0 (quiet (as_host_refs _)) => apply quiet_as_host_refs : quiet.
#[local] Hint Extern 0 (quiet (as_host _)) => apply quiet_as_host : quiet.
#[local] Hint Extern 0 (quiet (as_config _)) => apply quiet_as_config : quiet.
#[local] Hint Extern 0 (quiet (as_roles _)) => apply quiet_as_roles : quiet.
#[local] Hint Extern 0 (quiet (as_command _)) => apply quiet_as_command : quiet.
#[local] Hint Extern 0 (quiet (as_commands _)) => apply quiet_as_commands : quiet.
#[local] Hint Extern 0 (quiet get_local) => apply quiet_get_local : quiet.
#[local] Hint Extern 0 (quiet (set_local _)) => apply quiet_set_local : quiet.
#[local] Hint Extern 0 (quiet (item _ _)) => apply quiet_item : quiet.
#[local] Hint Extern 0 (quiet (the_cluster _ _)) => apply quiet_the_cluster : quiet.
#[local] Hint Extern 0 (quiet (sleep _)) => apply quiet_sleep : quiet.
#[local] Hint Extern 0 (quiet (fail _ _)) => apply quiet_fail : quiet.

(** One syntactic step through a computation. *)
Ltac quiet_step :=
  cbv beta;
  lazymatch goal with
  | |- quiet (ret _) => apply quiet_ret
  | |- quiet (raise _) => apply quiet_raise
  | |- quiet (emit _) => apply quiet_emit; reflexivity
  | |- quiet (call _ _) => apply quiet_call; intros; reflexivity
  | |- quiet (bind _ _) => apply quiet_bind; [|intros ?]
  | |- quiet (try_except_api _ _) => apply quiet_try; [|intros ?]
  | |- quiet (for_each _ _) => apply quiet_for_each; intros ?
  | |- quiet (map_m _ _) => apply quiet_map_m; intros ?
  | |- quiet (retry _ _ _) => apply quiet_retry
  | |- quiet (zoom _ _) => apply quiet_zoom
  | |- quiet (match ?x with _ => _ end) => destruct x
  | |- quiet _ => solve [auto with quiet nocore]
  end.

Ltac quiet_tac := repeat quiet_step.

Lemma quiet_parcel {W L} (remote : Call -> W -> res Reply * W) (self : Parcels) :
  quiet (parcel (L:=L) remote self).
Proof. unfold parcel. quiet_tac. Qed.
#[local] Hint Extern 0 (quiet (parcel _ _)) => apply quiet_parcel : quiet.

Lemma quiet_check_error {W L} (self : Parcels) (p : ApiParcel) :
  quiet (check_error (W:=W) (L:=L) self p).
Proof. unfold check_error. quiet_tac. Qed.
#[local] Hint Extern 0 (quiet (check_error _ _)) => apply quiet_check_error : quiet.

Lemma quiet_validate {W L} (remote : Call -> W -> res Reply * W) (self : Parcels) :
  quiet (validate (L:=L) remote self).
Proof. unfold validate, wait_parcel. quiet_tac. Qed.
#[local] Hint Extern 0 (quiet (validate _ _)) => apply quiet_validate : quiet.

Lemma quiet_check_state {W L} (remote : Call -> W -> res Reply * W) (self : Parcels)
    (states : list string) :
  quiet (check_state (L:=L) remote self states).
Proof. unfold check_state, check_state_body. quiet_tac. Qed.
#[local] Hint Extern 0 (quiet (check_state _ _ _)) => apply quiet_check_state : quiet.

Lemma quiet_download {W L} (remote : Call -> W -> res Reply * W) (self : Parcels) :
  quiet (download (L:=L) remote self).
Proof. unfold download. quiet_tac. Qed.
#[local] Hint Extern 0 (quiet (download _ _)) => apply quiet_download : quiet.

Lemma quiet_distribute {W L} (remote : Call -> W -> res Reply * W) (self : Parcels) :
  quiet (distribute (L:=L) remote self).
Proof. unfold distribute. quiet_tac. Qed.
#[local] Hint Extern 0 (quiet (distribute _ _)) => apply quiet_distribute : quiet.

Lemma quiet_activate {W L} (remote : Call -> W -> res Reply * W) (self : Parcels) :
  quiet (activate (L:=L) remote self).
Proof. unfold activate. quiet_tac. Qed.
#[local] Hint Extern 0 (quiet (activate _ _)) => apply quiet_activate : quiet.

Lemma quiet_new_parcels {W L} (remote : Call -> W -> res Reply * W) (module : bool)
    (cluster version : string) (repo : option string) :
  quiet (new_parcels (L:=L) remote module cluster version repo).
Proof. unfold new_parcels. quiet_tac. Qed.
#[local] Hint Extern 0 (quiet (new_parcels _ _ _ _ _)) => apply quiet_new_parcels : quiet.

Lemma quiet_service {W} (remote : Call -> W -> res Reply * W) (self : Service) :
  quiet (service remote self).
Proof. unfold service. quiet_tac. Qed.
#[local] Hint Extern 0 (quiet (service _ _)) => apply quiet_service : quiet.

Lemma quiet_started {W} (remote : Call -> W -> res Reply * W) (self : Service) :
  quiet (started remote self).
Proof. unfold started. quiet_tac. Qed.
#[local] Hint Extern 0 (quiet (started _ _)) => apply quiet_started : quiet.

Lemma quiet_Service_create_roles_loop {W} (remote : Call -> W -> res Reply * W)
    (self : Service) (group : string) (hosts : list string) :
  forall role_id, quiet (Service_create_roles_loop remote self group hosts role_id).
Proof.
  induction hosts as [|host hosts IH]; intros role_id; simpl; quiet_tac.
Qed.
#[local] Hint Extern 0 (quiet (Service_create_roles_loop _ _ _ _ _)) => apply quiet_Service_create_roles_loop : quiet.

Lemma quiet_Zookeeper_create_roles_loop {W} (remote : Call -> W -> res Reply * W)
    (self : Service) (group : string) (hosts : list string) :
  forall role_id, quiet (Zookeeper_create_roles_loop remote self group hosts role_id).
Proof.
  induction hosts as [|host hosts IH]; intros role_id; simpl; quiet_tac.
Qed.
#[local] Hint Extern 0 (quiet (Zookeeper_create_roles_loop _ _ _ _ _)) => apply quiet_Zookeeper_create_roles_loop : quiet.

Lemma quiet_create_roles {W} (remote : Call -> W -> res Reply * W) (self : Service)
    (role : RoleSpec) (group : string) :
  quiet (create_roles remote self role group).
Proof.
  unfold create_roles, Zookeeper_create_roles, Service_create_roles.
  destruct (svc_kind self); quiet_tac.
Qed.
#[local] Hint Extern 0 (quiet (create_roles _ _ _ _)) => apply quiet_create_roles : quiet.

Lemma quiet_deploy_role {W} (remote : Call -> W -> res Reply * W) (self : Service)
    (role : RoleSpec) :
  quiet (deploy_role remote self role).
Proof. unfold deploy_role. quiet_tac. Qed.
#[local] Hint Extern 0 (quiet (deploy_role _ _ _)) => apply quiet_deploy_role : quiet.

Lemma quiet_run_command {W} (remote : Call -> W -> res Reply * W) (self : Service)
    (method : string) (args : list string) (timeout : Z) :
  quiet (run_command remote self method args timeout).
Proof. unfold run_command. quiet_tac. Qed.
#[local] Hint Extern 0 (quiet (run_command _ _ _ _ _)) => apply quiet_run_command : quiet.

Lemma quiet_wait_commands {W} (remote : Call -> W -> res Reply * W) (svc : SvcRef)
    (method : string) (args : list string) (cmds : list ApiCommand) (timeout : Z) :
  forall index,
    quiet (wait_commands remote (ServiceCommand svc method args) cmds index timeout).
Proof.
  induction cmds as [|c cmds IH]; intros index; simpl; quiet_tac.
Qed.
#[local] Hint Extern 0 (quiet (wait_commands _ _ _ _ _)) => apply quiet_wait_commands : quiet.

Lemma quiet_pre_start_body {W} (remote : Call -> W -> res Reply * W) (self : Service) :
  quiet (pre_start_body remote self).
Proof. unfold pre_start_body. destruct (svc_kind self); quiet_tac. Qed.
#[local] Hint Extern 0 (quiet (pre_start_body _ _)) => apply quiet_pre_start_body : quiet.

Lemma quiet_post_start_body {W} (remote : Call -> W -> res Reply * W) (self : Service) :
  quiet (post_start_body remote self).
Proof. unfold post_start_body. destruct (svc_kind self); quiet_tac. Qed.
#[local] Hint Extern 0 (quiet (post_start_body _ _)) => apply quiet_post_start_body : quiet.

Lemma quiet_create_cluster {W} (remote : Call -> W -> res Reply * W)
    (self : ClouderaManager) :
  quiet (create_cluster remote self).
Proof. unfold create_cluster. quiet_tac. Qed.
#[local] Hint Extern 0 (quiet (create_cluster _ _)) => apply quiet_create_cluster : quiet.

Lemma quiet_wait_inspect_hosts {W} (remote : Call -> W -> res Reply * W)
    (self : ClouderaManager) (cmd : Call) :
  quiet (wait_inspect_hosts remote self cmd).
Proof. unfold wait_inspect_hosts, wait_inspect_hosts_body. quiet_tac. Qed.
#[local] Hint Extern 0 (quiet (wait_inspect_hosts _ _ _)) => apply quiet_wait_inspect_hosts : quiet.

Lemma quiet_deploy_mgmt_services {W} (remote : Call -> W -> res Reply * W)
    (config : option ConfigDoc) (self : ClouderaManager) :
  quiet (deploy_mgmt_services remote config self).
Proof. unfold deploy_mgmt_services, mgmt_roles. quiet_tac. Qed.
#[local] Hint Extern 0 (quiet (deploy_mgmt_services _ _ _)) => apply quiet_deploy_mgmt_services : quiet.

Section OrderedLemmas.
Context {W : Type} (remote : Call -> W -> res Reply * W).

Lemma ordered_quiet {St A} (m : M St A) : quiet m -> ordered [] (fun _ => True) m.
Proof.
  intros Hm s. rewrite (Hm s). split; [reflexivity|]. intros a _. split; [reflexivity|exact I].
Qed.

Lemma ordered_raise {St A} (E : list Phase) (Q : A -> Prop) (e : exn) :
  ordered E Q (raise (W:=St) e).
Proof. intros s. split; [apply prefix_nil|]. intros a [=]. Qed.

Lemma ordered_ret {St A} (Q : A -> Prop) (a : A) : Q a -> ordered [] Q (ret (W:=St) a).
Proof. intros Ha s. split; [reflexivity|]. intros a' [= <-]. split; [reflexivity|exact Ha]. Qed.

Lemma ordered_bind {St A B} (E1 E2 : list Phase) (R : A -> Prop) (Q : B -> Prop)
    (m : M St A) (k : A -> M St B) :
  ordered E1 R m ->
  (forall a, R a -> ordered E2 Q (k a)) ->
  ordered (E1 ++ E2) Q (bind m k).
Proof.
  intros Hm Hk s. unfold bind. specialize (Hm s).
  destruct (m s) as [[[a|e] s1] t1]; simpl in *.
  - destruct Hm as [_ Hm]. destruct (Hm a eq_refl) as [Ht1 Ha].
    specialize (Hk a Ha s1). destruct (k a s1) as [[r s2] t2]. simpl in *.
    rewrite phases_app, Ht1. destruct Hk as [Hp Hr]. split.
    + apply prefix_app. exact Hp.
    + intros b Hb. destruct (Hr b Hb) as [-> Hq]. split; [reflexivity|exact Hq].
  - destruct Hm as [Hp _]. split; [apply prefix_app_r; exact Hp|]. intros b [=].
Qed.

Lemma ordered_quiet_bind {St A B} (E : list Phase) (Q : B -> Prop)
    (m : M St A) (k : A -> M St B) :
  quiet m -> (forall a, ordered E Q (k a)) -> ordered E Q (bind m k).
Proof.
  intros Hm Hk. apply (ordered_bind [] E (fun _ => True)); [apply ordered_quiet; exact Hm|].
  intros a _. apply Hk.
Qed.

Lemma ordered_bind_quiet {St A B} (E : list Phase) (R : A -> Prop)
    (m : M St A) (k : A -> M St B) :
  ordered E R m -> (forall a, quiet (k a)) -> ordered E (fun _ => True) (bind m k).
Proof.
  intros Hm Hk. rewrite <- (app_nil_r E).
  apply (ordered_bind E [] R); [exact Hm|]. intros a _. apply ordered_quiet, Hk.
Qed.

Lemma ordered_weaken {St A} (E : list Phase) (Q Q' : A -> Prop) (m : M St A) :
  (forall a, Q a -> Q' a) -> ordered E Q m -> ordered E Q' m.
Proof.
  intros HQ Hm s. destruct (Hm s) as [Hp Hr]. split; [exact Hp|].
  intros a Ha. destruct (Hr a Ha) as [Ht Hq]. split; [exact Ht|apply HQ, Hq].
Qed.

Lemma ordered_emit {St} (e : Event) (p : Phase) :
  phase_of e = Some p -> ordered [p] (fun _ => True) (emit (W:=St) e).
Proof.
  intros H s. unfold phases. simpl. rewrite H.
  split; [reflexivity|]. intros a _. split; [reflexivity|exact I].
Qed.

Lemma ordered_call {L} (c : Call) (p : Phase) :
  (forall r, phase_of (Remote c r) = Some p) ->
  ordered [p] (fun _ => True) (call (L:=L) remote c).
Proof.
  intros H [w l]. unfold call. destruct (remote c w) as [r w1].
  unfold phases. cbn [fst snd omap list_omap]. rewrite H.
  split; [reflexivity|]. intros a _. split; [reflexivity|exact I].
Qed.

Lemma ordered_zoom {L L' A} (E : list Phase) (l' : L') (m : M (W * L') A) :
  ordered E (fun _ => True) m -> ordered E (fun _ => True) (zoom (L:=L) l' m).
Proof.
  intros Hm [w l]. unfold zoom. specialize (Hm (w, l')).
  destruct (m (w, l')) as [[[a|e] [w1 l1]] t]; simpl in *.
  - destruct Hm as [Hp Hr]. split; [exact Hp|]. intros a' _.
    destruct (Hr a eq_refl) as [Ht _]. split; [exact Ht|exact I].
  - destruct Hm as [Hp _]. split; [exact Hp|]. intros a' [=].
Qed.

Lemma ordered_for_each {St A} (E : A -> list Phase) (l : list A) (body : A -> M St unit) :
  (forall x, ordered (E x) (fun _ => True) (body x)) ->
  ordered (flat_map E l) (fun _ => True) (for_each l body).
Proof.
  intros Hb. induction l as [|x l IH]; simpl.
  - apply ordered_ret. exact I.
  - apply (ordered_bind (E x) (flat_map E l) (fun _ => True)); [apply Hb|].
    intros _ _. exact IH.
Qed.

Lemma deploy_ordered (self : Service) :
  ordered [PDeploy (name self)] (fun _ => True) (deploy remote self).
Proof.
  unfold deploy.
  apply (ordered_bind [PDeploy (name self)] [] (fun _ => True));
    [apply ordered_emit; reflexivity|].
  intros _ _. apply ordered_quiet. quiet_tac.
Qed.

Lemma pre_start_ordered (self : Service) :
  ordered [PPreStart (name self)] (fun _ => True) (pre_start remote self).
Proof.
  unfold pre_start.
  apply (ordered_bind [PPreStart (name self)] [] (fun _ => True));
    [apply ordered_emit; reflexivity|].
  intros _ _. apply ordered_quiet. quiet_tac.
Qed.

Lemma post_start_ordered (self : Service) :
  ordered [PPostStart (name self)] (fun _ => True) (post_start remote self).
Proof.
  unfold post_start.
  apply (ordered_bind [PPostStart (name self)] [] (fun _ => True));
    [apply ordered_emit; reflexivity|].
  intros _ _. apply ordered_quiet. quiet_tac.
Qed.

Lemma service_class_name (service : string) (k : Kind) :
  service_class service = Some k -> class_name k = service.
Proof.
  unfold service_class. intros H. apply find_some in H. destruct H as [_ H].
  apply String.eqb_eq. exact H.
Qed.
End OrderedLemmas.

Section OrchestrationOrder.
Context {W : Type} (remote : Call -> W -> res Reply * W).

Lemma flat_map_singleton {A B} (g : A -> B) (l : list A) :
  flat_map (fun x => [g x]) l = map g l.
Proof. induction l as [|x l IH]; simpl; [reflexivity|rewrite IH; reflexivity]. Qed.

Lemma configured_cons (self : ClouderaManager) (service : string) (services : list string) :
  configured self (service :: services)
  = if truthy_service_config (config_services (cm_config self) !! upper service)
    then service :: configured self services
    else configured self services.
Proof.
  unfold configured.
  destruct (truthy_service_config _) eqn:Ht.
  - rewrite filter_cons_True by exact Ht. reflexivity.
  - rewrite filter_cons_False by (rewrite Ht; discriminate). reflexivity.
Qed.

Lemma orchestrate_deploy_ordered (self : ClouderaManager) (services : list string) :
  forall service_classes,
    ordered
      (flat_map (fun service => [PDeploy (upper service); PPreStart (upper service)])
         (configured self services))
      (fun classes =>
         map (fun c => name c.1) classes
         = map (fun c => name c.1) service_classes ++ map upper (configured self services))
      (orchestrate_deploy remote self services service_classes).
Proof.
  induction services as [|service services IH]; intros classes0.
  - simpl. apply ordered_ret. rewrite app_nil_r. reflexivity.
  - cbn [orchestrate_deploy]. rewrite configured_cons.
    destruct (truthy_service_config _) eqn:Ht; [|apply IH].
    cbn [flat_map map].
    apply ordered_quiet_bind; [quiet_tac|intros conf].
    apply (ordered_bind [] _ (fun k => class_name k = service)).
    { destruct (service_class service) as [k|] eqn:Hk;
        [apply ordered_ret, service_class_name; exact Hk|apply ordered_raise]. }
    intros kind Hkind.
    apply ordered_quiet_bind; [quiet_tac|intros cluster]. cbv zeta.
    apply (ordered_bind [PDeploy (upper service); PPreStart (upper service)] _
             (fun _ => True)).
    + apply ordered_zoom. rewrite <- Hkind.
      apply (ordered_bind [PDeploy (name (new_service kind cluster conf None))]
               [PPreStart (name (new_service kind cluster conf None))] (fun _ => True));
        [apply deploy_ordered|intros _ _; apply pre_start_ordered].
    + intros done _. eapply ordered_weaken; [|apply IH].
      intros classes Hc. cbv beta in Hc. rewrite Hc, List.map_app, <- app_assoc.
      f_equal. simpl. unfold name at 1. simpl. rewrite Hkind. reflexivity.
Qed.

Lemma service_orchestrate_ordered (self : ClouderaManager) (services : list string)
    (stop : bool) :
  ordered (expected_phases self services stop) (fun _ => True)
    (service_orchestrate remote self services stop).
Proof.
  unfold service_orchestrate, expected_phases.
  apply (ordered_bind _ _ _ _ _ _ (orchestrate_deploy_ordered self services [])).
  intros classes Hc. simpl in Hc.
  apply ordered_quiet_bind; [quiet_tac|intros cluster].
  apply (ordered_bind (if stop then [PStop; PStopWaited] else []) _ (fun _ => True)).
  - destruct stop; [|apply ordered_ret; exact I].
    apply ordered_quiet_bind; [quiet_tac|intros c].
    apply (ordered_bind [PStop] [PStopWaited] (fun _ => True));
      [apply ordered_call; reflexivity|intros _ _].
    apply (ordered_bind [PStopWaited] [] (fun _ => True));
      [apply ordered_call; reflexivity|intros _ _].
    apply ordered_ret. exact I.
  - intros _ _.
    apply ordered_quiet_bind; [quiet_tac|intros c].
    apply (ordered_bind [PStart] _ (fun _ => True));
      [apply ordered_call; reflexivity|intros _ _].
    apply (ordered_bind [PStartWaited] _ (fun _ => True));
      [apply ordered_call; reflexivity|intros _ _].
    replace (map (fun service => PPostStart (upper service)) (configured self services))
      with (flat_map (fun svc : Service * option (SvcRef * ApiService) =>
                        [PPostStart (name svc.1)]) classes).
    + apply ordered_for_each. intros svc.
      apply ordered_bind_quiet with (R := fun _ => True); [|intros; quiet_tac].
      apply ordered_zoom, post_start_ordered.
    + rewrite flat_map_singleton.
      rewrite <- (map_map (fun c : Service * option (SvcRef * ApiService) => name c.1)
                    PPostStart), Hc, map_map.
      reflexivity.
Qed.

Lemma setup_ordered (config : option ConfigDoc) (self : ClouderaManager) :
  ordered (expected_phases self BASE_SERVICES true
           ++ expected_phases self ADDITIONAL_SERVICES false) (fun _ => True)
    (setup remote config self).
Proof.
  unfold setup.
  do 10 (apply ordered_quiet_bind; [solve [quiet_tac]|intros ?]).
  apply (ordered_bind _ _ _ _ _ _ (service_orchestrate_ordered self BASE_SERVICES true)).
  intros _ _.
  apply ordered_bind_quiet with (R := fun _ => True);
    [apply service_orchestrate_ordered|intros; quiet_tac].
Qed.

End OrchestrationOrder.

(** *** Concrete runs *)

(** With host1 and host2 enrolled and a description listing host1 to
    host4, the cluster is not created again and exactly host3 and host4
    are added. *)
Example create_cluster_run :
  (run_scripted (fun remote => create_cluster remote manager0) script_two_enrolled None).1
    = Ret tt /\
  cluster_creations
    (run_scripted (fun remote => create_cluster remote manager0) script_two_enrolled None).2
    = [] /\
  added_hosts
    (run_scripted (fun remote => create_cluster remote manager0) script_two_enrolled None).2
    = [("cluster1", ["host3"; "host4"])].
Proof. vm_compute. repeat split. Qed.

(** The base services of a description without Hdfs: Zookeeper and Yarn
    are deployed and pre-started, the cluster is stopped and started, and
    then both are post-started. *)
Example service_orchestrate_run :
  (run_scripted (fun remote => service_orchestrate remote manager0 BASE_SERVICES true)
     script_started_services (Some "cluster1")).1 = Ret tt /\
  phases
    (run_scripted (fun remote => service_orchestrate remote manager0 BASE_SERVICES true)
       script_started_services (Some "cluster1")).2
  = [ PDeploy "ZOOKEEPER"; PPreStart "ZOOKEEPER"; PDeploy "YARN"; PPreStart "YARN";
      PStop; PStopWaited; PStart; PStartWaited;
      PPostStart "ZOOKEEPER"; PPostStart "YARN" ].
Proof. vm_compute. split; reflexivity. Qed.

(** The management role created is the one of the module-level
    description ([doc0]: HOSTMONITOR on host1), also for an instance whose
    own description names another ([manager1]: SERVICEMONITOR on host2);
    with no module-level [config] bound the deployment ends in a
    NameError. *)
Example deploy_mgmt_services_run :
  creations
    (run_scripted (fun remote => deploy_mgmt_services remote (Some doc0) manager1)
       script_new_mgmt None).2
  = [("HOSTMONITOR-1", "HOSTMONITOR", "host1")] /\
  (run_scripted (fun remote => deploy_mgmt_services remote (Some doc0) manager1)
     script_new_mgmt None).1 = Ret tt /\
  (run_scripted (fun remote => deploy_mgmt_services remote None manager1)
     script_new_mgmt None).1 = Raise (NameError "config").
Proof. vm_compute. repeat split. Qed.

(** *** Further properties *)

(** X1: a transient failure that never resolves ends the decorated call
    in that same ApiException: it is neither swallowed nor turned into a
    result. *)
Theorem retry_exhaustion_is_fatal {St A : Type} (attempts delay : Z) (func : M St A)
    (msg : string) (s : St) :
  0 < attempts ->
  0 <= delay ->
  (forall s0, exists s1 t1, func s0 = (Raise (ApiException msg), s1, t1)) ->
  (retry attempts delay func s).1.1 = Raise (ApiException msg).
Proof.
  intros Ha Hd Hf.
  destruct (retry_attempts attempts delay func s Ha Hd)
    as (n & s1 & t1 & r & s2 & t2 & _ & _ & Hr & _ & Heq).
  rewrite Heq. destruct (Hf s1) as (s1' & t1' & H1). rewrite H1 in Hr.
  injection Hr as <- _ _. reflexivity.
Qed.

Lemma retry_exhaustion_is_fatal_witness :
  (retry (W:=unit) (A:=unit) 3 5 (raise (ApiException "pending")) tt).1.1
  = Raise (ApiException "pending").
Proof.
  apply (retry_exhaustion_is_fatal 3 5 (raise (ApiException "pending")) "pending" tt);
    [lia|lia|].
  intros s0. exists s0, []. reflexivity.
Defined.

(** X2: the [service] property fetches or creates the service entity
    once: after it has returned, it returns the same object again without
    any call. *)
Theorem service_is_cached {W : Type} (remote : Call -> W -> res Reply * W)
    (self : Service) (s s1 : W * option (SvcRef * ApiService)) svc t1 :
  service remote self s = (Ret svc, s1, t1) ->
  service remote self s1 = (Ret svc, s1, []).
Proof.
  intros H. pose proof (service_run remote self s) as Hs. rewrite H in Hs.
  destruct Hs as [_ Hc]. specialize (Hc svc eq_refl).
  destruct s1 as [w1 l1]. simpl in Hc. subst l1. apply service_cached.
Qed.

Lemma service_is_cached_witness :
  service scripted hdfs0 (drop 1 script_stopped_service,
                          Some (ClusterSvc "cluster1" "HDFS", {| serviceState := "STOPPED" |}))
  = (Ret (ClusterSvc "cluster1" "HDFS", {| serviceState := "STOPPED" |}),
     (drop 1 script_stopped_service,
      Some (ClusterSvc "cluster1" "HDFS", {| serviceState := "STOPPED" |})), []).
Proof.
  apply (service_is_cached scripted hdfs0 (script_stopped_service, None) _ _
           [Remote (ClusterGetService "cluster1" "HDFS")
              (Ret (RService {| serviceState := "STOPPED" |}))]).
  reflexivity.
Defined.

(** X3: [deploy] on a service that reports STARTED does nothing beyond
    obtaining the service object. *)
Theorem deploy_started_is_noop {W : Type} (remote : Call -> W -> res Reply * W)
    (self : Service) (s s1 : W * option (SvcRef * ApiService)) svc t1 :
  service remote self s = (Ret svc, s1, t1) ->
  serviceState svc.2 = "STARTED" ->
  deploy remote self s = (Ret tt, s1, Enter (name self) MDeploy :: t1).
Proof.
  intros H Hst. unfold deploy, started.
  unfold bind at 1. unfold emit at 1.
  unfold bind at 1. unfold bind at 1. rewrite H. unfold ret at 1.
  rewrite Hst. simpl. rewrite !app_nil_r. reflexivity.
Qed.

Lemma deploy_started_is_noop_witness :
  deploy scripted hdfs0 ([Ret (RService {| serviceState := "STARTED" |})], None)
  = (Ret tt,
     ([], Some (ClusterSvc "cluster1" "HDFS", {| serviceState := "STARTED" |})),
     [Enter "HDFS" MDeploy;
      Remote (ClusterGetService "cluster1" "HDFS")
        (Ret (RService {| serviceState := "STARTED" |}))]).
Proof.
  apply (deploy_started_is_noop scripted hdfs0
           ([Ret (RService {| serviceState := "STARTED" |})], None) _
           (ClusterSvc "cluster1" "HDFS", {| serviceState := "STARTED" |}));
    reflexivity.
Defined.

(** X4: [wait_inspect_hosts], on a fetched status of the inspection
    command: it returns when the command succeeded, ends in [fail] when it
    failed, and raises ApiException for the decorator, bounded by 20
    attempts 5 seconds apart, while the outcome is pending. *)
Theorem wait_inspect_hosts_spec {W : Type} (remote : Call -> W -> res Reply * W)
    (self : ClouderaManager) (cmd : Call) (c : ApiCommand) (w w1 : W)
    (l : option string) :
  remote (CommandFetch cmd 0) w = (Ret (RCommand c), w1) ->
  let fetched := Remote (CommandFetch cmd 0) (Ret (RCommand c)) in
  (success c = Some true ->
   wait_inspect_hosts remote self cmd (w, l) = (Ret (Some tt), (w1, l), [fetched]))
  /\ (success c = Some false ->
      wait_inspect_hosts remote self cmd (w, l)
      = (Raise (SystemExit 1), (w1, l),
         [fetched; report_of (cm_module self) (MsgStr "Host inspection failed")]))
  /\ (success c = None ->
      exists msg,
        wait_inspect_hosts_body remote self cmd (w, l)
        = (Raise (ApiException msg), (w1, l), [fetched]))
  /\ (forall s : W * option string, exists (n : nat) s1 t1 r s2 t2,
        Z.of_nat n < 20 /\
        failed_attempts 5 (wait_inspect_hosts_body remote self cmd) n s s1 t1 /\
        wait_inspect_hosts_body remote self cmd s1 = (r, s2, t2) /\
        (is_api_exception r = true -> Z.of_nat n + 1 = 20) /\
        wait_inspect_hosts remote self cmd s = (verbatim r, s2, t1 ++ t2)).
Proof.
  intros H fetched. subst fetched.
  assert (Hbody : wait_inspect_hosts_body remote self cmd (w, l)
                  = match success c with
                    | None => (Raise (ApiException "Waiting on command to finish"),
                               (w1, l), [Remote (CommandFetch cmd 0) (Ret (RCommand c))])
                    | Some false =>
                        (Raise (SystemExit 1), (w1, l),
                         [Remote (CommandFetch cmd 0) (Ret (RCommand c));
                          report_of (cm_module self) (MsgStr "Host inspection failed")])
                    | Some true =>
                        (Ret tt, (w1, l), [Remote (CommandFetch cmd 0) (Ret (RCommand c))])
                    end).
  { unfold wait_inspect_hosts_body. rewrite bind_call, H. simpl as_command.
    rewrite bind_ret_l. destruct (success c) as [[|]|]; try reflexivity.
    rewrite fail_run. reflexivity. }
  split; [|split; [|split]].
  - intros Hs. unfold wait_inspect_hosts.
    apply (retry_first_try 20 5 _ _ (Ret tt)); [lia| |reflexivity].
    rewrite Hbody, Hs. reflexivity.
  - intros Hs. unfold wait_inspect_hosts.
    apply (retry_first_try 20 5 _ _ (Raise (SystemExit 1))); [lia| |reflexivity].
    rewrite Hbody, Hs. reflexivity.
  - intros Hs. rewrite Hbody, Hs. eauto.
  - intros s. apply (retry_attempts 20 5); lia.
Qed.

Lemma wait_inspect_hosts_spec_witness :
  wait_inspect_hosts scripted manager0 ManagerInspectHosts
    ([Ret (RCommand {| success := Some true; resultMessage := "ok" |})], None)
  = (Ret (Some tt), ([], None),
     [Remote (CommandFetch ManagerInspectHosts 0)
        (Ret (RCommand {| success := Some true; resultMessage := "ok" |}))]).
Proof.
  apply (wait_inspect_hosts_spec scripted manager0 ManagerInspectHosts
           {| success := Some true; resultMessage := "ok" |}
           [Ret (RCommand {| success := Some true; resultMessage := "ok" |})] [] None
           eq_refl).
  reflexivity.
Defined.

(** *** Invariants of runs *)


Section KeepsLemmas.
Context {W : Type} (remote : Call -> W -> res Reply * W).

Lemma keeps_ret {St A} (Inv : St -> Prop) (P : Event -> Prop) (Q : A -> Prop) (a : A) :
  Q a -> keeps Inv P Q (ret a).
Proof.
  intros Hq s Hs. simpl. split; [exact Hs|]. split; [constructor|].
  intros a' [= <-]. exact Hq.
Qed.

Lemma keeps_raise {St A} (Inv : St -> Prop) (P : Event -> Prop) (Q : A -> Prop) (e : exn) :
  keeps Inv P Q (raise (W:=St) e).
Proof.
  intros s Hs. simpl. split; [exact Hs|]. split; [constructor|]. intros a [=].
Qed.

Lemma keeps_bind {St A B} (Inv : St -> Prop) (P : Event -> Prop) (R : A -> Prop)
    (Q : B -> Prop) (m : M St A) (k : A -> M St B) :
  keeps Inv P R m -> (forall a, R a -> keeps Inv P Q (k a)) -> keeps Inv P Q (bind m k).
Proof.
  intros Hm Hk s Hs. specialize (Hm s Hs). unfold bind.
  destruct (m s) as [[[a|e] s1] t1]; simpl in *.
  - destruct Hm as (H1 & Ht1 & Ha). specialize (Hk a (Ha a eq_refl) s1 H1).
    destruct (k a s1) as [[r s2] t2]. simpl in *.
    destruct Hk as (H2 & Ht2 & Hq). split; [exact H2|].
    split; [apply Forall_app_2; assumption|exact Hq].
  - destruct Hm as (H1 & Ht1 & _). split; [exact H1|]. split; [exact Ht1|].
    intros a [=].
Qed.

Lemma keeps_try {St A} (Inv : St -> Prop) (P : Event -> Prop) (Q : A -> Prop)
    (m : M St A) (h : string -> M St A) :
  keeps Inv P Q m -> (forall msg, keeps Inv P Q (h msg)) -> keeps Inv P Q (try_except_api m h).
Proof.
  intros Hm Hh s Hs. specialize (Hm s Hs). unfold try_except_api.
  destruct (m s) as [[[a|e] s1] t1]; simpl in *; [exact Hm|].
  destruct e; try exact Hm.
  destruct Hm as (H1 & Ht1 & _). specialize (Hh msg s1 H1).
  destruct (h msg s1) as [[r s2] t2]. simpl in *.
  destruct Hh as (H2 & Ht2 & Hq). split; [exact H2|].
  split; [apply Forall_app_2; assumption|exact Hq].
Qed.

Lemma keeps_weaken {St A} (Inv : St -> Prop) (P P' : Event -> Prop) (Q Q' : A -> Prop)
    (m : M St A) :
  (forall e, P e -> P' e) -> (forall a, Q a -> Q' a) -> keeps Inv P Q m -> keeps Inv P' Q' m.
Proof.
  intros Hp Hq Hm s Hs. destruct (Hm s Hs) as (H1 & Ht & Ha).
  split; [exact H1|]. split; [eapply Forall_impl; eassumption|].
  intros a E. apply Hq, Ha, E.
Qed.

Lemma keeps_emit {St} (Inv : St -> Prop) (P : Event -> Prop) (e : Event) :
  P e -> keeps Inv P (fun _ => True) (emit e).
Proof.
  intros He s Hs. simpl. split; [exact Hs|]. split; [repeat constructor; exact He|].
  intros; exact Logic.I.
Qed.

Lemma keeps_sleep {St} (Inv : St -> Prop) (P : Event -> Prop) (d : Z) :
  P (Sleep d) -> keeps Inv P (fun _ => True) (sleep (W:=St) d).
Proof.
  intros Hp. unfold sleep. destruct (d <? 0); [apply keeps_raise|apply keeps_emit, Hp].
Qed.

Lemma keeps_fail {St A} (Inv : St -> Prop) (P : Event -> Prop) (Q : A -> Prop)
    (module : bool) (msg : Msg) :
  P (FailJson msg) -> P (LogError msg) -> keeps Inv P Q (fail (W:=St) module msg).
Proof.
  intros H1 H2. unfold fail.
  apply (keeps_bind Inv P (fun _ => True)); [|intros; apply keeps_raise].
  destruct module; apply keeps_emit; assumption.
Qed.

Lemma keeps_item {St A} (Inv : St -> Prop) (P : Event -> Prop) (key : string)
    (o : option A) :
  keeps Inv P (fun a => o = Some a) (item (S:=St) key o).
Proof. destruct o; [apply keeps_ret; reflexivity|apply keeps_raise]. Qed.

Lemma keeps_the_cluster {St} (Inv : St -> Prop) (P : Event -> Prop)
    (cluster : option string) (method : string) :
  keeps Inv P (fun c => cluster = Some c) (the_cluster (S:=St) cluster method).
Proof. destruct cluster; [apply keeps_ret; reflexivity|apply keeps_raise]. Qed.

Lemma keeps_for_each {St A} (Inv : St -> Prop) (P : Event -> Prop) (l : list A)
    (body : A -> M St unit) :
  (forall x, x ∈ l -> keeps Inv P (fun _ => True) (body x)) ->
  keeps Inv P (fun _ => True) (for_each l body).
Proof.
  induction l as [|x l IH]; intros Hb; simpl.
  - apply keeps_ret. exact Logic.I.
  - apply (keeps_bind Inv P (fun _ => True)); [apply Hb; left|].
    intros _ _. apply IH. intros y Hy. apply Hb. right. exact Hy.
Qed.

Lemma keeps_map_m {St A B} (Inv : St -> Prop) (P : Event -> Prop) (f : A -> M St B)
    (l : list A) :
  (forall x, keeps Inv P (fun _ => True) (f x)) ->
  keeps Inv P (fun _ => True) (map_m f l).
Proof.
  intros Hf. induction l as [|x l IH]; simpl.
  - apply keeps_ret. exact Logic.I.
  - apply (keeps_bind Inv P (fun _ => True)); [apply Hf|]. intros y _.
    apply (keeps_bind Inv P (fun _ => True)); [exact IH|]. intros ys _.
    apply keeps_ret. exact Logic.I.
Qed.

Lemma keeps_retry_while {St A} (Inv : St -> Prop) (P : Event -> Prop) (Q : A -> Prop)
    (attempts delay : Z) (func : M St A) (fuel : nat) :
  keeps Inv P Q func -> P (Sleep delay) ->
  forall attempt_counter,
    keeps Inv P (fun o => forall a, o = Some a -> Q a)
      (retry_while attempts delay func fuel attempt_counter).
Proof.
  intros Hf Hp. induction fuel as [|fuel IH]; intros c; simpl.
  - destruct (c <=? attempts); [apply keeps_raise|apply keeps_ret; discriminate].
  - destruct (c <=? attempts); [|apply keeps_ret; discriminate].
    apply keeps_try.
    + apply (keeps_bind Inv P Q); [exact Hf|]. intros a Ha.
      apply keeps_ret. intros a' [= <-]. exact Ha.
    + intros msg. destruct (c =? attempts); [apply keeps_raise|].
      apply (keeps_bind Inv P (fun _ => True)); [apply keeps_sleep, Hp|].
      intros _ _. apply IH.
Qed.

Lemma keeps_retry {St A} (Inv : St -> Prop) (P : Event -> Prop) (Q : A -> Prop)
    (attempts delay : Z) (func : M St A) :
  keeps Inv P Q func -> P (Sleep delay) ->
  keeps Inv P (fun o => forall a, o = Some a -> Q a) (retry attempts delay func).
Proof. intros Hf Hp. apply keeps_retry_while; assumption. Qed.

(** With a state made of the remote world and the attributes of the
    object, and an invariant [J] of the attributes. *)

Lemma keeps_call {L} (J : L -> Prop) (P : Event -> Prop) (c : Call) :
  (forall r, P (Remote c r)) ->
  keeps (fun s : W * L => J s.2) P (fun _ => True) (call remote c).
Proof.
  intros Hp [w l] Hs. unfold call. destruct (remote c w) as [r w1]. simpl in *.
  split; [exact Hs|]. split; [repeat constructor; apply Hp|]. intros; exact Logic.I.
Qed.

Lemma keeps_get_local {L} (J : L -> Prop) (P : Event -> Prop) :
  keeps (fun s : W * L => J s.2) P J get_local.
Proof.
  intros [w l] Hs. simpl in *. split; [exact Hs|]. split; [constructor|].
  intros a [= <-]. exact Hs.
Qed.

Lemma keeps_set_local {L} (J : L -> Prop) (P : Event -> Prop) (l : L) :
  J l -> keeps (fun s : W * L => J s.2) P (fun _ => True) (set_local l).
Proof.
  intros Hl [w l0] Hs. simpl. split; [exact Hl|]. split; [constructor|]. intros; exact Logic.I.
Qed.

Lemma keeps_zoom {L L' A} (J : L -> Prop) (J' : L' -> Prop) (P : Event -> Prop)
    (Q : A -> Prop) (l' : L') (m : M (W * L') A) :
  J' l' ->
  keeps (fun s : W * L' => J' s.2) P Q m ->
  keeps (fun s : W * L => J s.2) P (fun x => Q x.1 /\ J' x.2) (zoom l' m).
Proof.
  intros Hl Hm [w l] Hs. specialize (Hm (w, l') Hl). unfold zoom.
  destruct (m (w, l')) as [[[a|e] [w1 l1]] t]; simpl in *.
  - destruct Hm as (H1 & Ht & Ha). split; [exact Hs|]. split; [exact Ht|].
    intros x [= <-]. simpl. split; [apply Ha; reflexivity|exact H1].
  - destruct Hm as (_ & Ht & _). split; [exact Hs|]. split; [exact Ht|]. intros x [=].
Qed.

Lemma keeps_as_parcel {St} (Inv : St -> Prop) (P : Event -> Prop) (r : Reply) :
  keeps Inv P (fun _ => True) (as_parcel (S:=St) r).
Proof. destruct r; first [apply keeps_raise|apply keeps_ret; exact Logic.I]. Qed.
Lemma keeps_as_service {St} (Inv : St -> Prop) (P : Event -> Prop) (r : Reply) :
  keeps Inv P (fun _ => True) (as_service (S:=St) r).
Proof. destruct r; first [apply keeps_raise|apply keeps_ret; exact Logic.I]. Qed.
Lemma keeps_as_host_refs {St} (Inv : St -> Prop) (P : Event -> Prop) (r : Reply) :
  keeps Inv P (fun _ => True) (as_host_refs (S:=St) r).
Proof. destruct r; first [apply keeps_raise|apply keeps_ret; exact Logic.I]. Qed.
Lemma keeps_as_host {St} (Inv : St -> Prop) (P : Event -> Prop) (r : Reply) :
  keeps Inv P (fun _ => True) (as_host (S:=St) r).
Proof. destruct r; first [apply keeps_raise|apply keeps_ret; exact Logic.I]. Qed.
Lemma keeps_as_config {St} (Inv : St -> Prop) (P : Event -> Prop) (r : Reply) :
  keeps Inv P (fun _ => True) (as_config (S:=St) r).
Proof. destruct r; first [apply keeps_raise|apply keeps_ret; exact Logic.I]. Qed.
Lemma keeps_as_roles {St} (Inv : St -> Prop) (P : Event -> Prop) (r : Reply) :
  keeps Inv P (fun _ => True) (as_roles (S:=St) r).
Proof. destruct r; first [apply keeps_raise|apply keeps_ret; exact Logic.I]. Qed.
Lemma keeps_as_command {St} (Inv : St -> Prop) (P : Event -> Prop) (r : Reply) :
  keeps Inv P (fun _ => True) (as_command (S:=St) r).
Proof. destruct r; first [apply keeps_raise|apply keeps_ret; exact Logic.I]. Qed.
Lemma keeps_as_commands {St} (Inv : St -> Prop) (P : Event -> Prop) (r : Reply) :
  keeps Inv P (fun _ => True) (as_commands (S:=St) r).
Proof. destruct r; first [apply keeps_raise|apply keeps_ret; exact Logic.I]. Qed.
End KeepsLemmas.

Section EndsLemmas.
Context {St : Type}.

Lemma ends_with_bind_r {A B} (E : Event -> Prop) (m : M St A) (k : A -> M St B) (s : St) :
  (forall a s1, ends_with E (k a s1)) -> ends_with E (bind m k s).
Proof.
  intros Hk. unfold bind. destruct (m s) as [[[a|e] s1] t1]; [|intros b [=]].
  specialize (Hk a s1). destruct (k a s1) as [[r s2] t2].
  intros b Hb. destruct (Hk b Hb) as (t0 & e0 & Ht & He). simpl in *. subst t2.
  exists (t1 ++ t0), e0. rewrite app_assoc. split; [reflexivity|exact He].
Qed.

Lemma ends_with_then_ret {A B} (E : Event -> Prop) (m : M St A) (b : B) (s : St) :
  ends_with E (m s) -> ends_with E ((m ;;; ret b) s).
Proof.
  intros Hm. unfold bind, ret. destruct (m s) as [[[a|e] s1] t1]; [|intros x [=]].
  intros x _. destruct (Hm a eq_refl) as (t0 & e0 & Ht & He). simpl in *.
  exists t0, e0. rewrite app_nil_r. split; assumption.
Qed.
Lemma ends_with_after {A} (E : Event -> Prop) (t1 : list Event)
    (out : res A * St * list Event) :
  ends_with E out -> ends_with E (let '(r, s, t) := out in (r, s, t1 ++ t)).
Proof.
  destruct out as [[r s] t]. intros H a Ha.
  destruct (H a Ha) as (t0 & e0 & Ht & He). simpl in *. subst t.
  exists (t1 ++ t0), e0. rewrite app_assoc. split; [reflexivity|exact He].
Qed.
End EndsLemmas.

(** *** Parcels, further *)

(** X6: [check_state] with an empty list of target states, on a parcel
    without errors, ends in IndexError (from [states[0]]) after a single
    fetch: the decorator does not retry it. *)
Theorem check_state_empty_states {W L : Type} (remote : Call -> W -> res Reply * W)
    (self : Parcels) (p : ApiParcel) (w w1 : W) (l : L) :
  remote (fetch_of self) w = (Ret (RParcel p), w1) ->
  errors (state p) = [] ->
  check_state remote self [] (w, l)
  = (Raise IndexError, (w1, l), [Remote (fetch_of self) (Ret (RParcel p))]).
Proof.
  intros H He. unfold check_state.
  apply (retry_first_try 20 30 _ _ (Raise IndexError)); [lia| |reflexivity].
  rewrite (check_state_body_run _ _ _ _ _ _ _ H), He. reflexivity.
Qed.

Lemma check_state_empty_states_witness :
  check_state (L:=unit) (steady (parcel_at "ACTIVATED")) parcels0 [] (tt, tt)
  = (Raise IndexError, (tt, tt),
     [Remote (fetch_of parcels0) (Ret (RParcel (parcel_at "ACTIVATED")))]).
Proof.
  apply (check_state_empty_states (steady (parcel_at "ACTIVATED")) parcels0
           (parcel_at "ACTIVATED") tt tt tt); reflexivity.
Defined.

(** X7: when the parcel is known to the control plane, [validate] is a
    single fetch: it returns if the parcel has no errors and ends in
    [fail] with the errors otherwise; the manager's configuration is
    neither read nor changed. *)
Theorem validate_known_parcel {W L : Type} (remote : Call -> W -> res Reply * W)
    (self : Parcels) (p : ApiParcel) (w w1 : W) (l : L) :
  remote (fetch_of self) w = (Ret (RParcel p), w1) ->
  validate remote self (w, l)
  = match errors (state p) with
    | [] => (Ret tt, (w1, l), [Remote (fetch_of self) (Ret (RParcel p))])
    | _ :: _ =>
        (Raise (SystemExit 1), (w1, l),
         [Remote (fetch_of self) (Ret (RParcel p));
          report_of (p_module self) (MsgErrors (errors (state p)))])
    end.
Proof.
  intros H. unfold validate.
  assert (Hrun :
    (r <- call remote (ClusterGetParcel (p_cluster self) CDH (p_version self)) ;;
     p0 <- as_parcel r ;; check_error self p0) (w, l)
    = match errors (state p) with
      | [] => (Ret tt, (w1, l), [Remote (fetch_of self) (Ret (RParcel p))])
      | _ :: _ =>
          (Raise (SystemExit 1), (w1, l),
           [Remote (fetch_of self) (Ret (RParcel p));
            report_of (p_module self) (MsgErrors (errors (state p)))])
      end).
  { rewrite bind_call. change (ClusterGetParcel _ _ _) with (fetch_of self). rewrite H.
    simpl as_parcel. rewrite bind_ret_l, check_error_run.
    destruct (errors (state p)); reflexivity. }
  destruct (errors (state p)) eqn:He;
    (erewrite try_pass; [reflexivity|exact Hrun|reflexivity]).
Qed.

Lemma validate_known_parcel_witness :
  validate (L:=unit) (steady (parcel_at "ACTIVATED")) parcels0 (tt, tt)
  = (Ret tt, (tt, tt),
     [Remote (fetch_of parcels0) (Ret (RParcel (parcel_at "ACTIVATED")))]).
Proof.
  apply (validate_known_parcel (steady (parcel_at "ACTIVATED")) parcels0
           (parcel_at "ACTIVATED") tt tt tt). reflexivity.
Defined.

(** X8: when the parcel is unknown (the fetch raises ApiException) and
    no repository was given, [validate] raises the Exception that asks
    for one, without any further call. *)
Theorem validate_without_repo {W L : Type} (remote : Call -> W -> res Reply * W)
    (self : Parcels) (msg : string) (w w1 : W) (l : L) :
  remote (fetch_of self) w = (Raise (ApiException msg), w1) ->
  p_repo self = None ->
  validate remote self (w, l)
  = (Raise (PyException
       "None of the existing repos contain the requested parcel version. Please specify a parcel repo."),
     (w1, l), [Remote (fetch_of self) (Raise (ApiException msg))]).
Proof.
  intros H Hrepo. unfold validate.
  erewrite try_catch;
    [|erewrite bind_raise; [reflexivity|apply call_run; exact H]].
  rewrite Hrepo. reflexivity.
Qed.

Lemma validate_without_repo_witness :
  validate (L:=unit) scripted
    {| p_module := true; p_cluster := "cluster1"; p_version := "5.4.0"; p_repo := None |}
    ([Raise (ApiException "not found")], tt)
  = (Raise (PyException
       "None of the existing repos contain the requested parcel version. Please specify a parcel repo."),
     ([], tt),
     [Remote (ClusterGetParcel "cluster1" CDH "5.4.0") (Raise (ApiException "not found"))]).
Proof.
  apply (validate_without_repo (L:=unit) scripted
           {| p_module := true; p_cluster := "cluster1"; p_version := "5.4.0";
              p_repo := None |} "not found" [Raise (ApiException "not found")] [] tt);
    reflexivity.
Defined.

(** X9: when the parcel is unknown, a repository was given, and the
    manager's configuration has no REMOTE_PARCEL_REPO_URLS entry,
    [validate] ends in KeyError after reading the configuration: nothing
    is written back. *)
Theorem validate_missing_repo_setting {W L : Type} (remote : Call -> W -> res Reply * W)
    (self : Parcels) (msg repo : string) (cm_config : gmap string ApiConfig)
    (w w1 w2 : W) (l : L) :
  remote (fetch_of self) w = (Raise (ApiException msg), w1) ->
  p_repo self = Some repo ->
  remote (ManagerGetConfig "full") w1 = (Ret (RConfig cm_config), w2) ->
  cm_config !! REMOTE_PARCEL_REPO_URLS = None ->
  validate remote self (w, l)
  = (Raise (KeyError REMOTE_PARCEL_REPO_URLS), (w2, l),
     [Remote (fetch_of self) (Raise (ApiException msg));
      Remote (ManagerGetConfig "full") (Ret (RConfig cm_config))]).
Proof.
  intros H Hrepo Hget Hkey. unfold validate.
  erewrite try_catch;
    [|erewrite bind_raise; [reflexivity|apply call_run; exact H]].
  rewrite Hrepo. rewrite bind_call, Hget. simpl as_config. rewrite bind_ret_l, Hkey.
  reflexivity.
Qed.

Lemma validate_missing_repo_setting_witness :
  validate (L:=unit) scripted parcels0
    ([Raise (ApiException "not found"); Ret (RConfig ∅)], tt)
  = (Raise (KeyError REMOTE_PARCEL_REPO_URLS), ([], tt),
     [Remote (fetch_of parcels0) (Raise (ApiException "not found"));
      Remote (ManagerGetConfig "full") (Ret (RConfig ∅))]).
Proof.
  apply (validate_missing_repo_setting (L:=unit) scripted parcels0 "not found"
           "http://repo.example/cdh5" ∅
           [Raise (ApiException "not found"); Ret (RConfig ∅)] [Ret (RConfig ∅)] [] tt);
    reflexivity.
Defined.

Section ParcelStages.
Context {W L : Type} (remote : Call -> W -> res Reply * W).

Lemma check_state_body_returns (self : Parcels) (states : list string)
    (s s' : W * L) (t : list Event) :
  check_state_body remote self states s = (Ret tt, s', t) ->
  exists e, t = [e] /\ parcel_seen self states e.
Proof.
  destruct s as [w l]. unfold check_state_body, parcel.
  rewrite bind_unfold, bind_call.
  change (ClusterGetParcel (p_cluster self) CDH (p_version self)) with (fetch_of self).
  destruct (remote (fetch_of self) w) as [[r|e] w1]; [|discriminate].
  destruct r as [| | | |p| | | |]; try discriminate.
  simpl as_parcel. unfold ret at 1. cbv iota beta.
  rewrite bind_unfold, check_error_run.
  destruct (errors (state p)) eqn:He; [|discriminate].
  destruct (bool_decide (stage p ∈ states)) eqn:Hs;
    [|destruct states; discriminate].
  intros [= <- <-]. eexists. split; [reflexivity|].
  exists p. split; [reflexivity|]. split; [exact He|].
  apply bool_decide_eq_true in Hs. exact Hs.
Qed.

Lemma check_state_ends (self : Parcels) (states : list string) (s : W * L) :
  ends_with (parcel_seen self states) (check_state remote self states s).
Proof.
  unfold check_state.
  destruct (retry_attempts 20 30 (check_state_body remote self states) s)
    as (n & s1 & t1 & r & s2 & t2 & _ & _ & Hr & _ & Heq); [lia|lia|].
  rewrite Heq. intros a Ha. simpl in Ha.
  destruct r as [[]|e]; [|discriminate].
  destruct (check_state_body_returns _ _ _ _ _ Hr) as (e & -> & He).
  exists t1, e. split; [reflexivity|exact He].
Qed.
End ParcelStages.

(** X10: when a step of the parcel lifecycle returns, the last thing it
    did was to fetch the parcel and see it, without errors, in one of the
    stages the step waits for: DOWNLOADED or later for [download],
    DISTRIBUTED or later for [distribute], ACTIVATED or INUSE for
    [activate]. *)
Theorem parcel_step_reaches_stage {W L : Type} (remote : Call -> W -> res Reply * W)
    (self : Parcels) (s : W * L) :
  ends_with (parcel_seen self ["DOWNLOADED"; "DISTRIBUTED"; "ACTIVATED"; "INUSE"])
    (download remote self s)
  /\ ends_with (parcel_seen self ["DISTRIBUTED"; "ACTIVATED"; "INUSE"])
       (distribute remote self s)
  /\ ends_with (parcel_seen self ["ACTIVATED"; "INUSE"]) (activate remote self s).
Proof.
  split; [|split]; unfold download, distribute, activate;
    (apply ends_with_bind_r; intros _ s1; apply ends_with_bind_r; intros _ s2;
     apply ends_with_then_ret, check_state_ends).
Qed.

Lemma parcel_step_reaches_stage_witness :
  exists t0 e,
    (activate (L:=unit) (steady (parcel_at "ACTIVATED")) parcels0 (tt, tt)).2 = t0 ++ [e] /\
    parcel_seen parcels0 ["ACTIVATED"; "INUSE"] e.
Proof.
  destruct (parcel_step_reaches_stage (L:=unit) (steady (parcel_at "ACTIVATED"))
              parcels0 (tt, tt)) as (_ & _ & H).
  apply (H tt). vm_compute. reflexivity.
Defined.

(** *** Service, further *)

(** The run of the [service] property of an instance that holds no
    service object yet. *)
Lemma service_fetch_run {W : Type} (remote : Call -> W -> res Reply * W)
    (self : Service) (c : string) (w : W) :
  svc_cluster self = Some c ->
  service remote self (w, None)
  = let '(rg, w1) := remote (ClusterGetService c (name self)) w in
    let get := Remote (ClusterGetService c (name self)) rg in
    match rg with
    | Ret (RService a) =>
        (Ret (ClusterSvc c (name self), a),
         (w1, Some (ClusterSvc c (name self), a)), [get])
    | Ret _ => (Raise TypeError, (w1, None), [get])
    | Raise (ApiException _) =>
        let '(rc, w2) := remote (ClusterCreateService c (name self) (svc_type self)) w1 in
        let create := Remote (ClusterCreateService c (name self) (svc_type self)) rc in
        match rc with
        | Ret (RService a) =>
            (Ret (ClusterSvc c (name self), a),
             (w2, Some (ClusterSvc c (name self), a)), [get; create])
        | Ret _ => (Raise TypeError, (w2, None), [get; create])
        | Raise e => (Raise e, (w2, None), [get; create])
        end
    | Raise e => (Raise e, (w1, None), [get])
    end.
Proof.
  intros Hc. unfold service. rewrite bind_get_local. cbv beta iota.
  unfold bind at 1. unfold try_except_api. rewrite Hc. simpl the_cluster.
  rewrite bind_ret_l, bind_call.
  destruct (remote (ClusterGetService c (name self)) w) as [[a|e] w1].
  - destruct a; reflexivity.
  - destruct e; try reflexivity.
    rewrite bind_ret_l, bind_call.
    destruct (remote (ClusterCreateService c (name self) (svc_type self)) w1) as [[a|e] w2].
    + destruct a; reflexivity.
    + reflexivity.
Qed.

(** X11: the [service] property of an instance that holds no service
    object yet looks the service up by name in its cluster, and creates
    it, under its name and type, exactly when the lookup raises
    ApiException; no other call is made, and the object it returns is the
    one it caches. *)
Theorem service_get_or_create {W : Type} (remote : Call -> W -> res Reply * W)
    (self : Service) (c : string) (w : W) :
  svc_cluster self = Some c ->
  let '(r, s', t) := service remote self (w, None) in
  exists rep,
    (if is_api_exception rep
     then exists rc, t = [Remote (ClusterGetService c (name self)) rep;
                          Remote (ClusterCreateService c (name self) (svc_type self)) rc]
     else t = [Remote (ClusterGetService c (name self)) rep]) /\
    (forall svc, r = Ret svc -> svc.1 = ClusterSvc c (name self) /\ s'.2 = Some svc).
Proof.
  intros Hc. rewrite (service_fetch_run remote self c w Hc).
  destruct (remote (ClusterGetService c (name self)) w) as [[a|e] w1].
  - destruct a; cbn -[name]; eexists (Ret _); cbn -[name];
      (split; [reflexivity|]); intros svc [=]; subst; split; reflexivity.
  - destruct e as [msg|m|k| | | |n|n|z|]; cbn -[name];
      try solve [match goal with
                 | |- context [Remote _ (Raise ?x)] => exists (Raise x)
                 end; cbn -[name]; split; [reflexivity|intros svc [=]]].
    destruct (remote (ClusterCreateService c (name self) (svc_type self)) w1) as [[a|e] w2].
    + destruct a; cbn -[name]; exists (Raise (ApiException msg)); cbn -[name];
        (split; [eexists; reflexivity|]); intros svc [=]; subst; split; reflexivity.
    + cbn -[name]. exists (Raise (ApiException msg)). cbn -[name].
      split; [eexists; reflexivity|]. intros svc [=].
Qed.

Lemma service_get_or_create_witness :
  let '(r, s', t) := service scripted hdfs_no_roles (script_new_service, None) in
  exists rep,
    (if is_api_exception rep
     then exists rc, t = [Remote (ClusterGetService "cluster1" (name hdfs_no_roles)) rep;
                          Remote (ClusterCreateService "cluster1" (name hdfs_no_roles)
                                    (svc_type hdfs_no_roles)) rc]
     else t = [Remote (ClusterGetService "cluster1" (name hdfs_no_roles)) rep]) /\
    (forall svc, r = Ret svc ->
       svc.1 = ClusterSvc "cluster1" (name hdfs_no_roles) /\ s'.2 = Some svc).
Proof.
  apply (service_get_or_create scripted hdfs_no_roles "cluster1" script_new_service).
  reflexivity.
Defined.

Section ServiceKeeps.
Context {W : Type} (remote : Call -> W -> res Reply * W).
Context (self : Service) (c : string) (P : Event -> Prop).
Hypothesis Hcluster : svc_cluster self = Some c.
Hypothesis HP : forall e, addressed_to (ClusterSvc c (name self)) e -> P e.

Local Abbreviation svc := (ClusterSvc c (name self)).
Local Abbreviation SInv := (fun s : W * option (SvcRef * ApiService) => caches svc s.2).

Ltac kcall :=
  apply (keeps_call remote (caches svc)); intros ?; apply HP; simpl in *; congruence.
Ltac kbind R0 := apply (keeps_bind SInv P R0).
Ltac kitem := eapply (keeps_bind SInv P); [apply keeps_item|].
Ltac kany := apply (keeps_bind SInv P (fun _ => True)).

Lemma service_keeps :
  keeps SInv P (fun s => s.1 = svc) (service remote self).
Proof.
  unfold service.
  kbind (caches svc); [apply (keeps_get_local (caches svc))|].
  intros [x|] Hx; [apply keeps_ret; exact Hx|].
  kbind (fun s : SvcRef * ApiService => s.1 = svc).
  - rewrite Hcluster. simpl the_cluster.
    apply keeps_try; [|intros msg];
      (kbind (fun x => x = c); [apply keeps_ret; reflexivity|]; intros ? ->;
       kany; [kcall|]; intros r _;
       kany; [apply keeps_as_service|]; intros a _;
       apply keeps_ret; reflexivity).
  - intros s Hs. kany; [apply (keeps_set_local (caches svc)); exact Hs|].
    intros _ _. apply keeps_ret. exact Hs.
Qed.

Lemma started_keeps : keeps SInv P (fun _ => True) (started remote self).
Proof.
  unfold started. kbind (fun s : SvcRef * ApiService => s.1 = svc); [apply service_keeps|].
  intros s _. apply keeps_ret. exact I.
Qed.

Lemma Service_create_roles_loop_keeps (group : string) (hosts : list string) :
  forall role_id,
    keeps SInv P (fun _ => True)
      (Service_create_roles_loop remote self group hosts role_id).
Proof.
  induction hosts as [|host hosts IH]; intros role_id; simpl.
  - apply keeps_ret. exact I.
  - kany; [|intros _ _; apply IH].
    apply keeps_try; [|intros msg];
      (kbind (fun s : SvcRef * ApiService => s.1 = svc); [apply service_keeps|];
       intros s Hs; kany; [kcall|]; intros _ _; apply keeps_ret; exact I).
Qed.

Lemma Zookeeper_create_roles_loop_keeps (group : string) (hosts : list string) :
  forall role_id,
    keeps SInv P (fun _ => True)
      (Zookeeper_create_roles_loop remote self group hosts role_id).
Proof.
  induction hosts as [|host hosts IH]; intros role_id; simpl.
  - apply keeps_ret. exact I.
  - kbind (fun r : SvcRef => r = svc).
    + apply keeps_try; [|intros msg];
        (kbind (fun s : SvcRef * ApiService => s.1 = svc); [apply service_keeps|];
         intros s Hs; kany; [kcall|]; intros _ _; apply keeps_ret; exact Hs).
    + intros role ->. kany; [kcall|]. intros _ _. apply IH.
Qed.

Lemma create_roles_keeps (role : RoleSpec) (group : string) :
  keeps SInv P (fun _ => True) (create_roles remote self role group).
Proof.
  unfold create_roles, Zookeeper_create_roles, Service_create_roles.
  destruct (svc_kind self);
    (kitem; intros hosts _;
     first [apply Zookeeper_create_roles_loop_keeps|apply Service_create_roles_loop_keeps]).
Qed.

Lemma deploy_role_keeps (role : RoleSpec) :
  keeps SInv P (fun _ => True) (deploy_role remote self role).
Proof.
  unfold deploy_role.
  destruct (negb (truthy_str (role_group role)) && truthy_list (role_hosts role));
    [apply keeps_raise|].
  kitem. intros group _.
  kbind (fun s : SvcRef * ApiService => s.1 = svc); [apply service_keeps|].
  intros s Hs. kany; [kcall|]. intros _ _. kany; [kcall|]. intros _ _.
  apply create_roles_keeps.
Qed.

Lemma deploy_keeps : keeps SInv P (fun _ => True) (deploy remote self).
Proof.
  unfold deploy.
  kany; [apply keeps_emit, HP; exact I|]. intros _ _.
  kany; [apply started_keeps|]. intros [|] _; [apply keeps_ret; exact I|].
  kbind (fun s : SvcRef * ApiService => s.1 = svc); [apply service_keeps|].
  intros s Hs. kany; [kcall|]. intros _ _.
  destruct (negb (truthy_list (service_roles (svc_config self)))); [apply keeps_raise|].
  kitem. intros roles _.
  apply keeps_for_each. intros role _. apply deploy_role_keeps.
Qed.

Lemma run_command_keeps (method : string) (args : list string) (timeout : Z) :
  keeps SInv P (fun _ => True) (run_command remote self method args timeout).
Proof.
  unfold run_command.
  kbind (fun s : SvcRef * ApiService => s.1 = svc); [apply service_keeps|].
  intros s Hs. kany; [kcall|]. intros _ _. kany; [kcall|]. intros r _.
  kany; [apply keeps_as_command|]. intros _ _. apply keeps_ret. exact I.
Qed.

Lemma wait_commands_keeps (origin : Call) (cmds : list ApiCommand) (timeout : Z) :
  service_of origin = Some svc ->
  forall index, keeps SInv P (fun _ => True) (wait_commands remote origin cmds index timeout).
Proof.
  intros Ho. induction cmds as [|cmd cmds IH]; intros index; simpl.
  - apply keeps_ret. exact I.
  - kany; [kcall|]. intros r _. kany; [apply keeps_as_command|]. intros _ _. apply IH.
Qed.

Lemma pre_start_body_keeps : keeps SInv P (fun _ => True) (pre_start_body remote self).
Proof.
  unfold pre_start_body.
  destruct (svc_kind self);
    repeat first
      [ apply keeps_ret; exact I
      | apply run_command_keeps
      | kany; [apply run_command_keeps|intros _ _] ].
  - kbind (fun s : SvcRef * ApiService => s.1 = svc); [apply service_keeps|].
    intros s Hs. kany; [kcall|]. intros _ _. apply keeps_ret. exact I.
  - kbind (fun s : SvcRef * ApiService => s.1 = svc); [apply service_keeps|].
    intros s Hs. cbv zeta. kany; [kcall|]. intros r _.
    kany; [apply keeps_as_commands|]. intros cmds _.
    apply wait_commands_keeps. simpl. congruence.
Qed.

Lemma post_start_body_keeps : keeps SInv P (fun _ => True) (post_start_body remote self).
Proof.
  unfold post_start_body.
  destruct (svc_kind self);
    repeat first
      [ apply keeps_ret; exact I
      | apply run_command_keeps
      | kany; [apply run_command_keeps|intros _ _] ].
  kbind (fun s : SvcRef * ApiService => s.1 = svc); [apply service_keeps|].
  intros s Hs. kany; [kcall|]. intros _ _. apply keeps_ret. exact I.
Qed.

Lemma pre_start_keeps : keeps SInv P (fun _ => True) (pre_start remote self).
Proof.
  unfold pre_start. kany; [apply keeps_emit, HP; exact I|]. intros _ _.
  apply pre_start_body_keeps.
Qed.

Lemma post_start_keeps : keeps SInv P (fun _ => True) (post_start remote self).
Proof.
  unfold post_start. kany; [apply keeps_emit, HP; exact I|]. intros _ _.
  apply post_start_body_keeps.
Qed.
End ServiceKeeps.

(** X12: a Service instance only talks to its own service entity: from
    a state in which it holds no service object, or its own, every call
    made by [deploy], [pre_start] and [post_start] is addressed to the
    service of its name in its cluster (its lookup or creation, a method
    of it, or a wait on one of its commands), and the object it holds
    afterwards is still its own. *)
Theorem service_calls_own_entity {W : Type} (remote : Call -> W -> res Reply * W)
    (self : Service) (c : string) :
  svc_cluster self = Some c ->
  let own := fun s : W * option (SvcRef * ApiService) =>
               caches (ClusterSvc c (name self)) s.2 in
  keeps own (addressed_to (ClusterSvc c (name self))) (fun _ => True) (deploy remote self)
  /\ keeps own (addressed_to (ClusterSvc c (name self))) (fun _ => True)
       (pre_start remote self)
  /\ keeps own (addressed_to (ClusterSvc c (name self))) (fun _ => True)
       (post_start remote self).
Proof.
  intros Hc own. subst own. split; [|split].
  - apply (deploy_keeps remote self c _ Hc). intros e He; exact He.
  - apply (pre_start_keeps remote self c _ Hc). intros e He; exact He.
  - apply (post_start_keeps remote self c _ Hc). intros e He; exact He.
Qed.

Lemma service_calls_own_entity_witness :
  Forall (addressed_to (ClusterSvc "cluster1" "HDFS"))
    (deploy scripted hdfs0 (script_stopped_service, None)).2.
Proof.
  destruct (service_calls_own_entity scripted hdfs0 "cluster1" eq_refl) as [H _].
  apply (H (script_stopped_service, None) I).
Defined.

Section ServerIds.
Context {W : Type} (remote : Call -> W -> res Reply * W).

Lemma Zookeeper_create_roles_loop_ids (self : Service) (group : string) svc :
  forall (hosts : list string) (role_id : Z) (w : W),
    let '(r, s', t) :=
      Zookeeper_create_roles_loop remote self group hosts role_id (w, Some svc) in
    exists k : nat,
      (k <= length hosts)%nat /\
      (r = Ret tt -> k = length hosts) /\
      role_updates t
      = take k (map (fun i => (role_name_of (name self) group (role_id + Z.of_nat i),
                               {[ "serverId" := VInt (role_id + Z.of_nat i) ]}))
                  (seq 1 (length hosts))).
Proof.
  induction hosts as [|host hosts IH]; intros role_id w.
  - simpl. exists O. repeat split; reflexivity.
  - cbn [Zookeeper_create_roles_loop]. cbv zeta.
    rewrite (zk_step_run remote self group host _ _
               (fun _ => Zookeeper_create_roles_loop remote self group hosts (role_id + 1))).
    cbv zeta.
    destruct (remote (ServiceGetRole svc.1 _) w) as [rr w1].
    assert (Hshift :
      map (fun i => (role_name_of (name self) group (role_id + Z.of_nat i),
                     ({[ "serverId" := VInt (role_id + Z.of_nat i) ]} : gmap string cfgval)))
        (seq 2 (length hosts))
      = map (fun i => (role_name_of (name self) group (role_id + 1 + Z.of_nat i),
                       {[ "serverId" := VInt (role_id + 1 + Z.of_nat i) ]}))
          (seq 1 (length hosts))).
    { rewrite <- (seq_shift (length hosts) 1), map_map.
      apply map_ext. intros i.
      replace (role_id + Z.of_nat (S i)) with (role_id + 1 + Z.of_nat i) by lia.
      reflexivity. }
    assert (Hone : role_id + Z.of_nat 1 = role_id + 1) by lia.
    destruct rr as [a|e].
    + destruct (remote (RoleUpdateConfig svc.1 _ _) w1) as [[u|e] w3].
      * specialize (IH (role_id + 1) w3).
        destruct (Zookeeper_create_roles_loop remote self group hosts (role_id + 1)
                    (w3, Some svc)) as [[r s'] t].
        destruct IH as (k & Hk & Hret & Hu).
        exists (S k). split; [simpl; lia|]. split; [intros H; simpl; f_equal; auto|].
        cbn [app role_updates omap list_omap map length seq take].
        fold (role_updates t). rewrite Hu, Hshift, Hone. reflexivity.
      * exists 1%nat. split; [simpl; lia|]. split; [discriminate|].
        cbn [app role_updates omap list_omap map length seq take]. rewrite Hone.
        rewrite take_0. reflexivity.
    + destruct e as [msg|m|k0| | | |n|n|z|];
        try (exists 0%nat; split; [simpl; lia|]; split; [discriminate|]; reflexivity).
      destruct (remote (ServiceCreateRole svc.1 _ group host) w1) as [[c|e] w2].
      * destruct (remote (RoleUpdateConfig svc.1 _ _) w2) as [[u|e] w3].
        -- specialize (IH (role_id + 1) w3).
           destruct (Zookeeper_create_roles_loop remote self group hosts (role_id + 1)
                       (w3, Some svc)) as [[r s'] t].
           destruct IH as (k & Hk & Hret & Hu).
           exists (S k). split; [simpl; lia|]. split; [intros H; simpl; f_equal; auto|].
           cbn [app role_updates omap list_omap map length seq take].
           fold (role_updates t). rewrite Hu, Hshift, Hone. reflexivity.
        -- exists 1%nat. split; [simpl; lia|]. split; [discriminate|].
           cbn [app role_updates omap list_omap map length seq take]. rewrite Hone.
           rewrite take_0. reflexivity.
      * exists 0%nat. split; [simpl; lia|]. split; [discriminate|]. reflexivity.
Qed.

Lemma Service_create_roles_loop_no_update (self : Service) (group : string) svc :
  forall (hosts : list string) (role_id : Z) (w : W),
    role_updates
      (Service_create_roles_loop remote self group hosts role_id (w, Some svc)).2 = [].
Proof.
  induction hosts as [|host hosts IH]; intros role_id w; [reflexivity|].
  cbn [Service_create_roles_loop]. cbv zeta. unfold bind at 1.
  rewrite role_step_run.
  destruct (remote (ServiceGetRole svc.1 _) w) as [[a|e] w1].
  - specialize (IH (role_id + 1) w1).
    destruct (Service_create_roles_loop remote self group hosts (role_id + 1)
                (w1, Some svc)) as [[r s'] t].
    simpl in *. exact IH.
  - destruct e as [msg|m|k0| | | |n|n|z|]; try reflexivity.
    destruct (remote (ServiceCreateRole svc.1 _ group host) w1) as [[c|e] w2];
      [|reflexivity].
    specialize (IH (role_id + 1) w2).
    destruct (Service_create_roles_loop remote self group hosts (role_id + 1)
                (w2, Some svc)) as [[r s'] t].
    simpl in *. exact IH.
Qed.
End ServerIds.



(** The same run, spelled out: the first server is found, the second
    created, and each is given its ordinal. *)
Example zookeeper_create_roles_run :
  run_scripted (fun remote => Zookeeper_create_roles remote zookeeper0 servers "SERVER")
    script_second_server_missing (Some (fetched_service zookeeper0))
  = (Ret tt,
     [ Remote (ServiceGetRole (ClusterSvc "cluster1" "ZOOKEEPER") "ZOOKEEPER-SERVER-1")
         (Ret RObject);
       Remote (RoleUpdateConfig (ClusterSvc "cluster1" "ZOOKEEPER") "ZOOKEEPER-SERVER-1"
                 {[ "serverId" := VInt 1 ]}) (Ret RObject);
       Remote (ServiceGetRole (ClusterSvc "cluster1" "ZOOKEEPER") "ZOOKEEPER-SERVER-2")
         (Raise (ApiException "not found"));
       Remote (ServiceCreateRole (ClusterSvc "cluster1" "ZOOKEEPER") "ZOOKEEPER-SERVER-2"
                 "SERVER" "host2") (Ret RObject);
       Remote (RoleUpdateConfig (ClusterSvc "cluster1" "ZOOKEEPER") "ZOOKEEPER-SERVER-2"
                 {[ "serverId" := VInt 2 ]}) (Ret RObject) ]).
Proof. vm_compute. reflexivity. Qed.

Section HookProperties.
Context {W : Type} (remote : Call -> W -> res Reply * W).
Hypothesis Hanswers : answers remote.
Context (self : Service) (svc : SvcRef * ApiService).

Lemma run_command_returns (method : string) (args : list string) (timeout : Z) (w : W) :
  exists w' t,
    run_command remote self method args timeout (w, Some svc)
    = (Ret tt, (w', Some svc), t).
Proof.
  unfold run_command. unfold bind at 1. rewrite service_cached.
  destruct (Hanswers (ServiceCommand svc.1 method args) w) as (r1 & w1 & H1 & _).
  rewrite bind_call, H1.
  destruct (Hanswers (CommandWait (ServiceCommand svc.1 method args) 0 (Some timeout)) w1)
    as (r2 & w2 & H2 & cmd & ->).
  rewrite bind_call, H2. simpl. eauto.
Qed.

Lemma wait_commands_returns (origin : Call) (cmds : list ApiCommand) (timeout : Z) :
  forall (index : nat) (w : W),
    exists w' t,
      wait_commands remote origin cmds index timeout (w, Some svc)
      = (Ret tt, (w', Some svc), t).
Proof.
  induction cmds as [|cmd cmds IH]; intros index w; simpl; [eauto|].
  destruct (Hanswers (CommandWait origin index (Some timeout)) w)
    as (r & w1 & H & cmd' & ->).
  rewrite bind_call, H. simpl as_command. rewrite bind_ret_l.
  destruct (IH (S index) w1) as (w' & t & E). rewrite E. eauto.
Qed.

Lemma then_returns {A} (m : M (W * option (SvcRef * ApiService)) A)
    (k : M (W * option (SvcRef * ApiService)) unit) (w : W) :
  (forall w0, exists a w' t, m (w0, Some svc) = (Ret a, (w', Some svc), t)) ->
  (forall w0, exists w' t, k (w0, Some svc) = (Ret tt, (w', Some svc), t)) ->
  exists w' t, (m ;;; k) (w, Some svc) = (Ret tt, (w', Some svc), t).
Proof.
  intros Hm Hk. destruct (Hm w) as (a & w1 & t1 & E1).
  destruct (Hk w1) as (w2 & t2 & E2).
  erewrite bind_run; [|exact E1]. rewrite E2. eauto.
Qed.

Lemma run_command_returns_any (method : string) (args : list string) (timeout : Z) :
  forall w0, exists a w' t,
    run_command remote self method args timeout (w0, Some svc)
    = (Ret a, (w', Some svc), t).
Proof.
  intros w0. destruct (run_command_returns method args timeout w0) as (w' & t & E).
  exists tt, w', t. exact E.
Qed.

Lemma pre_start_body_returns (w : W) :
  exists w' t, pre_start_body remote self (w, Some svc) = (Ret tt, (w', Some svc), t).
Proof.
  unfold pre_start_body. destruct (svc_kind self);
    try solve [ eexists _, _; reflexivity
              | apply run_command_returns
              | repeat (apply then_returns;
                        [apply run_command_returns_any|intros ?]);
                apply run_command_returns ].
  - unfold bind at 1. rewrite service_cached.
    destruct (Hanswers (ServiceCommand svc.1 "init_zookeeper" []) w) as (r1 & w1 & H1 & _).
    rewrite bind_call, H1. simpl. eauto.
  - unfold bind at 1. rewrite service_cached. cbv zeta.
    destruct (Hanswers (ServiceCommand svc.1 "format_hdfs" [name self +:+ "-NAMENODE-1"]) w)
      as (r1 & w1 & H1 & cmds & ->).
    rewrite bind_call, H1. simpl as_commands. rewrite bind_ret_l.
    destruct (wait_commands_returns
                (ServiceCommand svc.1 "format_hdfs" [name self +:+ "-NAMENODE-1"])
                cmds 60 0 w1) as (w' & t & E).
    rewrite E. eauto.
Qed.

Lemma post_start_body_returns (w : W) :
  exists w' t, post_start_body remote self (w, Some svc) = (Ret tt, (w', Some svc), t).
Proof.
  unfold post_start_body. destruct (svc_kind self);
    try solve [ eexists _, _; reflexivity
              | repeat (apply then_returns;
                        [apply run_command_returns_any|intros ?]);
                apply run_command_returns ].
  unfold bind at 1. rewrite service_cached.
  destruct (Hanswers (ServiceCommand svc.1 "create_hdfs_tmp" []) w) as (r1 & w1 & H1 & _).
  rewrite bind_call, H1. simpl. eauto.
Qed.
End HookProperties.

(** X14: a command that fails does not fail the hooks: against a
    control plane that answers every call (with a command where one is
    waited for), [pre_start] and [post_start] of every kind of service
    return normally, whatever the success flag and result message of the
    commands they wait for. *)
Theorem hooks_survive_failed_commands {W : Type} (remote : Call -> W -> res Reply * W)
    (self : Service) (svc : SvcRef * ApiService) (w : W) :
  answers remote ->
  (exists w' t, pre_start remote self (w, Some svc) = (Ret tt, (w', Some svc), t)) /\
  (exists w' t, post_start remote self (w, Some svc) = (Ret tt, (w', Some svc), t)).
Proof.
  intros H. split.
  - destruct (pre_start_body_returns remote H self svc w) as (w' & t & E).
    unfold pre_start. unfold bind, emit. rewrite E. eauto.
  - destruct (post_start_body_returns remote H self svc w) as (w' & t & E).
    unfold post_start. unfold bind, emit. rewrite E. eauto.
Qed.

Lemma hooks_survive_failed_commands_witness :
  (exists w' t,
     pre_start all_commands_fail hdfs0 (tt, Some (fetched_service hdfs0))
     = (Ret tt, (w', Some (fetched_service hdfs0)), t)) /\
  (exists w' t,
     post_start all_commands_fail hdfs0 (tt, Some (fetched_service hdfs0))
     = (Ret tt, (w', Some (fetched_service hdfs0)), t)).
Proof.
  apply (hooks_survive_failed_commands all_commands_fail hdfs0 (fetched_service hdfs0) tt).
  intros c []. destruct c; simpl;
    try (eexists _, tt; split; [reflexivity|exact I]);
    try (eexists _, tt; split; [reflexivity|eexists; reflexivity]).
  destruct (String.eqb method "format_hdfs");
    eexists _, tt; (split; [reflexivity|]); [eexists; reflexivity|exact I].
Defined.

(** Formatting HDFS fails twice, and [pre_start] of Hdfs returns all the
    same, having waited 60 seconds at most for each command. *)
Example hdfs_pre_start_run :
  pre_start all_commands_fail hdfs0 (tt, Some (fetched_service hdfs0))
  = (Ret tt, (tt, Some (fetched_service hdfs0)),
     [ Enter "HDFS" MPreStart;
       Remote (ServiceCommand (ClusterSvc "cluster1" "HDFS") "format_hdfs" ["HDFS-NAMENODE-1"])
         (Ret (RCommands [failed_command; failed_command]));
       Remote (CommandWait (ServiceCommand (ClusterSvc "cluster1" "HDFS") "format_hdfs"
                              ["HDFS-NAMENODE-1"]) 0 (Some 60))
         (Ret (RCommand failed_command));
       Remote (CommandWait (ServiceCommand (ClusterSvc "cluster1" "HDFS") "format_hdfs"
                              ["HDFS-NAMENODE-1"]) 1 (Some 60))
         (Ret (RCommand failed_command)) ]).
Proof. vm_compute. reflexivity. Qed.

Section HookCalls.
Context {W : Type} (remote : Call -> W -> res Reply * W).
Context (self : Service) (svc : SvcRef * ApiService).

Local Abbreviation HInv := (fun s : W * option (SvcRef * ApiService) => s.2 = Some svc).
Local Abbreviation HP := (command_on svc.1).
Local Abbreviation HJ := (fun l : option (SvcRef * ApiService) => l = Some svc).

Ltac hcall := apply (keeps_call remote HJ); intros ?; reflexivity.
Ltac hany := apply (keeps_bind HInv HP (fun _ => True)).

Lemma service_at_hand : keeps HInv HP (fun s => s = svc) (service remote self).
Proof.
  intros [w l] Hl. simpl in Hl. subst l. rewrite service_cached. simpl.
  split; [reflexivity|]. split; [constructor|]. intros a [= <-]. reflexivity.
Qed.

Ltac hsvc := apply (keeps_bind HInv HP (fun s => s = svc)); [apply service_at_hand|].

Lemma run_command_commands (method : string) (args : list string) (timeout : Z) :
  keeps HInv HP (fun _ => True) (run_command remote self method args timeout).
Proof.
  unfold run_command. hsvc. intros s ->. hany; [hcall|]. intros _ _.
  hany; [hcall|]. intros r _. hany; [apply keeps_as_command|]. intros _ _.
  apply keeps_ret. exact I.
Qed.

Lemma wait_commands_commands (method : string) (args : list string)
    (cmds : list ApiCommand) (timeout : Z) :
  forall index,
    keeps HInv HP (fun _ => True)
      (wait_commands remote (ServiceCommand svc.1 method args) cmds index timeout).
Proof.
  induction cmds as [|cmd cmds IH]; intros index; simpl.
  - apply keeps_ret. exact I.
  - hany; [hcall|]. intros r _. hany; [apply keeps_as_command|]. intros _ _. apply IH.
Qed.

Lemma pre_start_body_commands : keeps HInv HP (fun _ => True) (pre_start_body remote self).
Proof.
  unfold pre_start_body.
  destruct (svc_kind self);
    repeat first
      [ apply keeps_ret; exact I
      | apply run_command_commands
      | hany; [apply run_command_commands|intros _ _] ].
  - hsvc. intros s ->. hany; [hcall|]. intros _ _. apply keeps_ret. exact I.
  - hsvc. intros s ->. cbv zeta. hany; [hcall|]. intros r _.
    hany; [apply keeps_as_commands|]. intros cmds _. apply wait_commands_commands.
Qed.

Lemma post_start_body_commands : keeps HInv HP (fun _ => True) (post_start_body remote self).
Proof.
  unfold post_start_body.
  destruct (svc_kind self);
    repeat first
      [ apply keeps_ret; exact I
      | apply run_command_commands
      | hany; [apply run_command_commands|intros _ _] ].
  hsvc. intros s ->. hany; [hcall|]. intros _ _. apply keeps_ret. exact I.
Qed.
End HookCalls.

(** X15: the hooks only run commands: with the service object at hand,
    every call made by [pre_start] and [post_start], of any kind of
    service, is a command of that service or a wait for such a command;
    they create nothing and change no configuration. *)
Theorem hooks_only_run_commands {W : Type} (remote : Call -> W -> res Reply * W)
    (self : Service) (svc : SvcRef * ApiService) (w : W) :
  Forall (command_on svc.1) (pre_start remote self (w, Some svc)).2 /\
  Forall (command_on svc.1) (post_start remote self (w, Some svc)).2.
Proof.
  split.
  - assert (H : keeps (fun s : W * option (SvcRef * ApiService) => s.2 = Some svc)
                  (command_on svc.1) (fun _ => True) (pre_start remote self)).
    { unfold pre_start.
      apply (keeps_bind _ _ (fun _ => True)); [apply keeps_emit; exact I|].
      intros _ _. apply pre_start_body_commands. }
    apply (H (w, Some svc) eq_refl).
  - assert (H : keeps (fun s : W * option (SvcRef * ApiService) => s.2 = Some svc)
                  (command_on svc.1) (fun _ => True) (post_start remote self)).
    { unfold post_start.
      apply (keeps_bind _ _ (fun _ => True)); [apply keeps_emit; exact I|].
      intros _ _. apply post_start_body_commands. }
    apply (H (w, Some svc) eq_refl).
Qed.

(** *** Management services, further *)

(** X16: when the management service exists and reports STARTED,
    [deploy_mgmt_services] returns after that one lookup: no role is
    looked up, created or configured, and the module-level [config] is
    not read. *)
Theorem deploy_mgmt_started_is_noop {W : Type} (remote : Call -> W -> res Reply * W)
    (config : option ConfigDoc) (self : ClouderaManager) (a : ApiService)
    (w w1 : W) (l : option string) :
  remote ManagerGetService w = (Ret (RService a), w1) ->
  serviceState a = "STARTED" ->
  deploy_mgmt_services remote config self (w, l)
  = (Ret tt, (w1, l), [Remote ManagerGetService (Ret (RService a))]).
Proof.
  intros H Hs. unfold deploy_mgmt_services. unfold bind at 1.
  unfold try_except_api. rewrite bind_call, H. simpl as_service.
  rewrite bind_ret_l. unfold ret at 1. rewrite Hs. reflexivity.
Qed.

Lemma deploy_mgmt_started_is_noop_witness :
  deploy_mgmt_services scripted None manager0
    ([Ret (RService {| serviceState := "STARTED" |})], None)
  = (Ret tt, ([], None),
     [Remote ManagerGetService (Ret (RService {| serviceState := "STARTED" |}))]).
Proof.
  apply (deploy_mgmt_started_is_noop scripted None manager0
           {| serviceState := "STARTED" |}
           [Ret (RService {| serviceState := "STARTED" |})] [] None); reflexivity.
Defined.

(** X17: without a module-level [config] (the module imported rather
    than run as a script), [deploy_mgmt_services] ends in NameError as
    soon as it needs the roles: right after the lookup when the management
    service exists and is not started, and after having created the
    management service when the lookup raised ApiException. *)
Theorem deploy_mgmt_unbound_config {W : Type} (remote : Call -> W -> res Reply * W)
    (self : ClouderaManager) (w w1 : W) (l : option string) :
  (forall a,
     remote ManagerGetService w = (Ret (RService a), w1) ->
     serviceState a <> "STARTED" ->
     deploy_mgmt_services remote None self (w, l)
     = (Raise (NameError "config"), (w1, l),
        [Remote ManagerGetService (Ret (RService a))])) /\
  (forall msg r w2,
     remote ManagerGetService w = (Raise (ApiException msg), w1) ->
     remote ManagerCreateMgmtService w1 = (Ret r, w2) ->
     deploy_mgmt_services remote None self (w, l)
     = (Raise (NameError "config"), (w2, l),
        [Remote ManagerGetService (Raise (ApiException msg));
         Remote ManagerCreateMgmtService (Ret r)])).
Proof.
  split.
  - intros a H Hs. unfold deploy_mgmt_services. unfold bind at 1.
    unfold try_except_api. rewrite bind_call, H. simpl as_service.
    rewrite bind_ret_l. unfold ret at 1.
    apply String.eqb_neq in Hs. rewrite Hs. reflexivity.
  - intros msg r w2 H Hc. unfold deploy_mgmt_services. unfold bind at 1.
    unfold try_except_api. rewrite bind_call, H. rewrite bind_call, Hc. reflexivity.
Qed.

(** Without [config], a run in which the management service has to be
    created. *)
Example deploy_mgmt_unbound_config_run :
  run_scripted (fun remote => deploy_mgmt_services remote None manager0)
    [Raise (ApiException "not found"); Ret RObject] None
  = (Raise (NameError "config"),
     [Remote ManagerGetService (Raise (ApiException "not found"));
      Remote ManagerCreateMgmtService (Ret RObject)]).
Proof. reflexivity. Qed.

Section RoleCensus.
Context {W : Type} (remote : Call -> W -> res Reply * W).

Lemma census_silent (t : list Event) :
  Forall no_role_census t -> vacant_types t = [] /\ created_types t = [].
Proof.
  induction 1 as [|e t He _ [IH1 IH2]]; [split; reflexivity|].
  destruct e as [c r| | | |]; simpl in *; try (split; assumption).
  destruct c; simpl in *; try contradiction; split; assumption.
Qed.

Lemma vacant_types_app (t1 t2 : list Event) :
  vacant_types (t1 ++ t2) = vacant_types t1 ++ vacant_types t2.
Proof. apply omap_app. Qed.

Lemma created_types_app (t1 t2 : list Event) :
  created_types (t1 ++ t2) = created_types t1 ++ created_types t2.
Proof. apply omap_app. Qed.

(** The body of the first loop of [deploy_mgmt_services]. *)
Local Abbreviation ensure_role := (fun role : RoleSpec =>
  group <- item "group" (role_group role) ;;
  r <- call remote (ServiceGetRolesByType MgmtSvc group) ;;
  existing <- as_roles r ;;
  if negb (0 <? Z.of_nat (length existing)) then
    hosts <- item "hosts" (role_hosts role) ;;
    match hosts with
    | [] => raise IndexError
    | host :: _ =>
        call remote (ServiceCreateRole MgmtSvc (group +:+ "-1") group host) ;;;
        ret tt
    end
  else ret tt).

Lemma ensure_role_census (role : RoleSpec) (s : W * option string) :
  created_types (ensure_role role s).2 = vacant_types (ensure_role role s).2 \/
  (created_types (ensure_role role s).2 = [] /\
   (ensure_role role s).1.1 <> Ret tt).
Proof.
  destruct s as [w l]. cbv beta. destruct (role_group role) as [group|]; simpl item;
    [|right; split; [reflexivity|discriminate]].
  rewrite bind_ret_l, bind_call.
  destruct (remote (ServiceGetRolesByType MgmtSvc group) w) as [[r|e] w1];
    [|left; reflexivity].
  destruct r; simpl as_roles; try (left; reflexivity).
  rewrite bind_ret_l. destruct names as [|n names]; [|left; reflexivity].
  change (negb (0 <? Z.of_nat (length (@nil string)))) with true. cbv iota.
  destruct (role_hosts role) as [[|host hosts]|]; simpl item;
    try (right; split; [reflexivity|discriminate]).
  rewrite bind_ret_l, bind_call.
  destruct (remote (ServiceCreateRole MgmtSvc (group +:+ "-1") group host) w1)
    as [[r|e] w2]; left; reflexivity.
Qed.

Lemma creates_when_vacant_silent {St} (r : res unit) (s : St) (t : list Event) :
  Forall no_role_census t -> creates_when_vacant (r, s, t).
Proof.
  intros H. destruct (census_silent t H) as [Hv Hc]. unfold creates_when_vacant.
  simpl. rewrite Hv, Hc. split; reflexivity.
Qed.

Lemma creates_when_vacant_app {St} (r : res unit) (s : St) (t0 t : list Event) :
  Forall no_role_census t0 ->
  creates_when_vacant (r, s, t) -> creates_when_vacant (r, s, t0 ++ t).
Proof.
  intros H [Hp Hr]. destruct (census_silent t0 H) as [Hv Hc].
  unfold creates_when_vacant. simpl in *.
  rewrite created_types_app, vacant_types_app, Hv, Hc. split; assumption.
Qed.

Lemma creates_when_vacant_app_r {St} (r : res unit) (s : St) (t t3 : list Event) :
  Forall no_role_census t3 ->
  created_types t = vacant_types t -> creates_when_vacant (r, s, t ++ t3).
Proof.
  intros H Heq. destruct (census_silent t3 H) as [Hv Hc].
  unfold creates_when_vacant. simpl.
  rewrite created_types_app, vacant_types_app, Hv, Hc, Heq. split; reflexivity.
Qed.

Lemma ensure_roles_census (roles : list RoleSpec) :
  forall s : W * option string, creates_when_vacant (for_each roles ensure_role s).
Proof.
  induction roles as [|role roles IH]; intros s; [split; reflexivity|].
  cbn [for_each]. rewrite bind_unfold.
  pose proof (ensure_role_census role s) as Hstep.
  destruct (ensure_role role s) as [[[[]|e] s1] t1]; simpl in Hstep.
  - destruct Hstep as [Heq|[_ Hne]]; [|congruence].
    specialize (IH s1). destruct (for_each roles ensure_role s1) as [[r s2] t2].
    destruct IH as [Hp Hr]. unfold creates_when_vacant. simpl in *.
    rewrite created_types_app, vacant_types_app, Heq.
    split; [apply prefix_app, Hp|].
    intros ->. f_equal. apply Hr. reflexivity.
  - unfold creates_when_vacant. simpl. split; [|discriminate].
    destruct Hstep as [->|[-> _]]; [reflexivity|apply prefix_nil].
Qed.

Local Abbreviation MInv := (fun _ : W * option string => True).

Ltac mcall := apply (keeps_call remote (fun _ => True)); intros; exact I.
Ltac many := apply (keeps_bind MInv no_role_census (fun _ => True)).

Lemma mgmt_roles_silent (config : option ConfigDoc) :
  keeps MInv no_role_census (fun _ : list RoleSpec => True) (mgmt_roles config).
Proof.
  unfold mgmt_roles. destruct config as [g|]; [|apply keeps_raise].
  eapply (keeps_bind MInv no_role_census); [apply keeps_item|]. intros mgmt _.
  eapply keeps_weaken; [intros e He; exact He|intros; exact I|apply keeps_item].
Qed.

Lemma mgmt_census (config : option ConfigDoc) (self : ClouderaManager)
    (s : W * option string) :
  creates_when_vacant (deploy_mgmt_services remote config self s).
Proof.
  unfold deploy_mgmt_services.
  set (attach := try_except_api _ _).
  assert (Hattach : keeps MInv no_role_census (fun _ : bool => True) attach).
  { subst attach. apply keeps_try.
    - many; [mcall|]. intros r _. many; [apply keeps_as_service|].
      intros; apply keeps_ret; exact I.
    - intros _. many; [mcall|]. intros; apply keeps_ret; exact I. }
  clearbody attach. rewrite bind_unfold.
  destruct (Hattach s I) as (_ & Ht0 & _).
  destruct (attach s) as [[[go_on|e] s0] t0]; simpl in Ht0;
    [|apply creates_when_vacant_silent, Ht0].
  destruct go_on; cbn [negb];
    [|cbn [ret]; rewrite app_nil_r; apply creates_when_vacant_silent, Ht0].
  rewrite bind_unfold.
  destruct (mgmt_roles_silent config s0 I) as (_ & Ht1 & _).
  destruct (mgmt_roles config s0) as [[[roles|e] s1] t1]; simpl in Ht1;
    [|apply creates_when_vacant_silent, Forall_app_2; assumption].
  rewrite bind_unfold.
  pose proof (ensure_roles_census roles s1) as Hloop.
  destruct (for_each roles ensure_role s1) as [[[[]|e] s2] t2].
  - set (rest := (roles0 <- mgmt_roles config ;; _)).
    assert (Hrest : keeps MInv no_role_census (fun _ : unit => True) rest).
    { subst rest. many; [apply mgmt_roles_silent|]. intros roles' _.
      many.
      { apply keeps_for_each. intros role _.
        eapply (keeps_bind MInv no_role_census); [apply keeps_item|]. intros group _.
        many; [mcall|]. intros _ _. many; [mcall|]. intros _ _.
        apply keeps_ret. exact I. }
      intros _ _. many; [mcall|]. intros _ _. many; [mcall|]. intros _ _.
      many; [mcall|]. intros r _. many; [apply keeps_as_service|]. intros mgmt _.
      destruct (String.eqb (serviceState mgmt) "STARTED");
        [apply keeps_ret; exact I|apply keeps_fail; exact I]. }
    destruct (Hrest s2 I) as (_ & Ht3 & _).
    destruct (rest s2) as [[r3 s3] t3]. simpl in Ht3.
    apply creates_when_vacant_app; [exact Ht0|].
    apply creates_when_vacant_app; [exact Ht1|].
    apply creates_when_vacant_app_r; [exact Ht3|].
    destruct Hloop as [_ Hr]. apply Hr. reflexivity.
  - apply creates_when_vacant_app; [exact Ht0|].
    apply creates_when_vacant_app; [exact Ht1|].
    destruct Hloop as [Hp _]. split; [exact Hp|discriminate].
Qed.
End RoleCensus.

(** X18: [deploy_mgmt_services] creates a management role only for a
    type the management service has just reported as having no role: the
    types of the roles it creates are, in order, the types whose lookup
    returned an empty list, up to the point where it fails, and none is
    left out when it returns. *)
Theorem mgmt_roles_created_when_vacant {W : Type} (remote : Call -> W -> res Reply * W)
    (config : option ConfigDoc) (self : ClouderaManager) (s : W * option string) :
  creates_when_vacant (deploy_mgmt_services remote config self s).
Proof. apply mgmt_census. Qed.

(** X19: [deploy_mgmt_services] returns only on the word of the control
    plane that the management service is STARTED: the last event of a run
    that returns is a lookup of the management service that reported it
    STARTED (the first lookup if it was already started, the one after the
    start otherwise). *)
Theorem deploy_mgmt_returns_when_started {W : Type} (remote : Call -> W -> res Reply * W)
    (config : option ConfigDoc) (self : ClouderaManager) (s : W * option string) :
  ends_with reported_started (deploy_mgmt_services remote config self s).
Proof.
  assert (Hlast : forall s1 : W * option string,
    ends_with reported_started
      ((r <- call remote ManagerGetService ;;
        mgmt <- as_service r ;;
        if String.eqb (serviceState mgmt) "STARTED" then ret tt
        else fail (cm_module self)
               (MsgStr "[MGMT] Cloudera Management services didn't start up properly")) s1)).
  { intros [w1 l1]. rewrite bind_call.
    destruct (remote ManagerGetService w1) as [[r|e] w2]; [|intros x Hx; cbn in Hx; discriminate Hx].
    destruct r as [|a| | | | | | |]; try solve [intros x Hx; cbn in Hx; discriminate Hx].
    simpl as_service. rewrite bind_ret_l.
    destruct (String.eqb (serviceState a) "STARTED") eqn:Hs.
    - intros x _. exists [], (Remote ManagerGetService (Ret (RService a))).
      split; [reflexivity|]. exists a. split; [reflexivity|].
      apply String.eqb_eq, Hs.
    - rewrite fail_run. intros x Hx; cbn in Hx; discriminate Hx. }
  destruct s as [w l]. unfold deploy_mgmt_services. rewrite bind_unfold.
  unfold try_except_api. rewrite bind_call.
  destruct (remote ManagerGetService w) as [[r|e] w1].
  - destruct r as [|a| | | | | | |]; try solve [intros x Hx; cbn in Hx; discriminate Hx].
    simpl as_service. rewrite bind_ret_l. unfold ret at 1.
    destruct (String.eqb (serviceState a) "STARTED") eqn:Hs; cbn [negb].
    + intros x _. exists [], (Remote ManagerGetService (Ret (RService a))).
      split; [reflexivity|]. exists a. split; [reflexivity|].
      apply String.eqb_eq, Hs.
    + apply (ends_with_after _ [Remote ManagerGetService (Ret (RService a))]).
      do 6 (apply ends_with_bind_r; intros ? ?). apply Hlast.
  - destruct e as [msg|m|k| | | |n|n|z|]; try solve [intros x Hx; cbn in Hx; discriminate Hx].
    rewrite bind_call.
    destruct (remote ManagerCreateMgmtService w1) as [[r|e] w2];
      [|intros x Hx; cbn in Hx; discriminate Hx].
    unfold ret at 1. cbv iota beta. cbn [negb app].
    apply (ends_with_after _ [Remote ManagerGetService (Raise (ApiException msg));
                              Remote ManagerCreateMgmtService (Ret r)]).
    do 6 (apply ends_with_bind_r; intros ? ?). apply Hlast.
Qed.

Lemma deploy_mgmt_returns_when_started_witness :
  exists t0 e,
    (deploy_mgmt_services scripted (Some doc0) manager0 (script_new_mgmt, None)).2
    = t0 ++ [e] /\ reported_started e.
Proof.
  apply (deploy_mgmt_returns_when_started scripted (Some doc0) manager0
           (script_new_mgmt, None) tt).
  vm_compute. reflexivity.
Defined.

(** *** Orchestration, further *)

Section OrchestrateProperties.
Context {W : Type} (remote : Call -> W -> res Reply * W).

Lemma bind_ext {St A B} (m : M St A) (k k' : A -> M St B) (s : St) :
  (forall a s1, k a s1 = k' a s1) -> bind m k s = bind m k' s.
Proof.
  intros H. unfold bind. destruct (m s) as [[[a|e] s1] t1]; [|reflexivity].
  rewrite H. reflexivity.
Qed.

Lemma bind_cong_l {St A B} (m m' : M St A) (k : A -> M St B) (s : St) :
  m s = m' s -> bind m k s = bind m' k s.
Proof. intros H. unfold bind. rewrite H. reflexivity. Qed.

Lemma orchestrate_deploy_configured (self : ClouderaManager) (services : list string) :
  forall service_classes s,
    orchestrate_deploy remote self services service_classes s
    = orchestrate_deploy remote self (configured self services) service_classes s.
Proof.
  induction services as [|service services IH]; intros acc s; [reflexivity|].
  unfold configured. cbn [orchestrate_deploy].
  destruct (truthy_service_config (config_services (cm_config self) !! upper service))
    eqn:Hc.
  - rewrite filter_cons_True by exact Hc. cbn [orchestrate_deploy]. rewrite Hc.
    apply bind_ext. intros conf s1. apply bind_ext. intros kind s2.
    apply bind_ext. intros cluster s3. apply bind_ext. intros done s4. apply IH.
  - rewrite filter_cons_False by (rewrite Hc; discriminate). apply IH.
Qed.

Lemma module_service_class (service : string) :
  service ∈ BASE_SERVICES ++ ADDITIONAL_SERVICES ->
  exists kind, service_class service = Some kind.
Proof.
  intros H. unfold BASE_SERVICES, ADDITIONAL_SERVICES in H. simpl in H.
  repeat (apply elem_of_cons in H as [->|H]; [eexists; reflexivity|]).
  inversion H.
Qed.

(** Without a cluster (before [create_cluster]) the orchestration of a
    service of the module stops at its first need of the cluster. *)
Lemma orchestrate_deploy_detached (self : ClouderaManager) (services : list string) :
  Forall (fun service => service ∈ BASE_SERVICES ++ ADDITIONAL_SERVICES) services ->
  forall service_classes (w : W),
    (exists acc,
       orchestrate_deploy remote self services service_classes (w, None)
       = (Ret acc, (w, None), [])) \/
    (exists t,
       orchestrate_deploy remote self services service_classes (w, None)
       = (Raise (AttributeError "get_service"), (w, None), t) /\ calls t = []).
Proof.
  induction 1 as [|service services Hs _ IH]; intros acc w.
  - left. exists acc. reflexivity.
  - cbn [orchestrate_deploy].
    destruct (config_services (cm_config self) !! upper service) as [conf|] eqn:Hconf;
      [|apply IH].
    destruct (truthy_service_config (Some conf)); [|apply IH].
    simpl item. rewrite bind_ret_l.
    destruct (module_service_class service Hs) as [kind ->].
    rewrite bind_ret_l, bind_get_local. right.
    exists [Enter (upper (class_name kind)) MDeploy]. split; reflexivity.
Qed.
End OrchestrateProperties.

(** X20: services the description does not configure are skipped
    altogether: orchestrating a list of services is the same run as
    orchestrating, in the same order, those of them that have a non-empty
    entry in the description. *)
Theorem orchestrate_skips_unconfigured {W : Type} (remote : Call -> W -> res Reply * W)
    (self : ClouderaManager) (services : list string) (stop : bool)
    (s : W * option string) :
  service_orchestrate remote self services stop s
  = service_orchestrate remote self (configured self services) stop s.
Proof.
  unfold service_orchestrate.
  apply bind_cong_l, orchestrate_deploy_configured.
Qed.

(** X21: [service_orchestrate] on a manager whose cluster has not been
    attached (before [create_cluster]) ends in AttributeError without a
    single call to the control plane, for every list of services of the
    module (the names of BASE_SERVICES and ADDITIONAL_SERVICES), whether
    or not [stop] is set: the attribute missed is get_service, stop or
    start of the cluster. *)
Theorem service_orchestrate_needs_cluster {W : Type} (remote : Call -> W -> res Reply * W)
    (self : ClouderaManager) (services : list string) (stop : bool) (w : W) :
  Forall (fun service => service ∈ BASE_SERVICES ++ ADDITIONAL_SERVICES) services ->
  exists m t,
    service_orchestrate remote self services stop (w, None)
    = (Raise (AttributeError m), (w, None), t) /\
    calls t = [] /\ m ∈ ["get_service"; "stop"; "start"].
Proof.
  intros Hs. unfold service_orchestrate. unfold bind at 1.
  destruct (orchestrate_deploy_detached remote self services Hs [] w)
    as [[acc ->]|(t & -> & Ht)].
  - rewrite bind_get_local. destruct stop.
    + exists "stop", []. split; [reflexivity|]. split; [reflexivity|].
      apply elem_of_cons. right. apply elem_of_cons. left. reflexivity.
    + exists "start", []. split; [reflexivity|]. split; [reflexivity|].
      do 2 (apply elem_of_cons; right). apply elem_of_cons. left. reflexivity.
  - exists "get_service", t. split; [reflexivity|]. split; [exact Ht|].
    apply elem_of_cons. left. reflexivity.
Qed.

Lemma service_orchestrate_needs_cluster_witness :
  exists m t,
    service_orchestrate scripted manager0 BASE_SERVICES true ([], None)
    = (Raise (AttributeError m), ([], None), t) /\
    calls t = [] /\ m ∈ ["get_service"; "stop"; "start"].
Proof.
  apply (service_orchestrate_needs_cluster scripted manager0 BASE_SERVICES true []).
  unfold BASE_SERVICES, ADDITIONAL_SERVICES.
  repeat (constructor; [simpl; repeat (first [left; reflexivity|right])|]).
  constructor.
Defined.

(** *** Setup *)

Lemma service_of_cluster_of (call : Call) (c n : string) :
  service_of call = Some (ClusterSvc c n) -> cluster_of call = Some c.
Proof.
  induction call; simpl; intros H; try discriminate; try (apply IHcall; exact H);
    try (injection H as -> ->; reflexivity); try (injection H as ->; reflexivity).
Qed.

Lemma addressed_in_cluster (c n : string) (e : Event) :
  addressed_to (ClusterSvc c n) e -> in_cluster c e.
Proof.
  destruct e as [call r| | | |]; simpl; try (intros; exact I).
  intros H. rewrite (service_of_cluster_of _ _ _ H). reflexivity.
Qed.

Section ParcelsKeeps.
Context {W L : Type} (remote : Call -> W -> res Reply * W).
Context (self : Parcels) (J : L -> Prop).

Local Abbreviation PInv := (fun s : W * L => J s.2).
Local Abbreviation PP := (in_cluster (p_cluster self)).

Ltac pcall := apply (keeps_call remote J); intros ?; reflexivity.
Ltac pany := apply (keeps_bind PInv PP (fun _ => True)).

Lemma parcel_keeps : keeps PInv PP (fun _ => True) (parcel remote self).
Proof. unfold parcel. pany; [pcall|]. intros r _. apply keeps_as_parcel. Qed.

Lemma check_error_keeps (p : ApiParcel) :
  keeps PInv PP (fun _ => True) (check_error self p).
Proof.
  unfold check_error. destruct (errors (state p));
    [apply keeps_ret; exact I|apply keeps_fail; exact I].
Qed.

Lemma validate_keeps : keeps PInv PP (fun _ => True) (validate remote self).
Proof.
  unfold validate. apply keeps_try.
  - pany; [pcall|]. intros r _. pany; [apply keeps_as_parcel|]. intros p _.
    apply check_error_keeps.
  - intros _. destruct (p_repo self) as [repo|]; [|apply keeps_raise].
    pany; [pcall|]. intros r _. pany; [apply keeps_as_config|]. intros cm_config _.
    eapply (keeps_bind PInv PP); [apply keeps_item|]. intros repo_config _.
    destruct (if truthy_str (value repo_config) then value repo_config
              else default repo_config) as [urls|]; [|apply keeps_raise].
    pany; [pcall|]. intros _ _.
    pany; [|intros [p|] _; [apply check_error_keeps|apply keeps_raise]].
    unfold wait_parcel.
    eapply keeps_weaken; [intros e He; exact He| |apply keeps_retry; [apply parcel_keeps|exact I]].
    intros; exact I.
Qed.

Lemma check_state_keeps (states : list string) :
  keeps PInv PP (fun _ => True) (check_state remote self states).
Proof.
  unfold check_state.
  eapply keeps_weaken; [intros e He; exact He| |apply (keeps_retry PInv PP (fun _ => True)); [|exact I]].
  - intros; exact I.
  - unfold check_state_body. pany; [apply parcel_keeps|]. intros p _.
    pany; [apply check_error_keeps|]. intros _ _.
    destruct (bool_decide (stage p ∈ states)); [apply keeps_ret; exact I|].
    destruct states; apply keeps_raise.
Qed.

Lemma download_keeps : keeps PInv PP (fun _ => True) (download remote self).
Proof.
  unfold download. pany; [apply parcel_keeps|]. intros _ _. pany; [pcall|]. intros _ _.
  pany; [apply check_state_keeps|]. intros _ _. apply keeps_ret. exact I.
Qed.

Lemma distribute_keeps : keeps PInv PP (fun _ => True) (distribute remote self).
Proof.
  unfold distribute. pany; [apply parcel_keeps|]. intros _ _. pany; [pcall|]. intros _ _.
  pany; [apply check_state_keeps|]. intros _ _. apply keeps_ret. exact I.
Qed.

Lemma activate_keeps : keeps PInv PP (fun _ => True) (activate remote self).
Proof.
  unfold activate. pany; [apply parcel_keeps|]. intros _ _. pany; [pcall|]. intros _ _.
  pany; [apply check_state_keeps|]. intros _ _. apply keeps_ret. exact I.
Qed.
End ParcelsKeeps.

Section ManagerKeeps.
Context {W : Type} (remote : Call -> W -> res Reply * W).
Context (self : ClouderaManager).

Local Abbreviation cname := (cluster_name (config_cluster (cm_config self))).
Local Abbreviation CInv := (fun s : W * option string => s.2 = Some cname).
Local Abbreviation CP := (in_cluster cname).
Local Abbreviation CJ := (fun l : option string => l = Some cname).

(** A deployed service of the orchestration: it belongs to the cluster
    and its cached service object, if any, is its own. *)
Local Abbreviation deployed := (fun x : Service * option (SvcRef * ApiService) =>
  svc_cluster x.1 = Some cname /\ caches (ClusterSvc cname (name x.1)) x.2).

Ltac ccall := apply (keeps_call remote CJ); intros ?; simpl; try reflexivity.
Ltac cany := apply (keeps_bind CInv CP (fun _ => True)).

Lemma new_parcels_keeps (module : bool) (version : string) (repo : option string) :
  keeps CInv CP (fun p => p_cluster p = cname)
    (new_parcels remote module cname version repo).
Proof.
  unfold new_parcels. cbv zeta. cany.
  - apply (validate_keeps remote
             {| p_module := module; p_cluster := cname; p_version := version;
                p_repo := repo |} CJ).
  - intros _ _. apply keeps_ret. reflexivity.
Qed.

Lemma wait_inspect_hosts_keeps (cmd : Call) :
  cluster_of cmd = None ->
  keeps CInv CP (fun _ => True) (wait_inspect_hosts remote self cmd).
Proof.
  intros Hcmd. unfold wait_inspect_hosts.
  eapply keeps_weaken; [intros e He; exact He| |apply (keeps_retry CInv CP (fun _ => True)); [|exact I]].
  - intros; exact I.
  - unfold wait_inspect_hosts_body.
    cany; [ccall; rewrite Hcmd; exact I|]. intros r _.
    cany; [apply keeps_as_command|]. intros cmd' _.
    destruct (success cmd') as [[|]|];
      [apply keeps_ret; exact I|apply keeps_fail; exact I|apply keeps_raise].
Qed.

Lemma mgmt_roles_keeps (config : option ConfigDoc) :
  keeps CInv CP (fun _ => True) (mgmt_roles config).
Proof.
  unfold mgmt_roles. destruct config as [g|]; [|apply keeps_raise].
  eapply (keeps_bind CInv CP); [apply keeps_item|]. intros mgmt _.
  eapply keeps_weaken; [intros e He; exact He| |apply keeps_item]. intros; exact I.
Qed.

Lemma deploy_mgmt_services_keeps (config : option ConfigDoc) :
  keeps CInv CP (fun _ => True) (deploy_mgmt_services remote config self).
Proof.
  unfold deploy_mgmt_services.
  cany.
  - apply keeps_try.
    + cany; [ccall|]. intros r _. cany; [apply keeps_as_service|]. intros mgmt _.
      apply keeps_ret. exact I.
    + intros _. cany; [ccall|]. intros _ _. apply keeps_ret. exact I.
  - intros go_on _. destruct (negb go_on); [apply keeps_ret; exact I|].
    cany; [apply mgmt_roles_keeps|]. intros roles _.
    cany.
    { apply keeps_for_each. intros role _.
      eapply (keeps_bind CInv CP); [apply keeps_item|]. intros group _.
      cany; [ccall|]. intros r _. cany; [apply keeps_as_roles|]. intros existing _.
      destruct (negb (0 <? Z.of_nat (length existing))); [|apply keeps_ret; exact I].
      eapply (keeps_bind CInv CP); [apply keeps_item|]. intros [|host hosts] _;
        [apply keeps_raise|].
      cany; [ccall|]. intros _ _. apply keeps_ret. exact I. }
    intros _ _. cany; [apply mgmt_roles_keeps|]. intros roles' _.
    cany.
    { apply keeps_for_each. intros role _.
      eapply (keeps_bind CInv CP); [apply keeps_item|]. intros group _.
      cany; [ccall|]. intros _ _. cany; [ccall|]. intros _ _. apply keeps_ret. exact I. }
    intros _ _. cany; [ccall|]. intros _ _. cany; [ccall|]. intros _ _.
    cany; [ccall|]. intros r _. cany; [apply keeps_as_service|]. intros mgmt _.
    destruct (String.eqb (serviceState mgmt) "STARTED");
      [apply keeps_ret; exact I|apply keeps_fail; exact I].
Qed.

Lemma orchestrate_deploy_keeps (services : list string) :
  forall service_classes,
    Forall deployed service_classes ->
    keeps CInv CP (Forall deployed)
      (orchestrate_deploy remote self services service_classes).
Proof.
  induction services as [|service services IH]; intros acc Hacc; simpl.
  - apply keeps_ret. exact Hacc.
  - destruct (truthy_service_config (config_services (cm_config self) !! upper service));
      [|apply IH; exact Hacc].
    eapply (keeps_bind CInv CP); [apply keeps_item|]. intros conf _.
    cany; [destruct (service_class service); [apply keeps_ret; exact I|apply keeps_raise]|].
    intros kind _.
    apply (keeps_bind CInv CP CJ); [apply (keeps_get_local CJ)|]. intros cluster ->.
    eapply (keeps_bind CInv CP).
    + apply (keeps_zoom CJ
               (caches (ClusterSvc cname (name (new_service kind (Some cname) conf None))))
               CP (fun _ => True)); [exact I|].
      apply (keeps_bind _ CP (fun _ => True)).
      * apply (deploy_keeps remote (new_service kind (Some cname) conf None) cname CP eq_refl). apply addressed_in_cluster.
      * intros _ _. apply (pre_start_keeps remote (new_service kind (Some cname) conf None) cname CP eq_refl).
        apply addressed_in_cluster.
    + intros done [_ Hdone]. apply IH. apply Forall_app_2; [exact Hacc|].
      repeat constructor. exact Hdone.
Qed.

Lemma service_orchestrate_keeps (services : list string) (stop : bool) :
  keeps CInv CP (fun _ => True) (service_orchestrate remote self services stop).
Proof.
  unfold service_orchestrate.
  apply (keeps_bind CInv CP (Forall deployed));
    [apply orchestrate_deploy_keeps; constructor|].
  intros service_classes Hsc.
  apply (keeps_bind CInv CP CJ); [apply (keeps_get_local CJ)|]. intros cluster ->.
  simpl the_cluster.
  cany.
  { destruct stop; [|apply keeps_ret; exact I].
    apply (keeps_bind CInv CP (fun c => c = cname)); [apply keeps_ret; reflexivity|]. intros c ->.
    cany; [ccall|]. intros _ _. cany; [ccall|]. intros _ _. apply keeps_ret. exact I. }
  intros _ _. apply (keeps_bind CInv CP (fun c => c = cname)); [apply keeps_ret; reflexivity|]. intros c ->.
  cany; [ccall|]. intros _ _. cany; [ccall|]. intros _ _.
  apply keeps_for_each. intros svc Hsvc.
  rewrite Forall_forall in Hsc. destruct (Hsc svc Hsvc) as [Hc Hcache].
  cany; [|intros _ _; apply keeps_ret; exact I].
  eapply keeps_weaken; [intros e He; exact He|intros; exact I|].
  apply (keeps_zoom CJ (caches (ClusterSvc cname (name svc.1))) CP (fun _ => True));
    [exact Hcache|].
  apply (post_start_keeps remote _ cname CP Hc). apply addressed_in_cluster.
Qed.
End ManagerKeeps.

Section SetupKeeps.
Context {W : Type} (remote : Call -> W -> res Reply * W).
Context (self : ClouderaManager).

Local Abbreviation cname := (cluster_name (config_cluster (cm_config self))).
Local Abbreviation CInv := (fun s : W * option string => s.2 = Some cname).
Local Abbreviation CP := (in_cluster cname).
Local Abbreviation CJ := (fun l : option string => l = Some cname).

Ltac ccall := apply (keeps_call remote CJ); intros ?; simpl; try reflexivity.
Ltac cany := apply (keeps_bind CInv CP (fun _ => True)).

Lemma bind_establishes {St A B} (Inv : St -> Prop) (P : Event -> Prop) (Q : B -> Prop)
    (m : M St A) (k : A -> M St B) (s : St) :
  Forall P (m s).2 ->
  (forall a, (m s).1.1 = Ret a -> Inv (m s).1.2) ->
  (forall a, keeps Inv P Q (k a)) ->
  Forall P (bind m k s).2 /\
  (forall b, (bind m k s).1.1 = Ret b -> Inv (bind m k s).1.2 /\ Q b).
Proof.
  intros Ht Hs Hk. unfold bind. destruct (m s) as [[[a|e] s1] t1]; simpl in *.
  - specialize (Hk a s1 (Hs a eq_refl)). destruct (k a s1) as [[r s2] t2]. simpl in *.
    destruct Hk as (H2 & Ht2 & Hq). split; [apply Forall_app_2; assumption|].
    intros b Hb. split; [exact H2|apply Hq, Hb].
  - split; [exact Ht|]. intros b [=].
Qed.

(** The first step of [create_cluster]: the cluster is looked up or
    created under the name of the description, and [self.cluster] is set
    once either succeeded. *)
Lemma attach_cluster_run (s : W * option string) :
  let attach :=
    try_except_api
      (call remote (ApiGetCluster cname) ;;; set_local (Some cname))
      (fun _ =>
         call remote (ApiCreateCluster cname
                        (cluster_version (config_cluster (cm_config self)))
                        (cluster_fullVersion (config_cluster (cm_config self)))) ;;;
         set_local (Some cname)) in
  Forall CP (attach s).2 /\
  (forall a, (attach s).1.1 = Ret a -> (attach s).1.2.2 = Some cname).
Proof.
  intros attach. subst attach. destruct s as [w l].
  unfold try_except_api. rewrite bind_call.
  destruct (remote (ApiGetCluster cname) w) as [[r|e] w1]; simpl.
  - split; [repeat constructor|reflexivity].
  - destruct e; try solve [split; [repeat constructor|intros a [=]]].
    rewrite bind_call.
    destruct (remote (ApiCreateCluster cname _ _) w1) as [[r|e] w2]; simpl.
    + split; [repeat constructor|reflexivity].
    + split; [repeat constructor|intros a [=]].
Qed.

Lemma enroll_keeps :
  keeps CInv CP (fun _ : unit => True)
    (cluster <- get_local ;;
     c <- the_cluster cluster "list_hosts" ;;
     r <- call remote (ClusterListHosts c) ;;
     refs <- as_host_refs r ;;
     enrolled <- map_m (fun hostId => r <- call remote (ApiGetHost hostId) ;; as_host r) refs ;;
     call remote (ClusterAddHosts c
                    (filter (fun host => host ∉ enrolled)
                       (cluster_hosts (config_cluster (cm_config self))))) ;;;
     ret tt).
Proof.
  apply (keeps_bind CInv CP CJ); [apply (keeps_get_local CJ)|]. intros cluster ->.
  simpl the_cluster.
  apply (keeps_bind CInv CP (fun c => c = cname)); [apply keeps_ret; reflexivity|].
  intros c ->. cany; [ccall|]. intros r _.
  cany; [apply keeps_as_host_refs|]. intros refs _.
  cany.
  { apply keeps_map_m. intros hostId. cany; [ccall; exact I|]. intros r' _.
    apply keeps_as_host. }
  intros enrolled _. cany; [ccall|]. intros _ _. apply keeps_ret. exact I.
Qed.

Lemma create_cluster_attaches (s : W * option string) :
  Forall CP (create_cluster remote self s).2 /\
  (forall a, (create_cluster remote self s).1.1 = Ret a ->
             (create_cluster remote self s).1.2.2 = Some cname).
Proof.
  destruct (attach_cluster_run s) as [Ht Hs].
  destruct (bind_establishes CInv CP (fun _ : unit => True) _
              (fun _ : unit => _) s Ht Hs (fun _ => enroll_keeps)) as [H1 H2].
  split; [exact H1|]. intros a Ha. apply (H2 a Ha).
Qed.

Lemma setup_rest_keeps (config : option ConfigDoc) :
  keeps CInv CP (fun _ : unit => True)
    (cluster <- get_local ;;
     c <- the_cluster cluster "get_parcel" ;;
     parcel <- new_parcels remote (cm_module self) c
                 (parcel_version (config_parcel (cm_config self)))
                 (parcel_repo (config_parcel (cm_config self))) ;;
     download remote parcel ;;;
     distribute remote parcel ;;;
     activate remote parcel ;;;
     call remote ManagerInspectHosts ;;;
     wait_inspect_hosts remote self ManagerInspectHosts ;;;
     deploy_mgmt_services remote config self ;;;
     service_orchestrate remote self BASE_SERVICES true ;;;
     service_orchestrate remote self ADDITIONAL_SERVICES false ;;;
     cluster <- get_local ;;
     c <- the_cluster cluster "deploy_client_config" ;;
     call remote (ClusterDeployClientConfig c) ;;;
     ret tt).
Proof.
  apply (keeps_bind CInv CP CJ); [apply (keeps_get_local CJ)|]. intros cluster ->.
  simpl the_cluster.
  apply (keeps_bind CInv CP (fun c => c = cname)); [apply keeps_ret; reflexivity|].
  intros c ->.
  apply (keeps_bind CInv CP (fun p => p_cluster p = cname));
    [apply new_parcels_keeps|]. intros parcel Hp.
  cany; [pose proof (download_keeps remote parcel CJ) as H; rewrite Hp in H; exact H|]. intros _ _.
  cany; [pose proof (distribute_keeps remote parcel CJ) as H; rewrite Hp in H; exact H|]. intros _ _.
  cany; [pose proof (activate_keeps remote parcel CJ) as H; rewrite Hp in H; exact H|]. intros _ _.
  cany; [ccall; exact I|]. intros _ _.
  cany; [apply wait_inspect_hosts_keeps; reflexivity|]. intros _ _.
  cany; [apply deploy_mgmt_services_keeps|]. intros _ _.
  cany; [apply service_orchestrate_keeps|]. intros _ _.
  cany; [apply service_orchestrate_keeps|]. intros _ _.
  apply (keeps_bind CInv CP CJ); [apply (keeps_get_local CJ)|]. intros cluster ->.
  simpl the_cluster.
  apply (keeps_bind CInv CP (fun c => c = cname)); [apply keeps_ret; reflexivity|].
  intros c ->. cany; [ccall|]. intros _ _. apply keeps_ret. exact I.
Qed.
End SetupKeeps.

Section SetupProperties.
Context {W : Type} (remote : Call -> W -> res Reply * W).
Context (self : ClouderaManager).

Local Abbreviation cname := (cluster_name (config_cluster (cm_config self))).
Local Abbreviation CInv := (fun s : W * option string => s.2 = Some cname).
Local Abbreviation CP := (in_cluster cname).
Local Abbreviation CJ := (fun l : option string => l = Some cname).

Lemma ends_bind {St A B} (Inv : St -> Prop) (P : Event -> Prop) (R : A -> Prop)
    (E : Event -> Prop) (m : M St A) (k : A -> M St B) (s : St) :
  keeps Inv P R m -> Inv s ->
  (forall a s1, Inv s1 -> ends_with (A:=B) E (k a s1)) ->
  ends_with E (bind m k s).
Proof.
  intros Hm Hs Hk. destruct (Hm s Hs) as (H1 & _ & _). unfold bind.
  destruct (m s) as [[[a|e] s1] t1]; simpl in H1; [|intros b [=]].
  specialize (Hk a s1 H1). destruct (k a s1) as [[r s2] t2].
  intros b Hb. destruct (Hk b Hb) as (t0 & e0 & Ht & He). simpl in *. subst t2.
  exists (t1 ++ t0), e0. rewrite app_assoc. split; [reflexivity|exact He].
Qed.

Lemma setup_rest_ends (config : option ConfigDoc) (s : W * option string) :
  s.2 = Some cname ->
  ends_with (returned (ClusterDeployClientConfig cname))
    ((cluster <- get_local ;;
      c <- the_cluster cluster "get_parcel" ;;
      parcel <- new_parcels remote (cm_module self) c
                  (parcel_version (config_parcel (cm_config self)))
                  (parcel_repo (config_parcel (cm_config self))) ;;
      download remote parcel ;;;
      distribute remote parcel ;;;
      activate remote parcel ;;;
      call remote ManagerInspectHosts ;;;
      wait_inspect_hosts remote self ManagerInspectHosts ;;;
      deploy_mgmt_services remote config self ;;;
      service_orchestrate remote self BASE_SERVICES true ;;;
      service_orchestrate remote self ADDITIONAL_SERVICES false ;;;
      cluster <- get_local ;;
      c <- the_cluster cluster "deploy_client_config" ;;
      call remote (ClusterDeployClientConfig c) ;;;
      ret tt) s).
Proof.
  intros Hs. destruct s as [w l]. simpl in Hs. subst l.
  rewrite bind_get_local. simpl the_cluster. rewrite bind_ret_l.
  eapply (ends_bind CInv CP); [apply new_parcels_keeps|reflexivity|].
  intros parcel s1 H1.
  eapply (ends_bind CInv (fun _ => True) (fun _ => True));
    [eapply keeps_weaken; [| |apply (download_keeps remote parcel CJ)]; intros; exact I
    |exact H1|].
  intros _ s2 H2.
  eapply (ends_bind CInv (fun _ => True) (fun _ => True));
    [eapply keeps_weaken; [| |apply (distribute_keeps remote parcel CJ)]; intros; exact I
    |exact H2|].
  intros _ s3 H3.
  eapply (ends_bind CInv (fun _ => True) (fun _ => True));
    [eapply keeps_weaken; [| |apply (activate_keeps remote parcel CJ)]; intros; exact I
    |exact H3|].
  intros _ s4 H4.
  eapply (ends_bind CInv CP (fun _ => True));
    [apply (keeps_call remote CJ); intros; exact I|exact H4|].
  intros _ s5 H5.
  eapply (ends_bind CInv CP);
    [apply (wait_inspect_hosts_keeps remote self); reflexivity|exact H5|].
  intros _ s6 H6.
  eapply (ends_bind CInv CP); [apply deploy_mgmt_services_keeps|exact H6|].
  intros _ s7 H7.
  eapply (ends_bind CInv CP); [apply service_orchestrate_keeps|exact H7|].
  intros _ s8 H8.
  eapply (ends_bind CInv CP); [apply service_orchestrate_keeps|exact H8|].
  intros _ [w9 l9] H9. simpl in H9. subst l9.
  rewrite bind_get_local. simpl the_cluster. rewrite bind_ret_l, bind_call.
  destruct (remote (ClusterDeployClientConfig cname) w9) as [[r|e] w10];
    simpl; intros a Ha; [|discriminate].
  exists [], (Remote (ClusterDeployClientConfig cname) (Ret r)).
  split; [reflexivity|]. exists r. reflexivity.
Qed.
End SetupProperties.

(** X22: [setup] works on one cluster only: every call it makes that
    names a cluster (the lookup and creation of the cluster, its hosts,
    parcels, services, roles, commands, stop, start and client
    configuration) names the cluster of the description. *)
Theorem setup_single_cluster {W : Type} (remote : Call -> W -> res Reply * W)
    (config : option ConfigDoc) (self : ClouderaManager) (s : W * option string) :
  Forall (in_cluster (cluster_name (config_cluster (cm_config self))))
    (setup remote config self s).2.
Proof.
  unfold setup.
  destruct (create_cluster_attaches remote self s) as [Ht Hs].
  apply (bind_establishes
           (fun s : W * option string =>
              s.2 = Some (cluster_name (config_cluster (cm_config self))))
           (in_cluster (cluster_name (config_cluster (cm_config self))))
           (fun _ : unit => True) (create_cluster remote self) _ s Ht Hs).
  intros _. apply setup_rest_keeps.
Qed.

(** X23: a [setup] that returns has ended with the deployment of the
    client configuration of the cluster of the description, and that
    call returned. *)
Theorem setup_ends_with_client_config {W : Type} (remote : Call -> W -> res Reply * W)
    (config : option ConfigDoc) (self : ClouderaManager) (s : W * option string) :
  ends_with
    (returned (ClusterDeployClientConfig (cluster_name (config_cluster (cm_config self)))))
    (setup remote config self s).
Proof.
  unfold setup. destruct (create_cluster_attaches remote self s) as [_ Hs].
  unfold bind at 1.
  destruct (create_cluster remote self s) as [[[[]|e] s1] t1]; [|intros a [=]].
  specialize (Hs tt eq_refl). simpl in Hs.
  pose proof (setup_rest_ends remote self config s1 Hs) as H.
  match type of H with
  | ends_with _ ?out => destruct out as [[r s2] t2]
  end.
  intros a Ha. destruct (H a Ha) as (t0 & e0 & E & He). simpl in *. subst t2.
  exists (t1 ++ t0), e0. rewrite app_assoc. split; [reflexivity|exact He].
Qed.

Lemma setup_ends_with_client_config_witness :
  exists t0 e,
    (setup scripted (Some doc0) manager0 (script_all_in_place, None)).2 = t0 ++ [e] /\
    returned (ClusterDeployClientConfig "cluster1") e.
Proof.
  apply (setup_ends_with_client_config scripted (Some doc0) manager0
           (script_all_in_place, None) tt).
  vm_compute. reflexivity.
Defined.

(** A run of [setup] in which nothing has to be created: it returns,
    and the only changes it asks for are the enrollment of the hosts, the
    parcel steps, the host inspection, the Zookeeper initialisation, the
    stop and starts of the cluster and the client configuration. *)
Example setup_run :
  (run_scripted (fun remote => setup remote (Some doc0) manager0)
     script_all_in_place None).1 = Ret tt /\
  filter (fun c => is_mutation c = true)
    (calls (run_scripted (fun remote => setup remote (Some doc0) manager0)
              script_all_in_place None).2)
  = [ ClusterAddHosts "cluster1" ["host1"; "host2"; "host3"; "host4"];
      ParcelStartDownload "cluster1" "CDH" "5.4.0";
      ParcelStartDistribution "cluster1" "CDH" "5.4.0";
      ParcelActivate "cluster1" "CDH" "5.4.0";
      ManagerInspectHosts;
      ServiceCommand (ClusterSvc "cluster1" "ZOOKEEPER") "init_zookeeper" [];
      ClusterStop "cluster1"; ClusterStart "cluster1"; ClusterStart "cluster1";
      ClusterDeployClientConfig "cluster1" ].
Proof. vm_compute. split; reflexivity. Qed.

